(** * Shared queue DJ backend: playback monitor and credit-gated queue mutations

    A shallow embedding of
      - [computeProgressMs], [buildPlaybackPayload] and the class
        [PlaybackService] ([derivePollDelay], [ensureMonitor],
        [updateSoundZone], [stopMonitor], [requestImmediateSync],
        [schedulePoll], [pollSession]) of the playback service, and
      - [QueueController] ([resolveSessionActor], [add], [get], [remove],
        [vote]),
      - the front-end part of the configuration module ([normalizeOrigin],
        [normalizeUrl], the allowed origins, [deriveSocketUrl], the checks
        made while the module loads), and
      - the GraphQL client of the provider ([execute], [getNowPlaying] and
        the zone commands),
    followed by the statements and proofs of the properties the
    specification gives for them, and of further properties read off the
    code: the life cycle of monitors and timers, the stages of a pass, the
    call discipline of the handlers and their wiring to the playback
    service.

    Conventions of the embedding.
      - A JavaScript value that may be [null] or [undefined] is an [option];
        truthiness and [===] on strings are written out ([JS.truthy],
        [JS.seq]).
      - Millisecond quantities ([Date.now()], [Date.parse], [durationMs],
        timer delays) are integers, [Z].
      - The monitor registry is a finite map from session ids to monitor
        records; a timer is a handle in a finite map of pending timers.  Each
        operation of the service, and each reconciliation pass, is one step
        on that state.
      - [await]ed calls to collaborators that are not part of the modelled
        files (queue store, credit ledger, session store, provider client,
        broadcast gateway) take their outcome from an explicit environment
        record; a rejected promise is [inr e].
      - Side effects on collaborators are recorded, in program order, in a
        trace of events.

    Layout: the model ([JS], [Soundtrack], [Progress], [Playback], [Pass],
    [Controller], [Handlers], [Wiring], [Settings], [Client]) with the
    vocabulary of the statements (the modules named [...Spec]), then the
    proofs (the modules named [...Props]). *)

From Stdlib Require Import ZArith Lia.
From stdpp Require Import gmap strings list.

Local Open Scope Z_scope.

(** ** JavaScript helpers *)

Module JS.

(** Values thrown by the modelled code and its collaborators.  The handlers
    only ever inspect [instanceof CreditError], [.status] and [.message]. *)
Inductive Error : Type :=
  | CreditError (status : Z) (message : string)
  | OtherError (message : string).

Definition message (e : Error) : string :=
  match e with
  | CreditError _ m => m
  | OtherError m => m
  end.

(** Outcome of an awaited call. *)
Definition Result (A : Type) : Type := (A + Error)%type.

(** Truthiness of a [string | null | undefined]. *)
Definition truthy (o : option string) : bool :=
  match o with
  | Some s => negb (bool_decide (s = ""%string))
  | None => false
  end.

(** [a === b] on [string | null]. *)
Definition seq (a b : option string) : bool := bool_decide (a = b).

(** [a ?? b]. *)
Definition nullish {A} (a b : option A) : option A :=
  match a with
  | Some _ => a
  | None => b
  end.

(** [s || fallback] on strings. *)
Definition or_str (s fallback : string) : string :=
  if bool_decide (s = ""%string) then fallback else s.

End JS.

(** ** Provider data: [SoundtrackNowPlaying] *)

Module Soundtrack.

Record Track : Type := mkTrack {
    id : string;
    name : string;
    durationMs : option Z;
    artists : list string;
    albumName : option string;
    albumImageUrl : option string
  }.

Record NowPlaying : Type := mkNowPlaying {
    startedAt : option string;
    state : option string;
    track : option Track
  }.

(** [SoundtrackPlaybackState.Playing]. *)
Definition Playing : string := "PLAYING".

End Soundtrack.

(** ** Progress and adaptive delay *)

Module Progress.
Import JS Soundtrack.

Definition DEFAULT_POLL_INTERVAL_MS : Z := 5000.
Definition MIN_POLL_INTERVAL_MS : Z := 2000.
Definition CONTENT_REQUEST_TIMEOUT_MS : Z := 15000.

(** [nowPlaying?.track?.durationMs ?? null]. *)
Definition durationOf (nowPlaying : option NowPlaying) : option Z :=
  match nowPlaying with
  | Some np =>
      match track np with
      | Some t => durationMs t
      | None => None
      end
  | None => None
  end.

(** [nowPlaying?.track?.id ?? null]. *)
Definition trackIdOf (nowPlaying : option NowPlaying) : option string :=
  match nowPlaying with
  | Some np =>
      match track np with
      | Some t => Some (id t)
      | None => None
      end
  | None => None
  end.

Section WithClock.

(** [Date.parse]: [None] stands for [NaN]. *)
Variable Date_parse : string -> option Z.

(** [computeProgressMs], with [now] the value of [Date.now()]. *)
Definition computeProgressMs (now : Z) (nowPlaying : option NowPlaying)
  : option Z :=
  match nowPlaying with
  | None => None
  | Some np =>
      if negb (truthy (startedAt np)) then None
      else
        match startedAt np with
        | None => None
        | Some s =>
            match Date_parse s with
            | None => None
            | Some startedAtMs =>
                let progress := now - startedAtMs in
                if progress <? 0 then Some 0
                else
                  match durationOf nowPlaying with
                  | Some duration =>
                      if 0 <? duration
                      then Some (Z.min progress duration)
                      else Some progress
                  | None => Some progress
                  end
            end
        end
  end.

(** [PlaybackService.derivePollDelay]. *)
Definition derivePollDelay (now : Z) (nowPlaying : option NowPlaying) : Z :=
  let progress := computeProgressMs now nowPlaying in
  let duration := durationOf nowPlaying in
  let playing :=
    match nowPlaying with
    | Some np => seq (state np) (Some Playing)
    | None => false
    end in
  match playing, progress, duration with
  | true, Some p, Some d =>
      if 0 <? d then
        let remaining := Z.max 0 (d - p) in
        let bufferMs := 2500 in
        Z.max MIN_POLL_INTERVAL_MS
              (Z.min DEFAULT_POLL_INTERVAL_MS (remaining + bufferMs))
      else DEFAULT_POLL_INTERVAL_MS
  | _, _, _ => DEFAULT_POLL_INTERVAL_MS
  end.

End WithClock.

(** The specification's [clamp(x, floor, ceiling)], written as in its worked
    example: [min(ceiling, max(floor, x))]. *)
Definition clamp (x floor ceiling : Z) : Z :=
  Z.min ceiling (Z.max floor x).

(** A report with a start time that [Date.parse] reads as [start]. *)
Definition parseable (Date_parse : string -> option Z)
    (np : NowPlaying) (start : Z) : Prop :=
  exists s, startedAt np = Some s /\ s <> ""%string /\ Date_parse s = Some start.

(** The progress property with the clamp applied for every known,
    non-negative duration. *)
Definition progress_clamped_when_nonneg
    (Date_parse : string -> option Z) (now : Z) (np : NowPlaying) : Prop :=
  forall start d,
    parseable Date_parse np start ->
    durationOf (Some np) = Some d ->
    0 <= d ->
    computeProgressMs Date_parse now (Some np)
    = Some (Z.max 0 (Z.min (now - start) d)).

(** A fixed clock reading, for concrete scenarios: every timestamp string
    parses to the epoch. *)
Definition parse_epoch (_ : string) : option Z := Some 0.

Definition sample_track (d : option Z) : Track :=
  mkTrack "t1" "Song" d [] None None.

Definition sample_report (d : option Z) : NowPlaying :=
  mkNowPlaying (Some "1970-01-01T00:00:00.000Z"%string) (Some Playing)
               (Some (sample_track d)).

End Progress.

(** ** The playback service: monitors, timers and the reconciliation pass *)

Module Playback.
Import JS Soundtrack Progress.

(** [interface MonitorState].  [timeout] holds the handle of the pending
    timer ([NodeJS.Timeout], always truthy) or [None] for [null]. *)
Record MonitorState : Type := mkMonitor {
    hostId : string;
    soundZoneId : option string;
    timeout : option nat;
    processing : bool;
    currentTrackId : option string;
    awaitingTrackId : option string;
    requestIssuedAt : option Z
  }.

Definition set_hostId (h : string) (m : MonitorState) : MonitorState :=
  mkMonitor h (soundZoneId m) (timeout m) (processing m)
            (currentTrackId m) (awaitingTrackId m) (requestIssuedAt m).
Definition set_soundZoneId (z : option string) (m : MonitorState) : MonitorState :=
  mkMonitor (hostId m) z (timeout m) (processing m)
            (currentTrackId m) (awaitingTrackId m) (requestIssuedAt m).
Definition set_timeout (t : option nat) (m : MonitorState) : MonitorState :=
  mkMonitor (hostId m) (soundZoneId m) t (processing m)
            (currentTrackId m) (awaitingTrackId m) (requestIssuedAt m).
Definition set_processing (b : bool) (m : MonitorState) : MonitorState :=
  mkMonitor (hostId m) (soundZoneId m) (timeout m) b
            (currentTrackId m) (awaitingTrackId m) (requestIssuedAt m).
Definition set_currentTrackId (c : option string) (m : MonitorState) : MonitorState :=
  mkMonitor (hostId m) (soundZoneId m) (timeout m) (processing m)
            c (awaitingTrackId m) (requestIssuedAt m).
Definition set_awaitingTrackId (a : option string) (m : MonitorState) : MonitorState :=
  mkMonitor (hostId m) (soundZoneId m) (timeout m) (processing m)
            (currentTrackId m) a (requestIssuedAt m).
Definition set_requestIssuedAt (r : option Z) (m : MonitorState) : MonitorState :=
  mkMonitor (hostId m) (soundZoneId m) (timeout m) (processing m)
            (currentTrackId m) (awaitingTrackId m) r.

(** A timer armed by [setTimeout]: the session its callback polls and the
    delay it was armed with. *)
Record Timer : Type := mkTimer {
    timer_session : string;
    timer_delay : Z
  }.

(** The part of [config.soundtrack] the service reads. *)
Record Config : Type := mkConfig {
    defaultSoundZone : option string;
    defaultContentId : option string
  }.

(** Queue view returned by [queueService.getQueueWithNext]. *)
Record QueueItem : Type := mkQueueItem {
    itemId : string;
    spotifyTrackId : string
  }.

Record QueueView : Type := mkQueueView {
    queue : list QueueItem;
    nextUp : option QueueItem
  }.

(** What [resolveRequester] reads of the most recent queue item. *)
Record RecentItem : Type := mkRecentItem {
    addedBy : option string;
    addedByGuest : option string
  }.

Inductive Requester : Type :=
  | RequesterHost (name : string)
  | RequesterGuest (name : string)
  | RequesterUnknown.

Record PlaybackTrackPayload : Type := mkTrackPayload {
    pt_id : string;
    pt_name : string;
    pt_durationMs : option Z;
    pt_artists : list string;
    pt_albumName : option string;
    pt_albumImageUrl : option string
  }.

Record PlaybackPayload : Type := mkPayload {
    isPlaying : bool;
    progressMs : option Z;
    pp_startedAt : option string;
    pp_track : option PlaybackTrackPayload
  }.

(** The three places of [pollSession] that assign content to the zone. *)
Inductive Site : Type := Retry | Forward | Fallback.

(** Observable effects, in program order. *)
Inductive Event : Type :=
  | EvWarn (msg : string)
  | EvError (label : string) (e : Error)
  | EvGetNowPlaying (zone : string)
  | EvGetQueue (sessionId : string)
  | EvMarkPlayed (sessionId trackId : string)
  | EvSetContent (site : Site) (zone content : string)
  | EvPlay (site : Site) (zone : string)
  | EvRecentItem (sessionId trackId : string)
  | EvBroadcastQueue (sessionId : string) (view : QueueView)
  | EvBroadcastPlayback (sessionId : string) (playback : option PlaybackPayload)
      (requester : option Requester).

(** [class PlaybackService] together with the timers it has armed.
    [io] tells whether [setSocketServer] has been called. *)
Record Service : Type := mkService {
    io : bool;
    monitors : gmap string MonitorState;
    timers : gmap nat Timer;
    next_timer : nat;
    trace : list Event
  }.

Definition with_monitors (ms : gmap string MonitorState) (st : Service) : Service :=
  mkService (io st) ms (timers st) (next_timer st) (trace st).
Definition emit (ev : Event) (st : Service) : Service :=
  mkService (io st) (monitors st) (timers st) (next_timer st) (trace st ++ [ev]).

(** [clearTimeout(handle)]: a handle that already fired is ignored. *)
Definition clearTimeout (h : nat) (ts : gmap nat Timer) : gmap nat Timer :=
  delete h ts.

(** [schedulePoll]. *)
Definition schedulePoll (sessionId : string) (delayMs : Z) (st : Service) : Service :=
  match monitors st !! sessionId with
  | None => st
  | Some monitor =>
      let ts := match timeout monitor with
                | Some h => clearTimeout h (timers st)
                | None => timers st
                end in
      let h := next_timer st in
      mkService (io st)
                (<[sessionId := set_timeout (Some h) monitor]> (monitors st))
                (<[h := mkTimer sessionId (Z.max 0 delayMs)]> ts)
                (S h)
                (trace st)
  end.

(** [setSocketServer]. *)
Definition setSocketServer (st : Service) : Service :=
  mkService true (monitors st) (timers st) (next_timer st) (trace st).

Section WithConfig.
Variable config : Config.
Variable Date_parse : string -> option Z.

(** [ensureMonitor]. *)
Definition ensureMonitor (sessionId hostId' : string)
    (soundZoneId' : option string) (st : Service) : Service :=
  match monitors st !! sessionId with
  | Some existing =>
      let existing' :=
        set_soundZoneId (nullish soundZoneId' (soundZoneId existing))
                        (set_hostId hostId' existing) in
      let st' := with_monitors (<[sessionId := existing']> (monitors st)) st in
      if negb (bool_decide (is_Some (timeout existing')))
         && negb (processing existing')
      then schedulePoll sessionId 0 st'
      else st'
  | None =>
      let fresh :=
        mkMonitor hostId'
                  (nullish soundZoneId' (defaultSoundZone config))
                  None false None None None in
      schedulePoll sessionId 0
        (with_monitors (<[sessionId := fresh]> (monitors st)) st)
  end.

(** [requestImmediateSync]. *)
Definition requestImmediateSync (sessionId : string) (delayMs : Z)
    (st : Service) : Service :=
  match monitors st !! sessionId with
  | None => st
  | Some monitor =>
      if processing monitor then st
      else schedulePoll sessionId delayMs st
  end.

(** [updateSoundZone]. *)
Definition updateSoundZone (sessionId : string) (soundZoneId' : option string)
    (st : Service) : Service :=
  match monitors st !! sessionId with
  | None => st
  | Some monitor =>
      requestImmediateSync sessionId 0
        (with_monitors
           (<[sessionId := set_soundZoneId soundZoneId' monitor]> (monitors st)) st)
  end.

(** [stopMonitor]. *)
Definition stopMonitor (sessionId : string) (st : Service) : Service :=
  match monitors st !! sessionId with
  | None => st
  | Some monitor =>
      let ts := match timeout monitor with
                | Some h => clearTimeout h (timers st)
                | None => timers st
                end in
      mkService (io st) (delete sessionId (monitors st)) ts
                (next_timer st) (trace st)
  end.

(** [buildPlaybackPayload], with [now] the value of [Date.now()]. *)
Definition buildPlaybackPayload (now : Z) (nowPlaying : option NowPlaying)
  : option PlaybackPayload :=
  match nowPlaying with
  | None => None
  | Some np =>
      let progressMs := computeProgressMs Date_parse now nowPlaying in
      Some (mkPayload
              (seq (state np) (Some Playing))
              progressMs
              (startedAt np)
              (match track np with
               | None => None
               | Some t =>
                   Some (mkTrackPayload (id t) (name t) (durationMs t)
                           (artists t) (albumName t) (albumImageUrl t))
               end))
  end.

End WithConfig.

End Playback.

(** ** One reconciliation pass: [pollSession] *)

Module Pass.
Import JS Soundtrack Progress Playback.

(** Outcomes of the awaited calls and clock readings of one pass, one field
    per call site of [pollSession], in source order. *)
Record Env : Type := mkEnv {
  e_nowPlaying : Result (option NowPlaying);
  e_queue : Result QueueView;
  e_markPlayed : Result bool;
  e_queueRefreshed : Result QueueView;
  e_nowRetryCheck : Z;
  e_retrySet : Result unit;
  e_retryPlay : Result unit;
  e_nowRetry : Z;
  e_forwardSet : Result unit;
  e_forwardPlay : Result unit;
  e_nowForward : Z;
  e_fallbackSet : Result unit;
  e_fallbackPlay : Result unit;
  e_nowFallback : Z;
  e_recentItem : Result (option RecentItem);
  e_nowPayload : Z;
  e_broadcastQueue : Result unit;
  e_broadcastPlayback : Result unit;
  e_nowDelay : Z
}.

(** State threaded through the [try] block: the monitor object the pass holds
    and the effects performed so far.  A thrown error keeps both. *)
Record PState : Type := mkPState {
  ps_monitor : MonitorState;
  ps_trace : list Event
}.

Definition M (A : Type) : Type := PState -> Result A * PState.

Definition ret {A} (a : A) : M A := fun s => (inl a, s).

Definition bind {A B} (c : M A) (k : A -> M B) : M B :=
  fun s =>
    match c s with
    | (inl a, s') => k a s'
    | (inr e, s') => (inr e, s')
    end.

Notation "'let*' x ':=' c 'in' k" := (bind c (fun x => k))
  (at level 10, x name, c at level 100, k at level 200).
Notation "c ';;' k" := (bind c (fun _ => k))
  (at level 100, k at level 200, right associativity).

(** An awaited collaborator call: record it, then resolve or reject. *)
Definition call {A} (ev : Event) (outcome : Result A) : M A :=
  fun s => (outcome, mkPState (ps_monitor s) (ps_trace s ++ [ev])).

Definition getMonitor : M MonitorState := fun s => (inl (ps_monitor s), s).

Definition modify (f : MonitorState -> MonitorState) : M unit :=
  fun s => (inl tt, mkPState (f (ps_monitor s)) (ps_trace s)).

(** [if (b) { c }]. *)
Definition when (b : bool) (c : M unit) : M unit :=
  if b then c else ret tt.

(** [try { c } catch (error) { console.error(label, error) }]. *)
Definition try_log (label : string) (c : M unit) : M unit :=
  fun s =>
    match c s with
    | (inl _, s') => (inl tt, s')
    | (inr e, s') =>
        (inl tt, mkPState (ps_monitor s') (ps_trace s' ++ [EvError label e]))
    end.

Section WithConfig.
Variable config : Config.
Variable Date_parse : string -> option Z.

(** [resolveRequester]. *)
Definition resolveRequester (sessionId : string) (contentId : option string)
    (env : Env) : M (option Requester) :=
  if negb (truthy contentId) then ret None
  else
    let* queueItem :=
      call (EvRecentItem sessionId (default ""%string contentId)) (e_recentItem env) in
    match queueItem with
    | None => ret None
    | Some item =>
        match addedBy item, addedByGuest item with
        | Some displayName, _ => ret (Some (RequesterHost displayName))
        | None, Some guestName => ret (Some (RequesterGuest guestName))
        | None, None => ret (Some RequesterUnknown)
        end
    end.

(** Lines 420-424: assignment confirmation. *)
Definition confirmAssignment (currentTrackId' : option string) : M unit :=
  let* monitor := getMonitor in
  when (truthy (awaitingTrackId monitor)
        && seq (awaitingTrackId monitor) currentTrackId')
       (modify (fun m =>
          set_requestIssuedAt None
            (set_awaitingTrackId None
               (set_currentTrackId (awaitingTrackId m) m)))).

(** Lines 426-434: transition detection; returns the queue view to use. *)
Definition detectTransition (sessionId : string)
    (currentTrackId' : option string) (queueState : QueueView) (env : Env)
  : M QueueView :=
  let* monitor := getMonitor in
  if truthy (currentTrackId monitor)
     && negb (seq (currentTrackId monitor) currentTrackId')
  then
    let* consumed :=
      call (EvMarkPlayed sessionId (default ""%string (currentTrackId monitor)))
           (e_markPlayed env) in
    let* queueState' :=
      (if consumed : bool
       then call (EvGetQueue sessionId) (e_queueRefreshed env)
       else ret queueState) in
    modify (set_currentTrackId currentTrackId') ;;
    ret queueState'
  else if negb (truthy (currentTrackId monitor))
  then modify (set_currentTrackId currentTrackId') ;; ret queueState
  else ret queueState.

(** Lines 438-450: stuck-assignment retry. *)
Definition retryAssignment (zone : string) (currentTrackId' : option string)
    (env : Env) : M unit :=
  let* monitor := getMonitor in
  let shouldRetryContentRequest :=
    truthy (awaitingTrackId monitor)
    && (negb (truthy currentTrackId')
        || negb (seq currentTrackId' (awaitingTrackId monitor)))
    && match requestIssuedAt monitor with
       | Some issuedAt =>
           CONTENT_REQUEST_TIMEOUT_MS <? e_nowRetryCheck env - issuedAt
       | None => false
       end in
  when shouldRetryContentRequest
    (try_log "Failed to retry Soundtrack content assignment:"
       (call (EvSetContent Retry zone (default ""%string (awaitingTrackId monitor)))
             (e_retrySet env) ;;
        call (EvPlay Retry zone) (e_retryPlay env) ;;
        modify (set_requestIssuedAt (Some (e_nowRetry env))))).

(** Lines 452-477: forward assignment, else fallback content. *)
Definition assignNext (zone : string) (currentTrackId' : option string)
    (nextUp' : option QueueItem) (env : Env) : M unit :=
  let* monitor := getMonitor in
  match nextUp' with
  | Some item =>
      if truthy (Some (spotifyTrackId item)) then
        let needsAssignment :=
          negb (seq currentTrackId' (Some (spotifyTrackId item)))
          && negb (seq (awaitingTrackId monitor) (Some (spotifyTrackId item))) in
        when needsAssignment
          (try_log "Failed to assign Soundtrack content for next track:"
             (call (EvSetContent Forward zone (spotifyTrackId item))
                   (e_forwardSet env) ;;
              call (EvPlay Forward zone) (e_forwardPlay env) ;;
              modify (set_awaitingTrackId (Some (spotifyTrackId item))) ;;
              modify (set_requestIssuedAt (Some (e_nowForward env)))))
      else ret tt
  | None =>
      if negb (truthy currentTrackId') && truthy (defaultContentId config) then
        let shouldFallback :=
          negb (seq (awaitingTrackId monitor) (defaultContentId config)) in
        when shouldFallback
          (try_log "Failed to resume default Soundtrack content:"
             (call (EvSetContent Fallback zone
                      (default ""%string (defaultContentId config)))
                   (e_fallbackSet env) ;;
              call (EvPlay Fallback zone) (e_fallbackPlay env) ;;
              modify (set_awaitingTrackId (defaultContentId config)) ;;
              modify (set_requestIssuedAt (Some (e_nowFallback env)))))
      else ret tt
  end.

(** The body of the [try] block of [pollSession] up to, and without, the
    final [schedulePoll]; its value is [nextDelay]. *)
Definition passBody (sessionId zone : string) (env : Env) : M Z :=
  let* nowPlaying := call (EvGetNowPlaying zone) (e_nowPlaying env) in
  let* queueState := call (EvGetQueue sessionId) (e_queue env) in
  let currentTrackId' := trackIdOf nowPlaying in
  confirmAssignment currentTrackId' ;;
  let* queueState' := detectTransition sessionId currentTrackId' queueState env in
  let nextUp' := nextUp queueState' in
  retryAssignment zone currentTrackId' env ;;
  assignNext zone currentTrackId' nextUp' env ;;
  let* requester := resolveRequester sessionId currentTrackId' env in
  let playbackPayload := buildPlaybackPayload Date_parse (e_nowPayload env) nowPlaying in
  call (EvBroadcastQueue sessionId queueState') (e_broadcastQueue env) ;;
  call (EvBroadcastPlayback sessionId playbackPayload requester)
       (e_broadcastPlayback env) ;;
  ret (derivePollDelay Date_parse (e_nowDelay env) nowPlaying).

(** Write the monitor object and the effects of the pass back to the
    service.  The pass mutates the object registered under [sessionId]. *)
Definition commit (sessionId : string) (s : PState) (st : Service) : Service :=
  mkService (io st) (<[sessionId := ps_monitor s]> (monitors st))
            (timers st) (next_timer st) (trace st ++ ps_trace s).

Definition playbackSyncError (sessionId : string) : string :=
  "Playback sync error for session " +:+ sessionId +:+ ":".

Definition noZoneWarning (sessionId : string) : string :=
  "No Soundtrack zone configured for session " +:+ sessionId
  +:+ ". Playback monitoring paused.".

(** [pollSession]. *)
Definition pollSession (sessionId : string) (env : Env) (st : Service) : Service :=
  match monitors st !! sessionId with
  | None => st
  | Some monitor =>
      if processing monitor then st
      else if negb (io st) then st
      else
        match soundZoneId monitor with
        | Some zone =>
            if truthy (Some zone) then
              let s0 := mkPState (set_processing true monitor) [] in
              let '(r, s1) := passBody sessionId zone env s0 in
              let st1 := commit sessionId s1 st in
              let st2 :=
                match r with
                | inl nextDelay => schedulePoll sessionId nextDelay st1
                | inr error =>
                    schedulePoll sessionId DEFAULT_POLL_INTERVAL_MS
                      (emit (EvError (playbackSyncError sessionId) error) st1)
                end in
              with_monitors (alter (set_processing false) sessionId (monitors st2)) st2
            else
              schedulePoll sessionId DEFAULT_POLL_INTERVAL_MS
                (emit (EvWarn (noZoneWarning sessionId)) st)
        | None =>
            schedulePoll sessionId DEFAULT_POLL_INTERVAL_MS
              (emit (EvWarn (noZoneWarning sessionId)) st)
        end
  end.

(** The callback armed by [schedulePoll] fires: the handle leaves the set of
    pending timers, the monitor forgets it, and the session is polled. *)
Definition timerFires (h : nat) (env : Env) (st : Service) : Service :=
  match timers st !! h with
  | None => st
  | Some t =>
      let st' :=
        mkService (io st)
                  (alter (set_timeout None) (timer_session t) (monitors st))
                  (delete h (timers st)) (next_timer st) (trace st) in
      pollSession (timer_session t) env st'
  end.

End WithConfig.

End Pass.

(** ** The queue controller: credit-gated mutations *)

Module Controller.
Import JS.

(** Records of the session store, as far as the controller reads them. *)
Record Session : Type := mkSession {
  isActive : bool;
  hostId : string;
  soundtrackZoneId : option string;
  allowExplicit : option bool
}.

Record Guest : Type := mkGuest {
  guestRecordId : string;
  guestSessionId : string;
  guestClerkUserId : option string
}.

(** What the handlers read of the request: [req.session.userId],
    [req.session.guestSessions?.[sessionId]?.guestId] and [req.auth?.userId]. *)
Record Request : Type := mkRequest {
  sessionUserId : option string;
  guestSessionEntry : option string;
  authUserId : option string
}.

Inductive Actor : Type :=
| ActorUser (userId : string)
| ActorGuest (guestId : string).

Inductive Role : Type := RoleHost | RoleGuest.

(** The successful result of [resolveSessionActor]. *)
Record Context : Type := mkContext {
  ctx_session : Session;
  ctx_actor : Actor;
  ctx_role : Role;
  ctx_soundZoneId : option string
}.

(** Modelled from the spec: [CreditState] of the credit service, which is not
    among the modelled files; "a balance snapshot" that the controller relays
    without inspecting it. *)
Record CreditState : Type := mkCreditState { balance : Z }.

(** Body of [POST .../queue]: [req.body.content]. *)
Record Content : Type := mkContent {
  c_id : option string;
  c_name : option string;
  c_artists : option (list string);
  c_album : option string;
  c_imageUrl : option string;
  c_durationMs : option Z;
  c_explicit : option bool
}.

(** A stored queue item as returned by [addToQueue]. *)
Record QueueItem : Type := mkQueueItem {
  itemId : string;
  itemTrackId : string
}.

Record QueueView : Type := mkQueueView {
  queue : list QueueItem;
  nextUp : option QueueItem
}.

(** Result of [getQueueItemWithSession], as far as it is read. *)
Record QueueItemWithSession : Type := mkQueueItemWithSession {
  qi_sessionId : string;
  qi_addedByGuestId : option string;
  qi_addedByGuestClerkUserId : option string;
  qi_session : Session
}.

(** Result of [queueService.vote]; only [action] is inspected. *)
Record VoteResult : Type := mkVoteResult {
  action : string;
  voteCount : Z
}.

Inductive Body : Type :=
| BError (error : string)
| BAdded (queueItem : QueueItem) (role : Role) (view : QueueView)
         (credits : option CreditState)
| BRemoved (view : QueueView) (credits : option CreditState)
| BVoted (result : VoteResult) (view : QueueView)
         (credits : option CreditState).

Record Response : Type := mkResponse {
  status : Z;
  body : Body
}.

(** [res.json(payload)]. *)
Definition ok (b : Body) : Response := mkResponse 200 b.

(** Calls to collaborators, in program order.  Ledger calls carry whether the
    ledger accepted them. *)
Inductive Event : Type :=
| EvGetSession (sessionId : string)
| EvGetGuest (guestId : string)
| EvDropGuestSession (sessionId : string)
| EvEnsureMonitor (sessionId hostId : string) (zone : option string)
| EvSpend (clerkUserId : string) (amount : Z) (accepted : bool)
| EvCredit (clerkUserId : string) (amount : Z) (accepted : bool)
| EvAddToQueue (sessionId trackId name artists : string) (album imageUrl : option string)
               (durationMs : Z) (actor : Actor)
| EvGetQueueItem (queueItemId : string)
| EvRemoveFromQueue (queueItemId : string) (actor : Actor)
| EvVote (queueItemId : string) (actor : Actor) (voteType : Z)
| EvBeforeChange (intentAction : string)
| EvEmitQueueState (sessionId : string)
| EvRequestImmediateSync (sessionId : string)
| EvLog (label : string) (e : Error).

(** The request-scoped mutable variables of a handler: the effects so far,
    the spend receipt ([req._spentCreditsForQueue], [spentVoteCredits]) and
    [actorCredits].  They survive a thrown error. *)
Record HState : Type := mkHState {
  h_trace : list Event;
  h_spent : option (Z * string);
  h_actorCredits : option CreditState
}.

Definition h_init : HState := mkHState [] None None.

(** A step of a handler either yields a value, throws, or [return]s the
    response. *)
Inductive Outcome (A : Type) : Type :=
| Val (a : A)
| Throw (e : Error)
| Return (r : Response).
Arguments Val {A} a.
Arguments Throw {A} e.
Arguments Return {A} r.

Definition H (A : Type) : Type := HState -> Outcome A * HState.

Definition ret {A} (a : A) : H A := fun s => (Val a, s).
Definition throw {A} (e : Error) : H A := fun s => (Throw e, s).
Definition respond {A} (r : Response) : H A := fun s => (Return r, s).

Definition bind {A B} (c : H A) (k : A -> H B) : H B :=
  fun s =>
    match c s with
    | (Val a, s') => k a s'
    | (Throw e, s') => (Throw e, s')
    | (Return r, s') => (Return r, s')
    end.

Notation "'let*' x ':=' c 'in' k" := (bind c (fun x => k))
  (at level 10, x name, c at level 100, k at level 200).
Notation "c ';;' k" := (bind c (fun _ => k))
  (at level 100, k at level 200, right associativity).

Definition emit (ev : Event) : H unit :=
  fun s => (Val tt, mkHState (h_trace s ++ [ev]) (h_spent s) (h_actorCredits s)).

Definition setSpent (r : option (Z * string)) : H unit :=
  fun s => (Val tt, mkHState (h_trace s) r (h_actorCredits s)).

Definition getSpent : H (option (Z * string)) :=
  fun s => (Val (h_spent s), s).

Definition setActorCredits (c : option CreditState) : H unit :=
  fun s => (Val tt, mkHState (h_trace s) (h_spent s) c).

Definition getActorCredits : H (option CreditState) :=
  fun s => (Val (h_actorCredits s), s).

(** Settle an awaited call whose occurrence has been recorded. *)
Definition settle {A} (outcome : Result A) : H A :=
  match outcome with
  | inl a => ret a
  | inr e => throw e
  end.

Definition call {A} (ev : Event) (outcome : Result A) : H A :=
  emit ev ;; settle outcome.

Definition accepted {A} (outcome : Result A) : bool :=
  match outcome with inl _ => true | inr _ => false end.

(** [creditService.spendCredits] and [creditService.addCredits]. *)
Definition spendCredits (clerkUserId : string) (amount : Z)
    (outcome : Result CreditState) : H CreditState :=
  call (EvSpend clerkUserId amount (accepted outcome)) outcome.

Definition addCredits (clerkUserId : string) (amount : Z)
    (outcome : Result CreditState) : H CreditState :=
  call (EvCredit clerkUserId amount (accepted outcome)) outcome.

Definition when (b : bool) (c : H unit) : H unit :=
  if b then c else ret tt.

(** [try { c } catch (e) { handler e }]: a [return] inside [c] leaves the
    handler function, a [throw] enters the [catch] clause. *)
Definition try_catch {A} (c : H A) (handler : Error -> H A) : H A :=
  fun s =>
    match c s with
    | (Throw e, s') => handler e s'
    | other => other
    end.

(** Run a handler whose body is [try { ... } catch (error) { ... }].  The
    [catch] clauses of [add], [remove] and [vote] always respond, so the last
    case, an error escaping the handler, does not arise for them. *)
Definition runHandler (c : H Response) (s : HState) : Response * HState :=
  match c s with
  | (Val r, s') => (r, s')
  | (Return r, s') => (r, s')
  | (Throw e, s') => (mkResponse 500 (BError (message e)), s')
  end.

End Controller.

Module Handlers.
Import JS Controller.

(** Outcomes of the session-store calls of [resolveSessionActor]. *)
Record ActorEnv : Type := mkActorEnv {
  e_getSession : Result (option Session);
  e_getGuestById : Result (option Guest)
}.

Definition sessionNotFound : string := "Session not found or inactive".
Definition joinFirst : string := "Join the session before interacting with the queue".

Section WithCosts.

(** [GUEST_TRACK_COST] and [VOTE_REACTION_COST] are constants exported by the
    credit service; [defaultSoundZone] is [config.soundtrack.defaultSoundZone]. *)
Variable GUEST_TRACK_COST : Z.
Variable VOTE_REACTION_COST : Z.
Variable defaultSoundZone : option string.

(** [resolveSessionActor]: [inl msg] is [{ error: msg }]. *)
Definition resolveSessionActor (req : Request) (sessionId : string)
    (env : ActorEnv) : H (string + Context) :=
  let* session := call (EvGetSession sessionId) (e_getSession env) in
  match session with
  | None => ret (inl sessionNotFound)
  | Some session =>
      if negb (isActive session) then ret (inl sessionNotFound)
      else
        let isHost := seq (sessionUserId req) (Some (hostId session)) in
        let guestData := guestSessionEntry req in
        let soundZoneId :=
          if truthy (soundtrackZoneId session)
          then soundtrackZoneId session else defaultSoundZone in
        if isHost then
          ret (inr (mkContext session (ActorUser (hostId session)) RoleHost
                              soundZoneId))
        else
          match guestData with
          | None => ret (inl joinFirst)
          | Some guestDataId =>
              let* guest := call (EvGetGuest guestDataId) (e_getGuestById env) in
              match guest with
              | None =>
                  emit (EvDropGuestSession sessionId) ;; ret (inl joinFirst)
              | Some guest =>
                  if negb (bool_decide (guestSessionId guest = sessionId)) then
                    emit (EvDropGuestSession sessionId) ;; ret (inl joinFirst)
                  else if negb (truthy (Some (guestRecordId guest))) then
                    ret (inl joinFirst)
                  else
                    ret (inr (mkContext session
                                (ActorGuest (guestRecordId guest)) RoleGuest
                                soundZoneId))
              end
          end
  end.

(** [this.emitQueueState]: fetch the view and broadcast it. *)
Definition emitQueueState (sessionId : string) (outcome : Result QueueView)
  : H QueueView :=
  call (EvEmitQueueState sessionId) outcome.

(** *** [QueueController.add] *)

Record AddEnv : Type := mkAddEnv {
  a_actor : ActorEnv;
  a_spend : Result CreditState;
  a_addToQueue : Result QueueItem;
  a_emit : Result QueueView;
  a_refund : Result CreditState
}.

Definition alreadyQueued : string := "Track already in queue".

(** Lines 121-138 of [add]: guests pay the track cost, hosts do not. *)
Definition chargeGuest (req : Request) (role : Role) (env : AddEnv)
  : H (option CreditState) :=
  match role with
  | RoleGuest =>
      match authUserId req with
      | Some clerkUserId =>
          if truthy (Some clerkUserId) then
            try_catch
              (let* credits :=
                 spendCredits clerkUserId GUEST_TRACK_COST (a_spend env) in
               setSpent (Some (GUEST_TRACK_COST, clerkUserId)) ;;
               ret (Some credits))
              (fun error =>
                 match error with
                 | CreditError st msg => respond (mkResponse st (BError msg))
                 | _ => throw error
                 end)
          else respond (mkResponse 401 (BError "Not authenticated"))
      | None => respond (mkResponse 401 (BError "Not authenticated"))
      end
  | RoleHost => ret None
  end.

(** Lines 110-171 of [add]: what follows a resolved session context. *)
Definition addResolved (req : Request) (sessionId : string) (content : Content)
    (context : Context) (env : AddEnv) : H Response :=
  let trackId := default ""%string (c_id content) in
  let name := default ""%string (c_name content) in
  let session := ctx_session context in
  let actor := ctx_actor context in
  let role := ctx_role context in
  let allowExplicit' := default true (allowExplicit session) in
  emit (EvEnsureMonitor sessionId (hostId session) (ctx_soundZoneId context)) ;;
  if negb allowExplicit' && default false (c_explicit content) then
    respond (mkResponse 400
               (BError "Explicit tracks are disabled for this session"))
  else
    let* guestCreditState := chargeGuest req role env in
    let* queueItem :=
      call (EvAddToQueue sessionId trackId name
              (String.concat ", " (default [] (c_artists content)))
              (c_album content) (c_imageUrl content)
              (default 0 (c_durationMs content)) actor)
           (a_addToQueue env) in
    let* state := emitQueueState sessionId (a_emit env) in
    emit (EvRequestImmediateSync sessionId) ;;
    setSpent None ;;
    ret (ok (BAdded queueItem role state guestCreditState)).

(** The [try] block of [add]. *)
Definition addBody (req : Request) (sessionId : string)
    (content : option Content) (env : AddEnv) : H Response :=
  match content with
  | None => respond (mkResponse 400 (BError "Track content is required"))
  | Some content =>
      if negb (truthy (c_id content)) || negb (truthy (c_name content)) then
        respond (mkResponse 400 (BError "Track id and name are required"))
      else
        setSpent None ;;
        let* context := resolveSessionActor req sessionId (a_actor env) in
        match context with
        | inl error =>
            respond (mkResponse
                       (if bool_decide (error = sessionNotFound) then 404 else 401)
                       (BError error))
        | inr context => addResolved req sessionId content context env
        end
  end.

(** The [catch] clause of [add]. *)
Definition addCatch (env : AddEnv) (error : Error) : H Response :=
  emit (EvLog "Add to queue error:" error) ;;
  match error with
  | CreditError st msg => respond (mkResponse st (BError msg))
  | OtherError msg =>
      let* spentInfo := getSpent in
      match spentInfo with
      | Some (amount, clerkUserId) =>
          try_catch
            (addCredits clerkUserId amount (a_refund env) ;; ret tt)
            (fun refundError =>
               emit (EvLog "Failed to refund credits after queue error:"
                           refundError)) ;;
          setSpent None
      | None => ret tt
      end ;;
      ret (mkResponse (if bool_decide (msg = alreadyQueued) then 400 else 500)
                      (BError (or_str msg "Failed to add to queue")))
  end.

Definition add (req : Request) (sessionId : string) (content : option Content)
    (env : AddEnv) : Response * HState :=
  runHandler (try_catch (addBody req sessionId content env) (addCatch env)) h_init.

(** *** [QueueController.remove] *)

Record RemoveEnv : Type := mkRemoveEnv {
  r_item : Result (option QueueItemWithSession);
  r_actor : ActorEnv;
  r_remove : Result unit;
  r_guestLookup : Result (option Guest);
  r_refund : Result CreditState;
  r_emit : Result QueueView
}.

Definition notAuthorizedToRemove : string := "Not authorized to remove this track".

(** Lines 233-242 of [remove]: the ledger identity of the guest who added
    the item, from the item itself or else from the guest record. *)
Definition refundTarget (queueItem : QueueItemWithSession) (env : RemoveEnv)
  : H (option string) :=
  if negb (truthy (qi_addedByGuestClerkUserId queueItem))
     && truthy (qi_addedByGuestId queueItem)
  then
    try_catch
      (let* guestRecord :=
         call (EvGetGuest (default ""%string (qi_addedByGuestId queueItem)))
              (r_guestLookup env) in
       ret (match guestRecord with
            | Some g => guestClerkUserId g
            | None => None
            end))
      (fun lookupError =>
         emit (EvLog "Failed to resolve guest Clerk ID for refund:" lookupError) ;;
         ret (qi_addedByGuestClerkUserId queueItem))
  else ret (qi_addedByGuestClerkUserId queueItem).

(** Lines 230-271 of [remove]: what follows a successful removal. *)
Definition afterRemoval (req : Request) (queueItem : QueueItemWithSession)
    (env : RemoveEnv) : H Response :=
  let removingClerkUserId := authUserId req in
  let* guestClerkUserId := refundTarget queueItem env in
  when (truthy guestClerkUserId)
    (try_catch
       (let* credits :=
          addCredits (default ""%string guestClerkUserId) GUEST_TRACK_COST
                     (r_refund env) in
        when (truthy removingClerkUserId
              && seq removingClerkUserId guestClerkUserId)
             (setActorCredits (Some credits)))
       (fun refundError =>
          emit (EvLog "Failed to refund credits after queue removal:"
                      refundError))) ;;
  when (isActive (qi_session queueItem))
    (emit (EvEnsureMonitor (qi_sessionId queueItem)
             (hostId (qi_session queueItem))
             (if truthy (soundtrackZoneId (qi_session queueItem))
              then soundtrackZoneId (qi_session queueItem)
              else defaultSoundZone))) ;;
  let* state := emitQueueState (qi_sessionId queueItem) (r_emit env) in
  emit (EvRequestImmediateSync (qi_sessionId queueItem)) ;;
  let* actorCredits := getActorCredits in
  ret (ok (BRemoved state actorCredits)).

Definition removeBody (req : Request) (queueItemId : string) (env : RemoveEnv)
  : H Response :=
  let* queueItem := call (EvGetQueueItem queueItemId) (r_item env) in
  match queueItem with
  | None => respond (mkResponse 404 (BError "Queue item not found"))
  | Some queueItem =>
      let* context :=
        resolveSessionActor req (qi_sessionId queueItem) (r_actor env) in
      match context with
      | inl error =>
          respond (mkResponse
                     (if bool_decide (error = sessionNotFound) then 404 else 403)
                     (BError error))
      | inr context =>
          call (EvRemoveFromQueue queueItemId (ctx_actor context)) (r_remove env) ;;
          afterRemoval req queueItem env
      end
  end.

Definition removeCatch (error : Error) : H Response :=
  emit (EvLog "Remove from queue error:" error) ;;
  ret (mkResponse
         (if bool_decide (message error = notAuthorizedToRemove) then 403 else 500)
         (BError (or_str (message error) "Failed to remove from queue"))).

Definition remove (req : Request) (queueItemId : string) (env : RemoveEnv)
  : Response * HState :=
  runHandler (try_catch (removeBody req queueItemId env) removeCatch) h_init.

(** *** [QueueController.vote] *)

(** Modelled from the spec: [queueService.vote], which is not among the
    modelled files.  The store either fails before it has decided anything,
    or determines the action type, invokes [beforeChange] with that intent
    "at the point it has determined the action type but before committing",
    and, unless the callback throws (which "must abort the vote commit
    entirely"), commits and reports the completed action, or fails. *)
Inductive StoreVote : Type :=
| StoreFails (e : Error)
| StoreDecides (intentAction : string) (commit : Result VoteResult).

Definition queueService_vote (queueItemId : string) (actor : Actor)
    (voteType : Z) (store : StoreVote) (beforeChange : string -> H unit)
  : H VoteResult :=
  emit (EvVote queueItemId actor voteType) ;;
  match store with
  | StoreFails e => throw e
  | StoreDecides intentAction commit =>
      emit (EvBeforeChange intentAction) ;;
      beforeChange intentAction ;;
      settle commit
  end.

Record VoteEnv : Type := mkVoteEnv {
  v_item : Result (option QueueItemWithSession);
  v_actor : ActorEnv;
  v_guestLookup : Result (option Guest);
  v_store : StoreVote;
  v_spend : Result CreditState;
  v_creditRemoved : Result CreditState;
  v_emit : Result QueueView;
  v_refund : Result CreditState
}.

(** The [beforeChange] callback passed to the store. *)
Definition beforeChange (req : Request) (clerkUserId : option string)
    (env : VoteEnv) (intentAction : string) : H unit :=
  if negb (truthy clerkUserId) || negb (bool_decide (intentAction = "add"%string))
  then ret tt
  else
    let user := default ""%string clerkUserId in
    let* credits := spendCredits user VOTE_REACTION_COST (v_spend env) in
    setSpent (Some (VOTE_REACTION_COST, user)) ;;
    when (seq clerkUserId (authUserId req)) (setActorCredits (Some credits)).

(** Lines 305-313 of [vote]: the ledger identity of the voter. *)
Definition resolveClerkUserId (req : Request) (context : Context)
    (env : VoteEnv) : H (option string) :=
  match ctx_role context, ctx_actor context with
  | RoleHost, _ => ret (authUserId req)
  | RoleGuest, ActorGuest guestId =>
      if truthy (Some guestId) then
        let* guest := call (EvGetGuest guestId) (v_guestLookup env) in
        ret (match guest with
             | Some g => guestClerkUserId g
             | None => None
             end)
      else ret None
  | RoleGuest, ActorUser _ => ret None
  end.

(** Lines 315-352 of [vote]: the store call and what follows it. *)
Definition castVote (req : Request) (queueItemId : string) (voteType : Z)
    (queueItem : QueueItemWithSession) (actor : Actor)
    (clerkUserId : option string) (env : VoteEnv) : H Response :=
  let* result :=
    queueService_vote queueItemId actor voteType (v_store env)
                      (beforeChange req clerkUserId env) in
  when (bool_decide (action result = "removed"%string) && truthy clerkUserId)
    (let* credits :=
       addCredits (default ""%string clerkUserId) VOTE_REACTION_COST
                  (v_creditRemoved env) in
     when (seq clerkUserId (authUserId req))
          (setActorCredits (Some credits))) ;;
  setSpent None ;;
  let* state := emitQueueState (qi_sessionId queueItem) (v_emit env) in
  emit (EvRequestImmediateSync (qi_sessionId queueItem)) ;;
  let* actorCredits := getActorCredits in
  ret (ok (BVoted result state actorCredits)).

Definition voteBody (req : Request) (queueItemId : string) (voteType : Z)
    (env : VoteEnv) : H Response :=
  if negb (bool_decide (voteType = 1)) && negb (bool_decide (voteType = -1)) then
    respond (mkResponse 400 (BError "Vote type must be 1 or -1"))
  else
    let* queueItem := call (EvGetQueueItem queueItemId) (v_item env) in
    match queueItem with
    | None => respond (mkResponse 404 (BError "Queue item not found"))
    | Some queueItem =>
        let* context :=
          resolveSessionActor req (qi_sessionId queueItem) (v_actor env) in
        match context with
        | inl error =>
            respond (mkResponse
                       (if bool_decide (error = sessionNotFound) then 404 else 401)
                       (BError error))
        | inr context =>
            let* clerkUserId := resolveClerkUserId req context env in
            castVote req queueItemId voteType queueItem (ctx_actor context)
                     clerkUserId env
        end
    end.

Definition voteCatch (env : VoteEnv) (error : Error) : H Response :=
  emit (EvLog "Vote error:" error) ;;
  let* spentVoteCredits := getSpent in
  match spentVoteCredits with
  | Some (amount, refundUserId) =>
      try_catch
        (addCredits refundUserId amount (v_refund env) ;; ret tt)
        (fun refundError =>
           emit (EvLog "Failed to refund vote credits after error:" refundError)) ;;
      setSpent None
  | None => ret tt
  end ;;
  match error with
  | CreditError st msg => respond (mkResponse st (BError msg))
  | OtherError _ => ret (mkResponse 500 (BError "Failed to vote"))
  end.

Definition vote (req : Request) (queueItemId : string) (voteType : Z)
    (env : VoteEnv) : Response * HState :=
  runHandler (try_catch (voteBody req queueItemId voteType env) (voteCatch env))
             h_init.

End WithCosts.

(** Net change of [user]'s balance caused by the ledger calls of a trace that
    the ledger accepted. *)
Fixpoint ledgerDelta (user : string) (tr : list Event) : Z :=
  match tr with
  | [] => 0
  | EvSpend u amount true :: rest =>
      (if bool_decide (u = user) then - amount else 0) + ledgerDelta user rest
  | EvCredit u amount true :: rest =>
      (if bool_decide (u = user) then amount else 0) + ledgerDelta user rest
  | _ :: rest => ledgerDelta user rest
  end.

(** Ledger calls attempted in a trace. *)
Definition isSpend (ev : Event) : bool :=
  match ev with EvSpend _ _ _ => true | _ => false end.

Definition isCredit (ev : Event) : bool :=
  match ev with EvCredit _ _ _ => true | _ => false end.

Definition isCreditOf (user : string) (amount : Z) (ev : Event) : bool :=
  match ev with
  | EvCredit u a _ => bool_decide (u = user) && bool_decide (a = amount)
  | _ => false
  end.

Definition isSpendOf (user : string) (amount : Z) (ev : Event) : bool :=
  match ev with
  | EvSpend u a _ => bool_decide (u = user) && bool_decide (a = amount)
  | _ => false
  end.

Definition isQueueWrite (ev : Event) : bool :=
  match ev with EvAddToQueue _ _ _ _ _ _ _ _ => true | _ => false end.

Definition isRemoval (ev : Event) : bool :=
  match ev with EvRemoveFromQueue _ _ => true | _ => false end.

Definition isLog (ev : Event) : bool :=
  match ev with EvLog _ _ => true | _ => false end.

Definition count (p : Event -> bool) (tr : list Event) : nat :=
  length (filter (fun ev => p ev = true) tr).

End Handlers.

(** ** Statements about progress and delay *)

Module ProgressSpec.
Import JS Soundtrack Progress.

Section WithParameters.
Variable Date_parse : string -> option Z.

(** The delay is adaptive exactly under this condition. *)
Definition adaptive (now : Z) (np : option NowPlaying) (p d : Z) : Prop :=
  (exists n, np = Some n /\ state n = Some Playing)
  /\ computeProgressMs Date_parse now np = Some p
  /\ durationOf np = Some d
  /\ 0 < d.

End WithParameters.

End ProgressSpec.

(** ** Statements about monitors and timers *)

Module PlaybackSpec.
Import JS Soundtrack Progress Playback.

(** Every pending timer belongs to a registered monitor that remembers its
    handle, and every handle a monitor remembers has been allocated. *)
Definition timers_consistent (st : Service) : Prop :=
  (forall h t, timers st !! h = Some t ->
     exists m, monitors st !! timer_session t = Some m /\ timeout m = Some h)
  /\ (forall sessionId m h,
        monitors st !! sessionId = Some m -> timeout m = Some h ->
        (h < next_timer st)%nat).

(** At most one timer is pending for each session. *)
Definition single_timer (st : Service) : Prop :=
  forall h1 h2 t1 t2,
    timers st !! h1 = Some t1 -> timers st !! h2 = Some t2 ->
    timer_session t1 = timer_session t2 -> h1 = h2.

(** [ensure] read as overwriting the zone with whatever it is given. *)
Definition ensure_overwrites_zone (config : Config) (sessionId hostId' : string)
    (zone : option string) (st : Service) : Prop :=
  forall m, monitors st !! sessionId = Some m ->
    exists m', monitors (ensureMonitor config sessionId hostId' zone st) !! sessionId
               = Some m'
               /\ Playback.hostId m' = hostId'
               /\ soundZoneId m' = zone.

(** A monitor exists for the session and no pass is in progress. *)
Definition can_rearm (sessionId : string) (st : Service) : Prop :=
  exists m, monitors st !! sessionId = Some m /\ processing m = false.

Definition empty_service : Service := mkService true ∅ ∅ 0 [].

Definition no_defaults : Config := mkConfig None None.

(** The service after a first [ensureMonitor] for session s1: one monitor,
    one pending zero-delay timer. *)
Definition monitored_service : Service :=
  ensureMonitor no_defaults "s1" "host" (Some "zone-A"%string) empty_service.

Definition zoned_service : Service :=
  mkService true
    {[ "s1"%string := mkMonitor "host" (Some "zone-A"%string) None false
                                None None None ]}
    ∅ 0 [].

End PlaybackSpec.

(** ** Statements about the reconciliation pass *)

Module PassSpec.
Import JS Soundtrack Progress Playback Pass PlaybackSpec.

(** The content assignments recorded in a trace all come from allowed
    places of [pollSession]. *)
Definition sites_within (allowed : Site -> bool) (tr : list Event) : Prop :=
  forall site zone content,
    In (EvSetContent site zone content) tr -> allowed site = true.

Definition no_site (_ : Site) : bool := false.

Definition only_retry (s : Site) : bool :=
  match s with Retry => true | _ => false end.

Definition not_fallback (s : Site) : bool :=
  match s with Fallback => false | _ => true end.

Definition not_forward (s : Site) : bool :=
  match s with Forward => false | _ => true end.

Definition only_forward (s : Site) : bool :=
  match s with Forward => true | _ => false end.

Definition only_fallback (s : Site) : bool :=
  match s with Fallback => true | _ => false end.

Definition isSetContent (ev : Event) : bool :=
  match ev with EvSetContent _ _ _ => true | _ => false end.

(** The monitor after a confirmed assignment. *)
Definition confirmed (m : MonitorState) : MonitorState :=
  set_requestIssuedAt None
    (set_awaitingTrackId None (set_currentTrackId (awaitingTrackId m) m)).

Definition confirms (cur : option string) (m : MonitorState) : bool :=
  truthy (awaitingTrackId m) && seq (awaitingTrackId m) cur.

(** The monitor the pass holds once it has looked at the observed track. *)
Definition afterConfirm (cur : option string) (m : MonitorState) : MonitorState :=
  if confirms cur m then confirmed m else m.

(** The fields of a monitor that a pass body never writes. *)
Definition static (m m' : MonitorState) : Prop :=
  Playback.hostId m' = Playback.hostId m
  /\ soundZoneId m' = soundZoneId m
  /\ timeout m' = timeout m
  /\ processing m' = processing m.

(** A step of the pass that leaves those fields alone, whatever its result. *)
Definition preserves {A} (c : M A) : Prop :=
  forall s r s', c s = (r, s') -> static (ps_monitor s) (ps_monitor s').

(** The session is being monitored: its monitor is registered with a zone,
    no pass is in progress and a timer is pending for it. *)
Definition monitored (sessionId zone : string) (st : Service) : Prop :=
  io st = true
  /\ zone <> ""%string
  /\ exists m h d,
       monitors st !! sessionId = Some m
       /\ processing m = false
       /\ soundZoneId m = Some zone
       /\ timeout m = Some h
       /\ timers st !! h = Some (mkTimer sessionId d).

Section WithParameters.
Variable config : Config.
Variable Date_parse : string -> option Z.

(** What [assignNext] may do to the monitor: nothing, or install a new
    pending assignment issued from exactly one of the two places. *)
Definition assigned (zone : string) (cur : option string) (site : Site)
    (m m' : MonitorState) (added : list Event) : Prop :=
  exists t,
    awaitingTrackId m' = Some t
    /\ t <> ""%string
    /\ awaitingTrackId m <> Some t
    /\ is_Some (requestIssuedAt m')
    /\ In (EvSetContent site zone t) added
    /\ In (EvPlay site zone) added
    /\ match site with
       | Forward => cur <> Some t
       | Fallback => truthy cur = false /\ defaultContentId config = Some t
       | Retry => False
       end.

(** How a pass that started on monitor [m0] can have left monitor [m1]. *)
Definition pass_outcome (zone : string) (env : Env) (m0 m1 : MonitorState)
    (tr : list Event) : Prop :=
  ((exists e, e_nowPlaying env = inr e \/ e_queue env = inr e) /\ m1 = m0)
  \/ exists np q,
       e_nowPlaying env = inl np /\ e_queue env = inl q
       /\ (confirms (trackIdOf np) m0 = true ->
           currentTrackId m1 = awaitingTrackId m0)
       /\ ((awaitingTrackId m1 = awaitingTrackId (afterConfirm (trackIdOf np) m0)
            /\ (truthy (awaitingTrackId (afterConfirm (trackIdOf np) m0)) = false ->
                requestIssuedAt m1
                = requestIssuedAt (afterConfirm (trackIdOf np) m0)))
           \/ exists site mr added,
                (site = Forward \/ site = Fallback)
                /\ awaitingTrackId mr
                   = awaitingTrackId (afterConfirm (trackIdOf np) m0)
                /\ assigned zone (trackIdOf np) site mr m1 added
                /\ (forall ev, In ev added -> In ev tr)).

(** The states of the service, each operation and each pass taken as one
    step. *)
Inductive reachable : Service -> Prop :=
| reach_init : reachable (mkService false ∅ ∅ 0 [])
| reach_socket st : reachable st -> reachable (setSocketServer st)
| reach_ensure st sessionId hostId' zone :
    reachable st -> reachable (ensureMonitor config sessionId hostId' zone st)
| reach_request st sessionId delayMs :
    reachable st -> reachable (requestImmediateSync sessionId delayMs st)
| reach_update st sessionId zone :
    reachable st -> reachable (updateSoundZone sessionId zone st)
| reach_stop st sessionId :
    reachable st -> reachable (stopMonitor sessionId st)
| reach_fire st h env :
    reachable st -> reachable (timerFires config Date_parse h env st).

End WithParameters.

Definition empty_view : QueueView := mkQueueView [] None.

(** A pass in which every collaborator answers, the provider reporting
    [np] and the queue [view]. *)
Definition answering (np : Result (option NowPlaying)) (view : QueueView) : Env :=
  mkEnv np (inl view) (inl false) (inl view) 0 (inl tt) (inl tt) 0
        (inl tt) (inl tt) 0 (inl tt) (inl tt) 0 (inl None) 0 (inl tt) (inl tt) 0.

Definition provider_down : Error := OtherError "Soundtrack API request failed".

Definition awaiting_song : MonitorState :=
  mkMonitor "host" (Some "zone-A"%string) None true None (Some "t1"%string)
            (Some 100).

End PassSpec.

(** ** Statements about the credit-gated mutations *)

Module HandlersSpec.
Import JS Controller Handlers.

(** A handler step that ends with a response, not with an escaping error. *)
Definition answers (out : Outcome Response * HState) : Prop :=
  exists r, fst out = Val r \/ fst out = Return r.

(** Events of [resolveSessionActor]. *)
Definition isSessionEvent (ev : Event) : bool :=
  match ev with
  | EvGetSession _ | EvGetGuest _ | EvDropGuestSession _ => true
  | _ => false
  end.

(** Events of the look-ups that precede a mutation. *)
Definition isLookupEvent (ev : Event) : bool :=
  match ev with
  | EvGetSession _ | EvGetGuest _ | EvDropGuestSession _ | EvGetQueueItem _ => true
  | _ => false
  end.

(** The first failure of the processing that follows the spend. *)
Definition processingFailure (env : AddEnv) : option Error :=
  match a_addToQueue env with
  | inr e => Some e
  | inl _ =>
      match a_emit env with
      | inr e => Some e
      | inl _ => None
      end
  end.

(** The response of [add] to an error [e] that reaches its [catch] clause. *)
Definition addRejection (e : Error) : Response :=
  match e with
  | CreditError st msg => mkResponse st (BError msg)
  | OtherError msg =>
      mkResponse (if bool_decide (msg = alreadyQueued) then 400 else 500)
                 (BError (or_str msg "Failed to add to queue"))
  end.

(** The vote whose store call decides [intent] and commits [result]. *)
Definition decides (env : VoteEnv) (intent : string) (result : VoteResult) : Prop :=
  v_store env = StoreDecides intent (inl result).

Definition with_refund (env : RemoveEnv) (r : Result CreditState) : RemoveEnv :=
  mkRemoveEnv (r_item env) (r_actor env) (r_remove env) (r_guestLookup env)
              r (r_emit env).

(** A response body without its optional credit snapshot. *)
Definition withoutCredits (b : Body) : Body :=
  match b with
  | BError e => BError e
  | BAdded item role view _ => BAdded item role view None
  | BRemoved view _ => BRemoved view None
  | BVoted result view _ => BVoted result view None
  end.

(** Events of the guest look-up that precedes the refund. *)
Definition isRefundLookup (ev : Event) : bool :=
  match ev with
  | EvGetGuest _ | EvLog _ _ => true
  | _ => false
  end.

(** What [remove] answers once the removal has succeeded: it depends on the
    broadcast of the queue only. *)
Definition removalAnswer (emitted : Result QueueView) : Z * Body :=
  match emitted with
  | inl view => (200, BRemoved view None)
  | inr e =>
      (if bool_decide (message e = notAuthorizedToRemove) then 403 else 500,
       BError (or_str (message e) "Failed to remove from queue"))
  end.

Section WithParameters.
Variable defaultSoundZone : option string.

(** The request passes validation and [resolveSessionActor] resolves a
    guest whose ledger identity is [clerkUserId]. *)
Definition guest_ready (req : Request) (sessionId : string) (content : Content)
    (env : AddEnv) (context : Context) (s0 : HState) (clerkUserId : string)
  : Prop :=
  truthy (c_id content) = true
  /\ truthy (c_name content) = true
  /\ resolveSessionActor defaultSoundZone req sessionId (a_actor env) h_init
     = (Val (inr context), s0)
  /\ ctx_role context = RoleGuest
  /\ negb (default true (allowExplicit (ctx_session context)))
     && default false (c_explicit content) = false
  /\ authUserId req = Some clerkUserId
  /\ clerkUserId <> ""%string.

(** The host adds a track: the request passes validation and
    [resolveSessionActor] resolves the host. *)
Definition host_ready (req : Request) (sessionId : string) (content : Content)
    (env : AddEnv) (context : Context) (s0 : HState) : Prop :=
  truthy (c_id content) = true
  /\ truthy (c_name content) = true
  /\ resolveSessionActor defaultSoundZone req sessionId (a_actor env) h_init
     = (Val (inr context), s0)
  /\ ctx_role context = RoleHost.

(** The vote passes validation and the voter's ledger identity resolves to
    [clerkUserId]; [s1] is the handler state at the store call. *)
Definition vote_ready (req : Request) (queueItemId : string) (voteType : Z)
    (env : VoteEnv) (queueItem : QueueItemWithSession) (context : Context)
    (s1 : HState) (clerkUserId : string) : Prop :=
  (voteType = 1 \/ voteType = -1)
  /\ v_item env = inl (Some queueItem)
  /\ (exists s0,
        resolveSessionActor defaultSoundZone req (qi_sessionId queueItem)
          (v_actor env) (mkHState [EvGetQueueItem queueItemId] None None)
        = (Val (inr context), s0)
        /\ resolveClerkUserId req context env s0 = (Val (Some clerkUserId), s1))
  /\ clerkUserId <> ""%string.

(** The removal succeeds on a queue item whose adding guest has the ledger
    identity [guestUser]; [s1] is the handler state before the refund. *)
Definition remove_ready (req : Request) (queueItemId : string) (env : RemoveEnv)
    (queueItem : QueueItemWithSession) (context : Context) (s1 : HState)
    (guestUser : string) : Prop :=
  r_item env = inl (Some queueItem)
  /\ r_remove env = inl tt
  /\ (exists s0,
        resolveSessionActor defaultSoundZone req (qi_sessionId queueItem)
          (r_actor env) (mkHState [EvGetQueueItem queueItemId] None None)
        = (Val (inr context), s0)
        /\ refundTarget queueItem env
             (mkHState (h_trace s0 ++ [EvRemoveFromQueue queueItemId
                                         (ctx_actor context)])
                       (h_spent s0) (h_actorCredits s0))
           = (Val (Some guestUser), s1))
  /\ guestUser <> ""%string.

End WithParameters.

Definition sample_session : Session :=
  mkSession true "host-1" (Some "zone-A"%string) None.

Definition sample_guest : Guest :=
  mkGuest "g1" "s1" (Some "user-7"%string).

(** A guest of session s1 signed in as user-7, and the host signed in as
    user-1. *)
Definition guest_request : Request :=
  mkRequest None (Some "g1"%string) (Some "user-7"%string).

Definition host_request : Request :=
  mkRequest (Some "host-1"%string) None (Some "user-1"%string).

Definition sample_content : Content :=
  mkContent (Some "t1"%string) (Some "Song"%string)
            (Some ["Ann"%string; "Bob"%string]) None None (Some 180000) None.

Definition stores_answer : ActorEnv :=
  mkActorEnv (inl (Some sample_session)) (inl (Some sample_guest)).

Definition sample_item : QueueItem := mkQueueItem "q1" "t1".

Definition sample_view : QueueView :=
  mkQueueView [sample_item] (Some sample_item).

Definition guest_item : QueueItemWithSession :=
  mkQueueItemWithSession "s1" (Some "g1"%string) (Some "user-7"%string)
                         sample_session.

Definition insufficient : Error := CreditError 402 "Insufficient credits".

(** An [add] in which the ledger accepts the spend and the queue write ends
    as [written]. *)
Definition adding (written : Result QueueItem) : AddEnv :=
  mkAddEnv stores_answer (inl (mkCreditState 4)) written (inl sample_view)
           (inl (mkCreditState 5)).

(** A [vote] on which the store decides [store]; every other call succeeds. *)
Definition voting (store : StoreVote) : VoteEnv :=
  mkVoteEnv (inl (Some guest_item)) stores_answer (inl (Some sample_guest))
            store (inl (mkCreditState 4)) (inl (mkCreditState 5))
            (inl sample_view) (inl (mkCreditState 5)).

(** A [remove] whose refund ends as [refund]; every other call succeeds. *)
Definition removing (refund : Result CreditState) : RemoveEnv :=
  mkRemoveEnv (inl (Some guest_item)) stores_answer (inl tt)
              (inl (Some sample_guest)) refund (inl sample_view).

Definition guest_context : Context :=
  mkContext sample_session (ActorGuest "g1") RoleGuest (Some "zone-A"%string).

Definition host_context : Context :=
  mkContext sample_session (ActorUser "host-1") RoleHost (Some "zone-A"%string).

Definition added_vote : VoteResult := mkVoteResult "added" 1.

Definition removed_vote : VoteResult := mkVoteResult "removed" 0.

End HandlersSpec.

(** ** Statements about the life cycle of a monitor *)

Module LifecycleSpec.
Import JS Soundtrack Progress Playback PlaybackSpec.

(** A timer is pending for the session. *)
Definition pending_for (sessionId : string) (st : Service) : Prop :=
  exists h t, timers st !! h = Some t /\ timer_session t = sessionId.

(** Every handle a monitor remembers is a pending timer of its session. *)
Definition handles_live (st : Service) : Prop :=
  forall sessionId m h,
    monitors st !! sessionId = Some m -> timeout m = Some h ->
    exists d, timers st !! h = Some (mkTimer sessionId d).

(** Monitors and timers agree with each other. *)
Definition well_formed (st : Service) : Prop :=
  timers_consistent st /\ handles_live st.

(** No pending timer was armed with a negative delay. *)
Definition delays_nonneg (st : Service) : Prop :=
  forall h t, timers st !! h = Some t -> 0 <= timer_delay t.

(** A session registered before the socket server is set, and one
    registered without any sound zone. *)
Definition unplugged : Service :=
  ensureMonitor no_defaults "s1" "host" (Some "zone-A"%string)
    (mkService false ∅ ∅ 0 []).

Definition unzoned : Service :=
  ensureMonitor no_defaults "s1" "host" None empty_service.

End LifecycleSpec.

(** ** Statements about the stages of a pass *)

Module ReconcileSpec.
Import JS Soundtrack Progress Playback Pass PlaybackSpec PassSpec.

(** A pending assignment and its timestamp come and go together, and a
    pending track id is never empty. *)
Definition paired (m : MonitorState) : Prop :=
  (awaitingTrackId m = None /\ requestIssuedAt m = None)
  \/ (truthy (awaitingTrackId m) = true /\ is_Some (requestIssuedAt m)).

Definition all_paired (st : Service) : Prop :=
  forall sessionId m, monitors st !! sessionId = Some m -> paired m.

Definition retryLabel : string :=
  "Failed to retry Soundtrack content assignment:".
Definition forwardLabel : string :=
  "Failed to assign Soundtrack content for next track:".
Definition fallbackLabel : string :=
  "Failed to resume default Soundtrack content:".

(** One guarded assignment attempt ([setSoundZoneContent], then [play],
    inside [try]/[catch]): what it adds to the trace and which monitor it
    leaves, [m_ok] when both calls succeed and the untouched [m] otherwise. *)
Definition attempted (label : string) (site : Site) (zone content : string)
    (set play : Result unit) (m m_ok m' : MonitorState) (added : list Event)
  : Prop :=
  match set, play with
  | inl _, inl _ =>
      added = [EvSetContent site zone content; EvPlay site zone] /\ m' = m_ok
  | inl _, inr e =>
      added = [EvSetContent site zone content; EvPlay site zone; EvError label e]
      /\ m' = m
  | inr e, _ =>
      added = [EvSetContent site zone content; EvError label e] /\ m' = m
  end.

(** Lines 426-434 as a relation between the monitor before and after. *)
Definition detected (sessionId : string) (cur : option string) (q : QueueView)
    (env : Env) (m : MonitorState) (r : Result QueueView) (m' : MonitorState)
    (added : list Event) : Prop :=
  (truthy (currentTrackId m) = false
   /\ r = inl q /\ m' = set_currentTrackId cur m /\ added = [])
  \/ (truthy (currentTrackId m) = true /\ currentTrackId m = cur
      /\ r = inl q /\ m' = m /\ added = [])
  \/ exists t,
       currentTrackId m = Some t /\ t <> ""%string /\ cur <> Some t
       /\ match e_markPlayed env with
          | inr e => r = inr e /\ m' = m /\ added = [EvMarkPlayed sessionId t]
          | inl false =>
              r = inl q /\ m' = set_currentTrackId cur m
              /\ added = [EvMarkPlayed sessionId t]
          | inl true =>
              match e_queueRefreshed env with
              | inr e =>
                  r = inr e /\ m' = m
                  /\ added = [EvMarkPlayed sessionId t; EvGetQueue sessionId]
              | inl q' =>
                  r = inl q' /\ m' = set_currentTrackId cur m
                  /\ added = [EvMarkPlayed sessionId t; EvGetQueue sessionId]
              end
          end.

(** Lines 438-450. *)
Definition retried (zone : string) (cur : option string) (env : Env)
    (m m' : MonitorState) (added : list Event) : Prop :=
  (added = [] /\ m' = m)
  \/ exists t issued,
       awaitingTrackId m = Some t /\ t <> ""%string /\ cur <> Some t
       /\ requestIssuedAt m = Some issued
       /\ CONTENT_REQUEST_TIMEOUT_MS < e_nowRetryCheck env - issued
       /\ attempted retryLabel Retry zone t (e_retrySet env) (e_retryPlay env)
            m (set_requestIssuedAt (Some (e_nowRetry env)) m) m' added.

(** Lines 452-477. *)
Definition advanced (config : Config) (zone : string) (cur : option string)
    (next : option QueueItem) (env : Env) (m m' : MonitorState)
    (added : list Event) : Prop :=
  (added = [] /\ m' = m)
  \/ (exists item,
        next = Some item /\ spotifyTrackId item <> ""%string
        /\ cur <> Some (spotifyTrackId item)
        /\ awaitingTrackId m <> Some (spotifyTrackId item)
        /\ attempted forwardLabel Forward zone (spotifyTrackId item)
             (e_forwardSet env) (e_forwardPlay env) m
             (set_requestIssuedAt (Some (e_nowForward env))
                (set_awaitingTrackId (Some (spotifyTrackId item)) m))
             m' added)
  \/ (exists t,
        next = None /\ truthy cur = false
        /\ defaultContentId config = Some t /\ t <> ""%string
        /\ awaitingTrackId m <> Some t
        /\ attempted fallbackLabel Fallback zone t
             (e_fallbackSet env) (e_fallbackPlay env) m
             (set_requestIssuedAt (Some (e_nowFallback env))
                (set_awaitingTrackId (Some t) m))
             m' added).

(** The requester reported for a queue item. *)
Definition requesterOf (item : RecentItem) : Requester :=
  match addedBy item, addedByGuest item with
  | Some displayName, _ => RequesterHost displayName
  | None, Some guestName => RequesterGuest guestName
  | None, None => RequesterUnknown
  end.

(** Lines 267-296. *)
Definition requested (sessionId : string) (cur : option string) (env : Env)
    (r : Result (option Requester)) (added : list Event) : Prop :=
  (truthy cur = false /\ r = inl None /\ added = [])
  \/ exists t,
       cur = Some t /\ t <> ""%string
       /\ added = [EvRecentItem sessionId t]
       /\ r = match e_recentItem env with
              | inr e => inr e
              | inl None => inl None
              | inl (Some item) => inl (Some (requesterOf item))
              end.

(** Lines 479-492: requester lookup, the two broadcasts and the delay. *)
Definition published (Date_parse : string -> option Z) (sessionId : string)
    (np : option NowPlaying) (q' : QueueView) (env : Env) (r : Result Z)
    (added : list Event) : Prop :=
  exists rq pre,
    requested sessionId (trackIdOf np) env rq pre
    /\ match rq with
       | inr e => r = inr e /\ added = pre
       | inl requester =>
           let payload := buildPlaybackPayload Date_parse (e_nowPayload env) np in
           match e_broadcastQueue env with
           | inr e => r = inr e /\ added = pre ++ [EvBroadcastQueue sessionId q']
           | inl _ =>
               added = pre ++ [EvBroadcastQueue sessionId q';
                               EvBroadcastPlayback sessionId payload requester]
               /\ r = match e_broadcastPlayback env with
                      | inr e => inr e
                      | inl _ =>
                          inl (derivePollDelay Date_parse (e_nowDelay env) np)
                      end
           end
       end.

(** One pass that got the provider's report [np] and the queue [q], stage by
    stage: the monitor it leaves and the events it adds. *)
Definition reconciled (config : Config) (Date_parse : string -> option Z)
    (sessionId zone : string) (env : Env) (np : option NowPlaying)
    (q : QueueView) (m0 : MonitorState) (r : Result Z) (m1 : MonitorState)
    (added : list Event) : Prop :=
  let cur := trackIdOf np in
  exists rd md dt,
    detected sessionId cur q env (afterConfirm cur m0) rd md dt
    /\ match rd with
       | inr e =>
           r = inr e /\ m1 = md
           /\ added = [EvGetNowPlaying zone; EvGetQueue sessionId] ++ dt
       | inl q' =>
           exists me rt at' tl,
             retried zone cur env md me rt
             /\ advanced config zone cur (nextUp q') env me m1 at'
             /\ published Date_parse sessionId np q' env r tl
             /\ added = [EvGetNowPlaying zone; EvGetQueue sessionId]
                        ++ dt ++ rt ++ at' ++ tl
       end.

Definition isMarkPlayed (ev : Event) : bool :=
  match ev with EvMarkPlayed _ _ => true | _ => false end.

Definition isBroadcast (ev : Event) : bool :=
  match ev with
  | EvBroadcastQueue _ _ | EvBroadcastPlayback _ _ _ => true
  | _ => false
  end.

(** Events of an assignment attempt, and events of the publishing stage. *)
Definition isAttemptEvent (ev : Event) : bool :=
  match ev with
  | EvSetContent _ _ _ | EvPlay _ _ | EvError _ _ => true
  | _ => false
  end.

Definition isPublishEvent (ev : Event) : bool :=
  match ev with
  | EvRecentItem _ _ | EvBroadcastQueue _ _ | EvBroadcastPlayback _ _ _ => true
  | _ => false
  end.

(** The believed track differs from the observed one. *)
Definition changed (believed cur : option string) : bool :=
  truthy believed && negb (seq believed cur).

(** The provider calls of each place of assignment and the label its
    [catch] logs with. *)
Definition setOutcome (env : Env) (site : Site) : Result unit :=
  match site with
  | Retry => e_retrySet env
  | Forward => e_forwardSet env
  | Fallback => e_fallbackSet env
  end.

Definition playOutcome (env : Env) (site : Site) : Result unit :=
  match site with
  | Retry => e_retryPlay env
  | Forward => e_forwardPlay env
  | Fallback => e_fallbackPlay env
  end.

Definition labelOf (site : Site) : string :=
  match site with
  | Retry => retryLabel
  | Forward => forwardLabel
  | Fallback => fallbackLabel
  end.

(** The attempt's first call failed with [e], or its second one did. *)
Definition attemptFailed (env : Env) (site : Site) (e : Error) : Prop :=
  setOutcome env site = inr e
  \/ (setOutcome env site = inl tt /\ playOutcome env site = inr e).

(** The queue view a pass works with after transition detection. *)
Definition viewUsed (env : Env) (q q' : QueueView) : Prop :=
  q' = q \/ (e_markPlayed env = inl true /\ e_queueRefreshed env = inl q').

(** Concrete scenarios: a queue whose next-up track is t9, a pass in which
    every collaborator answers and reports that queue, one in which the
    provider rejects the assignment, a monitor that believes t1 is playing,
    and the service after its first [ensureMonitor]. *)
Definition next_item : QueueItem := mkQueueItem "q9" "t9".

Definition queued_pass : Env :=
  mkEnv (inl None) (inl (mkQueueView [next_item] (Some next_item)))
        (inl false) (inl empty_view) 0 (inl tt) (inl tt) 0
        (inl tt) (inl tt) 40 (inl tt) (inl tt) 0 (inl None) 0
        (inl tt) (inl tt) 0.

Definition failing_assignment : Env :=
  mkEnv (inl None) (inl (mkQueueView [next_item] (Some next_item)))
        (inl false) (inl empty_view) 0 (inl tt) (inl tt) 0
        (inr provider_down) (inl tt) 40 (inl tt) (inl tt) 0 (inl None) 0
        (inl tt) (inl tt) 0.

Definition believing_song : MonitorState :=
  mkMonitor "host" (Some "zone-A"%string) None true (Some "t1"%string)
            None None.

Definition first_session : Service :=
  ensureMonitor no_defaults "s1" "host" (Some "zone-A"%string)
    (setSocketServer (mkService false ∅ ∅ 0 [])).

End ReconcileSpec.

(** ** Statements about the handlers' use of their collaborators *)

Module DisciplineSpec.
Import JS Controller Handlers HandlersSpec.

Definition isVote (ev : Event) : bool :=
  match ev with EvVote _ _ _ => true | _ => false end.

Definition isMonitorCall (ev : Event) : bool :=
  match ev with
  | EvEnsureMonitor _ _ _ | EvRequestImmediateSync _ => true
  | _ => false
  end.

Definition isAcceptedCredit (ev : Event) : bool :=
  match ev with EvCredit _ _ true => true | _ => false end.

(** The zone a session is monitored with: its own if set, else the
    configured default. *)
Definition zoneOf (defaultSoundZone : option string) (session : Session)
  : option string :=
  if truthy (soundtrackZoneId session)
  then soundtrackZoneId session else defaultSoundZone.

(** The session the store returns is active. *)
Definition activeSession (env : ActorEnv) (session : Session) : Prop :=
  e_getSession env = inl (Some session) /\ isActive session = true.

End DisciplineSpec.

(** ** [QueueController.get] and the calls into the playback service *)

Module Wiring.
Import JS Controller Handlers.

(** *** [QueueController.get] *)

Record GetEnv : Type := mkGetEnv {
  g_session : Result (option Session);
  g_queue : Result QueueView
}.

(** [res.json(state)] or [res.status(500).json({ error })]. *)
Inductive GetBody : Type :=
| GQueue (view : QueueView)
| GError (error : string).

Record GetResponse : Type := mkGetResponse {
  g_status : Z;
  g_body : GetBody
}.

(** Calls of [get], in program order. *)
Inductive GetEvent : Type :=
| GvGetSession (sessionId : string)
| GvEnsureMonitor (sessionId hostId : string) (zone : option string)
| GvGetQueue (sessionId : string)
| GvLog (label : string) (e : Error).

Section WithConfig.
Variable defaultSoundZone : option string.

(** [get]: the response and the calls made. *)
Definition get (sessionId : string) (env : GetEnv)
  : GetResponse * list GetEvent :=
  let failed (tr : list GetEvent) (error : Error) :=
    (mkGetResponse 500 (GError "Failed to get queue"),
     tr ++ [GvLog "Get queue error:" error]) in
  match g_session env with
  | inr error => failed [GvGetSession sessionId] error
  | inl session =>
      let ensured :=
        match session with
        | Some session =>
            if isActive session then
              let zoneId :=
                if truthy (soundtrackZoneId session)
                then soundtrackZoneId session else defaultSoundZone in
              [GvEnsureMonitor sessionId (hostId session) zoneId]
            else []
        | None => []
        end in
      let tr := [GvGetSession sessionId] ++ ensured ++ [GvGetQueue sessionId] in
      match g_queue env with
      | inr error => failed tr error
      | inl state => (mkGetResponse 200 (GQueue state), tr)
      end
  end.

End WithConfig.

(** *** The controller's calls into the playback service *)

Section WithPlayback.
Variable config : Playback.Config.

(** [playbackService.ensureMonitor(...)] and
    [playbackService.requestImmediateSync(sessionId)], whose delay defaults
    to 0; every other call of a handler leaves the playback service alone. *)
Definition playbackCall (ev : Event) (st : Playback.Service) : Playback.Service :=
  match ev with
  | EvEnsureMonitor sessionId hostId zone =>
      Playback.ensureMonitor config sessionId hostId zone st
  | EvRequestImmediateSync sessionId =>
      Playback.requestImmediateSync sessionId 0 st
  | _ => st
  end.

Definition playbackCalls (tr : list Event) (st : Playback.Service)
  : Playback.Service :=
  fold_left (fun st ev => playbackCall ev st) tr st.

Definition getPlaybackCall (ev : GetEvent) (st : Playback.Service)
  : Playback.Service :=
  match ev with
  | GvEnsureMonitor sessionId hostId zone =>
      Playback.ensureMonitor config sessionId hostId zone st
  | _ => st
  end.

Definition getPlaybackCalls (tr : list GetEvent) (st : Playback.Service)
  : Playback.Service :=
  fold_left (fun st ev => getPlaybackCall ev st) tr st.

End WithPlayback.

End Wiring.

Module WiringSpec.
Import JS Controller Handlers Wiring.

(** The session is polled at once: its monitor is registered for [host],
    idle, and remembers the only timer pending for the session, which has
    delay 0. *)
Definition polled_now (sessionId host : string) (st : Playback.Service) : Prop :=
  exists m h,
    Playback.monitors st !! sessionId = Some m
    /\ Playback.hostId m = host
    /\ Playback.processing m = false
    /\ Playback.timeout m = Some h
    /\ Playback.timers st !! h = Some (Playback.mkTimer sessionId 0)
    /\ forall h' t,
         Playback.timers st !! h' = Some t ->
         Playback.timer_session t = sessionId -> h' = h.

(** No pass is in progress for the session. *)
Definition idle (sessionId : string) (st : Playback.Service) : Prop :=
  forall m, Playback.monitors st !! sessionId = Some m ->
            Playback.processing m = false.

(** Other sessions keep their monitors and their timers. *)
Definition others_kept (sessionId : string) (st st' : Playback.Service) : Prop :=
  (forall other, other <> sessionId ->
     Playback.monitors st' !! other = Playback.monitors st !! other)
  /\ (forall h t, Playback.timer_session t <> sessionId ->
        Playback.timers st' !! h = Some t <-> Playback.timers st !! h = Some t).

Definition isGetEnsure (ev : GetEvent) : bool :=
  match ev with GvEnsureMonitor _ _ _ => true | _ => false end.

End WiringSpec.

(** ** Statements about the playback payload *)

Module PayloadSpec.
Import JS Soundtrack Progress Playback.

(** The same report with another playback state. *)
Definition with_state (s : option string) (np : NowPlaying) : NowPlaying :=
  mkNowPlaying (startedAt np) s (track np).

Definition paused_report : NowPlaying :=
  mkNowPlaying (Some "1970-01-01T00:00:00.000Z"%string) (Some "PAUSED"%string)
               (Some (sample_track (Some 180000))).

End PayloadSpec.

(** ** Configuration: front-end origins and URLs *)

Module Settings.
Import Stdlib.Strings.Ascii JS.

(** [process.env] after [dotenv.config]: a missing key is [undefined]. *)
Definition Env : Type := gmap string string.

(** The part of [config] that depends on the values modelled here. *)
Record AppConfig : Type := mkAppConfig {
  soundtrack_apiEndpoint : string;
  soundtrack_apiToken : option string;
  soundtrack_defaultSoundZone : option string;
  server_nodeEnv : string;
  server_frontendUrl : string;
  server_frontendOrigins : list string;
  session_secret : string;
  database_url : string;
  clerk_publishableKey : option string;
  clerk_secretKey : option string;
  frontend_apiBaseUrl : string;
  frontend_socketUrl : string;
  frontend_clerkPublishableKey : option string
}.

(** [s.replace(/\/$/, '')]: drop one trailing slash. *)
Fixpoint dropTrailingSlash (s : string) : string :=
  match s with
  | EmptyString => EmptyString
  | String c EmptyString =>
      if Ascii.eqb c "/"%char then EmptyString else String c EmptyString
  | String c rest => String c (dropTrailingSlash rest)
  end.

(** [normalizeUrl]: [url.replace(/\/+$/, '')], drop every trailing slash. *)
Fixpoint normalizeUrl (url : string) : string :=
  match url with
  | EmptyString => EmptyString
  | String c rest =>
      let rest' := normalizeUrl rest in
      if Ascii.eqb c "/"%char && String.eqb rest' EmptyString
      then EmptyString
      else String c rest'
  end.

(** [s.startsWith(p)], [s.endsWith(p)] and [s.slice(0, -n)]. *)
Definition startsWith (p s : string) : bool := String.prefix p s.

Definition endsWith (p s : string) : bool :=
  (String.length p <=? String.length s)%nat
  && String.eqb
       (String.substring (String.length s - String.length p)
                         (String.length p) s) p.

Definition sliceEnd (n : nat) (s : string) : string :=
  String.substring 0 (String.length s - n) s.

(** [s.split(',')]. *)
Fixpoint splitComma (s : string) : list string :=
  match s with
  | EmptyString => [EmptyString]
  | String c rest =>
      if Ascii.eqb c ","%char then EmptyString :: splitComma rest
      else match splitComma rest with
           | [] => [String c EmptyString]
           | part :: parts => String c part :: parts
           end
  end.

(** [Array.from(new Set(xs))]: the first occurrence of each element, in
    order. *)
Fixpoint dedupe (seen xs : list string) : list string :=
  match xs with
  | [] => []
  | x :: rest =>
      if bool_decide (x ∈ seen) then dedupe seen rest
      else x :: dedupe (x :: seen) rest
  end.

(** [a || b] on [string | undefined]. *)
Definition or_else (a b : option string) : option string :=
  if truthy a then a else b.

Definition requiredEnvVars : list string :=
  ["SPOTIFY_CLIENT_ID"; "SPOTIFY_CLIENT_SECRET"; "SPOTIFY_REDIRECT_URI";
   "SOUNDTRACK_API_TOKEN"; "SESSION_SECRET"; "CLERK_PUBLISHABLE_KEY";
   "CLERK_SECRET_KEY"]%string.

Definition noOrigins : Error :=
  OtherError
    "At least one FRONTEND_URL/FRONTEND_ORIGINS value must be provided".

Definition noClerkKey : Error :=
  OtherError
    "Missing frontend Clerk publishable key. Set FRONTEND_CLERK_PUBLISHABLE_KEY or CLERK_PUBLISHABLE_KEY.".

Definition missingVar (envVar : string) : Error :=
  OtherError (String.append "Missing required environment variable: " envVar).

Definition apiBaseUrlCandidate (env : Env) : option string :=
  if truthy (env !! "FRONTEND_API_BASE_URL"%string)
  then normalizeUrl <$> env !! "FRONTEND_API_BASE_URL"%string
  else None.

Definition socketUrlCandidate (env : Env) : option string :=
  if truthy (env !! "FRONTEND_SOCKET_URL"%string)
  then normalizeUrl <$> env !! "FRONTEND_SOCKET_URL"%string
  else None.

Definition apiBaseUrl (env : Env) : string :=
  default "/api"%string (apiBaseUrlCandidate env).

(** [deriveSocketUrl]. *)
Definition deriveSocketUrl (env : Env) : string :=
  if truthy (socketUrlCandidate env)
  then default EmptyString (socketUrlCandidate env)
  else if startsWith "http" (apiBaseUrl env)
          && endsWith "/api" (apiBaseUrl env)
  then sliceEnd 4 (apiBaseUrl env)
  else if startsWith "/" (apiBaseUrl env) then "/"%string
  else apiBaseUrl env.

Definition frontendClerkPublishableKey (env : Env) : option string :=
  or_else (env !! "FRONTEND_CLERK_PUBLISHABLE_KEY"%string)
          (env !! "CLERK_PUBLISHABLE_KEY"%string).

Section WithStrings.

(** [String.prototype.trim] and [String.prototype.toLowerCase]. *)
Variable trim : string -> string.
Variable toLowerCase : string -> string.

(** [normalizeOrigin]. *)
Definition normalizeOrigin (origin : string) : string :=
  toLowerCase (dropTrailingSlash origin).

Definition rawFrontendUrl (env : Env) : option string :=
  trim <$> env !! "FRONTEND_URL"%string.

Definition rawFrontendOrigins (env : Env) : option string :=
  env !! "FRONTEND_ORIGINS"%string.

Definition originCandidates (env : Env) : list (option string) :=
  [rawFrontendUrl env]
  ++ (if truthy (rawFrontendOrigins env)
      then Some <$> splitComma (default EmptyString (rawFrontendOrigins env))
      else [])
  ++ [if negb (truthy (rawFrontendUrl env))
         && negb (truthy (rawFrontendOrigins env))
      then Some "http://localhost:5173"%string else None].

Definition frontendOrigins (env : Env) : list string :=
  List.filter (fun origin => (0 <? String.length origin)%nat)
    ((fun origin => default EmptyString (trim <$> origin))
       <$> originCandidates env).

Definition uniqueFrontendOrigins (env : Env) : list string :=
  dedupe [] (normalizeOrigin <$> frontendOrigins env).

(** [primaryFrontendUrl]; [undefined] when the list is empty. *)
Definition primaryFrontendUrl (env : Env) : option string :=
  if truthy (rawFrontendUrl env)
     && (0 <? String.length (default EmptyString (rawFrontendUrl env)))%nat
  then normalizeOrigin <$> rawFrontendUrl env
  else head (uniqueFrontendOrigins env).

(** [value?.trim() || fallback]. *)
Definition trimmedOr (value : option string) (fallback : string) : string :=
  default fallback (or_else (trim <$> value) (Some fallback)).

(** Loading the module: the [config] object, or the error thrown on the
    way. *)
Definition load (env : Env) : Result AppConfig :=
  match uniqueFrontendOrigins env with
  | [] => inr noOrigins
  | _ :: _ =>
      if negb (truthy (frontendClerkPublishableKey env)) then inr noClerkKey
      else
        match List.find (fun envVar => negb (truthy (env !! envVar)))
                        requiredEnvVars with
        | Some envVar => inr (missingVar envVar)
        | None =>
            inl {|
              soundtrack_apiEndpoint :=
                trimmedOr (env !! "SOUNDTRACK_API_ENDPOINT"%string)
                          "https://api.soundtrackyourbrand.com/v2";
              soundtrack_apiToken := env !! "SOUNDTRACK_API_TOKEN"%string;
              soundtrack_defaultSoundZone :=
                or_else (trim <$> env !! "SOUNDTRACK_DEFAULT_SOUND_ZONE"%string)
                        None;
              server_nodeEnv :=
                default "development"%string
                  (or_else (env !! "NODE_ENV"%string) (Some "development"%string));
              server_frontendUrl :=
                default EmptyString (primaryFrontendUrl env);
              server_frontendOrigins := uniqueFrontendOrigins env;
              session_secret :=
                default "your-secret-key-change-this"%string
                  (or_else (env !! "SESSION_SECRET"%string)
                           (Some "your-secret-key-change-this"%string));
              database_url :=
                default "file:./dev.db"%string
                  (or_else (env !! "DATABASE_URL"%string)
                           (Some "file:./dev.db"%string));
              clerk_publishableKey := env !! "CLERK_PUBLISHABLE_KEY"%string;
              clerk_secretKey := env !! "CLERK_SECRET_KEY"%string;
              frontend_apiBaseUrl := apiBaseUrl env;
              frontend_socketUrl := deriveSocketUrl env;
              frontend_clerkPublishableKey := frontendClerkPublishableKey env
            |}
        end
  end.

End WithStrings.

End Settings.

Module SettingsSpec.
Import Stdlib.Strings.Ascii JS Settings.

(** [k] slashes. *)
Fixpoint slashes (k : nat) : string :=
  match k with
  | O => EmptyString
  | S k => String "/"%char (slashes k)
  end.

(** Every required variable is set and non-empty. *)
Definition complete (env : Env) : Prop :=
  Forall (fun envVar => truthy (env !! envVar) = true) requiredEnvVars.

(** [s] ends with the character [c]. *)
Definition ends_with_char (c : ascii) (s : string) : Prop :=
  exists p, s = String.append p (String c EmptyString).

(** A trimming function that knows the space character only, and a
    lower-casing function that knows the letters A to Z only. *)
Fixpoint stripStart (s : string) : string :=
  match s with
  | EmptyString => EmptyString
  | String c rest =>
      if Ascii.eqb c " "%char then stripStart rest else String c rest
  end.

Fixpoint stripEnd (s : string) : string :=
  match s with
  | EmptyString => EmptyString
  | String c rest =>
      let rest' := stripEnd rest in
      if Ascii.eqb c " "%char && String.eqb rest' EmptyString
      then EmptyString
      else String c rest'
  end.

Definition trimSpaces (s : string) : string := stripEnd (stripStart s).

Fixpoint lowerLetters (s : string) : string :=
  match s with
  | EmptyString => EmptyString
  | String c rest =>
      let n := nat_of_ascii c in
      String (if (65 <=? n)%nat && (n <=? 90)%nat
              then ascii_of_nat (n + 32) else c)
             (lowerLetters rest)
  end.

Definition hosted_env : Env :=
  {[ "FRONTEND_URL"%string := " https://DJ.example.com/ "%string;
     "FRONTEND_ORIGINS"%string :=
       "https://dj.example.com, https://admin.example.com/"%string;
     "FRONTEND_API_BASE_URL"%string := "https://api.example.com/api/"%string;
     "FRONTEND_CLERK_PUBLISHABLE_KEY"%string := "pk_front"%string;
     "SPOTIFY_CLIENT_ID"%string := "id"%string;
     "SPOTIFY_CLIENT_SECRET"%string := "secret"%string;
     "SPOTIFY_REDIRECT_URI"%string := "http://localhost/cb"%string;
     "SOUNDTRACK_API_TOKEN"%string := "token"%string;
     "SESSION_SECRET"%string := "s3cret"%string;
     "CLERK_PUBLISHABLE_KEY"%string := "pk"%string;
     "CLERK_SECRET_KEY"%string := "sk"%string ]}.

End SettingsSpec.

(** ** The Soundtrack GraphQL client *)

Module Client.
Import JS Soundtrack.

(** [GraphQLResponse<T>]; [errors] holds the messages. *)
Record GraphQLResponse (T : Type) : Type := mkGraphQL {
  data : option T;
  errors : option (list string)
}.
Arguments mkGraphQL {T} _ _.
Arguments data {T} _.
Arguments errors {T} _.

(** A fetch [Response] as [execute] reads it; [text] and [json] are the
    outcomes of [response.text()] and [response.json()]. *)
Record HttpResponse (T : Type) : Type := mkHttp {
  ok : bool;
  status : Z;
  statusText : string;
  text : Result string;
  json : Result (GraphQLResponse T)
}.
Arguments mkHttp {T} _ _ _ _ _.
Arguments ok {T} _.
Arguments status {T} _.
Arguments statusText {T} _.
Arguments text {T} _.
Arguments json {T} _.

(** What the runtime offers for one request: no global [fetch] at all, or
    the outcome of the call. *)
Inductive Exchange (T : Type) : Type :=
  | NoFetch
  | Fetched (outcome : Result (HttpResponse T)).
Arguments NoFetch {T}.
Arguments Fetched {T} _.

(** [parts.join(sep)]. *)
Fixpoint join (sep : string) (parts : list string) : string :=
  match parts with
  | [] => EmptyString
  | [part] => part
  | part :: rest => String.append part (String.append sep (join sep rest))
  end.

Definition noFetch : Error :=
  OtherError
    "Global fetch implementation is not available. Please ensure a Fetch API polyfill is provided.".

Definition missingData : Error :=
  OtherError "Soundtrack API response missing data".

(** [data] of the now-playing query. *)
Record NowPlayingData : Type := mkNowPlayingData {
  nowPlaying : option NowPlaying
}.

Section WithNumbers.

(** How a template literal renders a number. *)
Variable show : Z -> string.

Definition requestFailed {T} (response : HttpResponse T) (errorText : string)
    : Error :=
  OtherError
    (String.append "Soundtrack API request failed: "
       (String.append (show (status response))
          (String.append " "
             (String.append (statusText response)
                (String.append " - " errorText))))).

(** [execute]. *)
Definition execute {T} (exchange : Exchange T) : Result T :=
  match exchange with
  | NoFetch => inr noFetch
  | Fetched (inr e) => inr e
  | Fetched (inl response) =>
      if negb (ok response) then
        match text response with
        | inr e => inr e
        | inl errorText => inr (requestFailed response errorText)
        end
      else
        match json response with
        | inr e => inr e
        | inl json =>
            match errors json with
            | Some (message :: messages) =>
                inr (OtherError (join "; " (message :: messages)))
            | _ =>
                match data json with
                | None => inr missingData
                | Some data => inl data
                end
            end
        end
  end.

(** [getNowPlaying]: [data.nowPlaying ?? null]. *)
Definition getNowPlaying (exchange : Exchange NowPlayingData)
    : Result (option NowPlaying) :=
  match execute exchange with
  | inl data => inl (nullish (nowPlaying data) None)
  | inr e => inr e
  end.

(** [setSoundZoneContent], [play], [pause] and [skipToNext] await [execute]
    and drop its result. *)
Definition command {T} (exchange : Exchange T) : Result unit :=
  match execute exchange with
  | inl _ => inl tt
  | inr e => inr e
  end.

Definition setSoundZoneContent {T} := @command T.
Definition play {T} := @command T.
Definition pause {T} := @command T.
Definition skipToNext {T} := @command T.

End WithNumbers.

End Client.

Module ClientSpec.
Import JS Soundtrack Progress Playback Pass Client.

(** A response that [execute] accepts: HTTP success, a body that parses,
    no GraphQL error and a data object. *)
Definition clean {T} (exchange : Exchange T) (d : T) : Prop :=
  exists response body,
    exchange = Fetched (inl response)
    /\ ok response = true
    /\ json response = inl body
    /\ default [] (errors body) = []
    /\ data body = Some d.

(** The pass whose provider calls are answered through [execute]. *)
Definition through (show : Z -> string)
    (report : Exchange NowPlayingData) (env : Pass.Env) : Pass.Env :=
  mkEnv (getNowPlaying show report) (e_queue env) (e_markPlayed env)
        (e_queueRefreshed env) (e_nowRetryCheck env) (e_retrySet env)
        (e_retryPlay env) (e_nowRetry env) (e_forwardSet env)
        (e_forwardPlay env) (e_nowForward env) (e_fallbackSet env)
        (e_fallbackPlay env) (e_nowFallback env) (e_recentItem env)
        (e_nowPayload env) (e_broadcastQueue env) (e_broadcastPlayback env)
        (e_nowDelay env).

Definition bad_gateway : Exchange NowPlayingData :=
  Fetched (inl (mkHttp false 502 "Bad Gateway" (inl "upstream"%string)
                       (inr (OtherError "not read")))).

Definition show_502 (_ : Z) : string := "502".

End ClientSpec.

(** * Properties *)

(** ** Facts about the JavaScript helpers *)

Module JSFacts.
Import JS.

Lemma truthy_Some (o : option string) :
  truthy o = true -> exists s, o = Some s /\ s <> ""%string.
Proof.
  destruct o as [s|]; simpl; [|discriminate].
  intros H. exists s. split; [reflexivity|].
  apply negb_true_iff in H. apply bool_decide_eq_false in H. exact H.
Qed.

Lemma truthy_nonempty (s : string) : s <> ""%string -> truthy (Some s) = true.
Proof.
  intros H. simpl. apply negb_true_iff. apply bool_decide_eq_false. exact H.
Qed.

Lemma seq_true (a b : option string) : seq a b = true <-> a = b.
Proof. unfold seq. apply bool_decide_eq_true. Qed.

Lemma seq_false (a b : option string) : seq a b = false <-> a <> b.
Proof. unfold seq. apply bool_decide_eq_false. Qed.

Lemma seq_refl (a : option string) : seq a a = true.
Proof. apply seq_true. reflexivity. Qed.

End JSFacts.

(** ** Progress and adaptive delay *)

Module ProgressProps.
Import JS Soundtrack Progress ProgressSpec JSFacts.

Section WithClock.
Variable Date_parse : string -> option Z.

Lemma computeProgressMs_parseable (now : Z) (np : NowPlaying) (start : Z) :
  parseable Date_parse np start ->
  computeProgressMs Date_parse now (Some np)
  = if now - start <? 0 then Some 0
    else match durationOf (Some np) with
         | Some d => if 0 <? d then Some (Z.min (now - start) d)
                     else Some (now - start)
         | None => Some (now - start)
         end.
Proof.
  intros (s & Hs & Hne & Hp).
  unfold computeProgressMs. rewrite Hs, (truthy_nonempty s Hne). simpl.
  rewrite Hp. reflexivity.
Qed.

Lemma computeProgressMs_nonneg (now : Z) (np : option NowPlaying) (p : Z) :
  computeProgressMs Date_parse now np = Some p -> 0 <= p.
Proof.
  unfold computeProgressMs.
  destruct np as [n|]; [|discriminate].
  destruct (negb (truthy (startedAt n))); [discriminate|].
  destruct (startedAt n) as [s|]; [|discriminate].
  destruct (Date_parse s) as [t|]; [|discriminate].
  destruct (Z.ltb_spec (now - t) 0); [intros [= <-]; lia|].
  destruct (durationOf (Some n)) as [d|].
  - destruct (Z.ltb_spec 0 d); intros [= <-]; lia.
  - intros [= <-]; lia.
Qed.

Lemma computeProgressMs_le_duration (now : Z) (np : option NowPlaying) (p d : Z) :
  computeProgressMs Date_parse now np = Some p ->
  durationOf np = Some d -> 0 < d -> p <= d.
Proof.
  unfold computeProgressMs.
  destruct np as [n|]; [|discriminate].
  destruct (negb (truthy (startedAt n))); [discriminate|].
  destruct (startedAt n) as [s|]; [|discriminate].
  destruct (Date_parse s) as [t|]; [|discriminate].
  intros H Hd Hpos. rewrite Hd in H.
  destruct (Z.ltb_spec (now - t) 0); [injection H as <-; lia|].
  destruct (Z.ltb_spec 0 d); injection H as <-; lia.
Qed.

(** C6: when the provider reports [PLAYING] with a computed progress [p] and
    a known positive duration [d], the poll delay is
    [clamp (remaining + 2500) 2000 5000] with [remaining = d - p]; in every
    other case it is the default interval, 5000; and for a playing track of
    180000 ms that started 170000 ms ago the delay is 5000. *)
Theorem derivePollDelay_spec (now : Z) (np : option NowPlaying) :
  (forall p d, adaptive Date_parse now np p d ->
     derivePollDelay Date_parse now np
     = clamp (d - p + 2500) MIN_POLL_INTERVAL_MS DEFAULT_POLL_INTERVAL_MS)
  /\ ((forall p d, ~ adaptive Date_parse now np p d) ->
      derivePollDelay Date_parse now np = DEFAULT_POLL_INTERVAL_MS)
  /\ (forall s start name' tid,
        s <> ""%string -> Date_parse s = Some start -> now = start + 170000 ->
        np = Some (mkNowPlaying (Some s) (Some Playing)
                     (Some (mkTrack tid name' (Some 180000) [] None None))) ->
        derivePollDelay Date_parse now np = 5000).
Proof.
  assert (Hadaptive : forall p d, adaptive Date_parse now np p d ->
     derivePollDelay Date_parse now np
     = clamp (d - p + 2500) MIN_POLL_INTERVAL_MS DEFAULT_POLL_INTERVAL_MS).
  { intros p d ((n & -> & Hst) & Hp & Hd & Hpos).
    pose proof (computeProgressMs_le_duration _ _ _ _ Hp Hd Hpos) as Hle.
    unfold derivePollDelay. rewrite Hp, Hd, Hst, seq_refl.
    destruct (Z.ltb_spec 0 d); [|lia].
    unfold clamp, MIN_POLL_INTERVAL_MS, DEFAULT_POLL_INTERVAL_MS. lia. }
  split; [exact Hadaptive|]. split.
  - intros Hnot. unfold derivePollDelay.
    destruct np as [n|]; [|reflexivity].
    destruct (seq (state n) (Some Playing)) eqn:Hst; [|reflexivity].
    apply seq_true in Hst.
    destruct (computeProgressMs Date_parse now (Some n)) as [p|] eqn:Hp;
      [|reflexivity].
    destruct (durationOf (Some n)) as [d|] eqn:Hd; [|reflexivity].
    destruct (Z.ltb_spec 0 d) as [Hpos|]; [|reflexivity].
    exfalso. apply (Hnot p d). unfold adaptive. eauto 10.
  - intros s start name' tid Hne Hparse Hnow Hnp.
    rewrite (Hadaptive 170000 180000).
    + reflexivity.
    + subst np. unfold adaptive.
      split; [eexists; split; reflexivity|].
      split; [|split; [reflexivity|lia]].
      rewrite (computeProgressMs_parseable _ _ start).
      * replace (now - start) with 170000 by lia. reflexivity.
      * exists s. split; [reflexivity|]. split; assumption.
Qed.

(** C7, as amended: for a report whose start time parses to [start], the
    progress is [now - start] clamped to [[0, d]] when the track duration [d]
    is known and positive, is [now - start] bounded below by 0 when the
    duration is unknown or not positive, and is 0 whenever [now - start] is
    negative. *)
Theorem computeProgressMs_spec (now : Z) (np : NowPlaying) (start : Z) :
  parseable Date_parse np start ->
  (forall d, durationOf (Some np) = Some d -> 0 < d ->
     computeProgressMs Date_parse now (Some np)
     = Some (Z.max 0 (Z.min (now - start) d)))
  /\ ((durationOf (Some np) = None
       \/ exists d, durationOf (Some np) = Some d /\ d <= 0) ->
      computeProgressMs Date_parse now (Some np) = Some (Z.max 0 (now - start)))
  /\ (now - start < 0 -> computeProgressMs Date_parse now (Some np) = Some 0).
Proof.
  intros Hp. rewrite (computeProgressMs_parseable _ _ _ Hp).
  split; [|split].
  - intros d -> Hpos.
    destruct (Z.ltb_spec (now - start) 0), (Z.ltb_spec 0 d); f_equal; lia.
  - intros [-> | (d & -> & Hd)].
    + destruct (Z.ltb_spec (now - start) 0); f_equal; lia.
    + destruct (Z.ltb_spec (now - start) 0), (Z.ltb_spec 0 d); f_equal; lia.
  - intros Hneg. destruct (Z.ltb_spec (now - start) 0); [reflexivity|lia].
Qed.

End WithClock.

Lemma sample_parseable (d : option Z) :
  parseable parse_epoch (sample_report d) 0.
Proof. eexists. split; [reflexivity|]. split; [discriminate|reflexivity]. Qed.

Lemma derivePollDelay_spec_witness :
  derivePollDelay parse_epoch 170000 (Some (sample_report (Some 180000))) = 5000.
Proof.
  refine (proj2 (proj2 (derivePollDelay_spec parse_epoch 170000
                          (Some (sample_report (Some 180000)))))
                "1970-01-01T00:00:00.000Z"%string 0 "Song"%string "t1"%string
                _ _ _ _).
  - discriminate.
  - reflexivity.
  - reflexivity.
  - reflexivity.
Defined.

Lemma computeProgressMs_spec_witness :
  computeProgressMs parse_epoch 200 (Some (sample_report (Some 120)))
  = Some (Z.max 0 (Z.min (200 - 0) 120)).
Proof.
  refine (proj1 (computeProgressMs_spec parse_epoch 200
                   (sample_report (Some 120)) 0 _) 120 _ _).
  - exact (sample_parseable (Some 120)).
  - reflexivity.
  - lia.
Defined.

(** C7 as stated fails: with a known duration of 0 (not negative) and a
    start time 5 ms in the past the code reports progress 5, not 0. *)
Lemma progress_zero_duration_not_clamped :
  computeProgressMs parse_epoch 5 (Some (sample_report (Some 0))) = Some 5
  /\ ~ progress_clamped_when_nonneg parse_epoch 5 (sample_report (Some 0)).
Proof.
  split; [reflexivity|].
  intros H. specialize (H 0 0 (sample_parseable (Some 0)) eq_refl).
  assert (Hle : 0 <= 0) by lia. specialize (H Hle).
  vm_compute in H. discriminate H.
Qed.

End ProgressProps.

(** ** Monitors and timers *)

Module PlaybackProps.
Import JS Soundtrack Progress Playback PlaybackSpec JSFacts.

Lemma consistent_single (st : Service) : timers_consistent st -> single_timer st.
Proof.
  intros (Hc & _) h1 h2 t1 t2 H1 H2 Heq.
  destruct (Hc _ _ H1) as (m1 & Hm1 & Ht1).
  destruct (Hc _ _ H2) as (m2 & Hm2 & Ht2).
  rewrite Heq in Hm1. congruence.
Qed.

Lemma consistent_pending_lt (st : Service) (h : nat) (t : Timer) :
  timers_consistent st -> timers st !! h = Some t -> (h < next_timer st)%nat.
Proof.
  intros (Hc & Ha) H. destruct (Hc _ _ H) as (m & Hm & Ht). eauto.
Qed.

Lemma empty_consistent : timers_consistent empty_service.
Proof.
  split.
  - intros h t H. simpl in H. rewrite lookup_empty in H. discriminate.
  - intros sid m h H. simpl in H. rewrite lookup_empty in H. discriminate.
Qed.

Lemma schedulePoll_lookup (sessionId : string) (delayMs : Z) (st : Service)
    (m : MonitorState) :
  monitors st !! sessionId = Some m ->
  monitors (schedulePoll sessionId delayMs st)
  = <[sessionId := set_timeout (Some (next_timer st)) m]> (monitors st)
  /\ timers (schedulePoll sessionId delayMs st) !! next_timer st
     = Some (mkTimer sessionId (Z.max 0 delayMs))
  /\ next_timer (schedulePoll sessionId delayMs st) = S (next_timer st)
  /\ io (schedulePoll sessionId delayMs st) = io st
  /\ trace (schedulePoll sessionId delayMs st) = trace st.
Proof.
  intros Hm. unfold schedulePoll. rewrite Hm. simpl.
  split; [reflexivity|]. split; [apply lookup_insert_eq|]. auto.
Qed.

Lemma schedulePoll_absent (sessionId : string) (delayMs : Z) (st : Service) :
  monitors st !! sessionId = None -> schedulePoll sessionId delayMs st = st.
Proof. intros Hm. unfold schedulePoll. rewrite Hm. reflexivity. Qed.

Lemma schedulePoll_old_timer (sessionId : string) (delayMs : Z) (st : Service)
    (h : nat) (t : Timer) :
  timers (schedulePoll sessionId delayMs st) !! h = Some t ->
  h <> next_timer st ->
  timers st !! h = Some t
  /\ forall m, monitors st !! sessionId = Some m -> timeout m <> Some h.
Proof.
  unfold schedulePoll.
  destruct (monitors st !! sessionId) as [m|] eqn:Hm; simpl.
  - intros H Hne. rewrite lookup_insert_ne in H by congruence.
    destruct (timeout m) as [h0|] eqn:Ht.
    + unfold clearTimeout in H.
      destruct (decide (h0 = h)) as [->|Hd].
      * rewrite lookup_delete_eq in H. discriminate.
      * rewrite lookup_delete_ne in H by assumption.
        split; [assumption|]. intros m' [= <-]. congruence.
    + split; [assumption|]. intros m' [= <-]. congruence.
  - intros H _. split; [assumption|]. intros m' [=].
Qed.

Lemma schedulePoll_consistent (sessionId : string) (delayMs : Z) (st : Service) :
  timers_consistent st -> timers_consistent (schedulePoll sessionId delayMs st).
Proof.
  intros Hc.
  destruct (monitors st !! sessionId) as [m|] eqn:Hm;
    [|rewrite schedulePoll_absent by assumption; exact Hc].
  destruct (schedulePoll_lookup sessionId delayMs st m Hm)
    as (Hmon & Hnew & Hnext & _ & _).
  destruct Hc as (Hc & Ha). split.
  - intros h t Ht. rewrite Hmon.
    destruct (decide (h = next_timer st)) as [->|Hne].
    + rewrite Hnew in Ht. injection Ht as <-. simpl.
      eexists. split; [apply lookup_insert_eq|reflexivity].
    + destruct (schedulePoll_old_timer _ _ _ _ _ Ht Hne) as (Hold & Hnot).
      destruct (Hc _ _ Hold) as (m0 & Hm0 & Ht0).
      destruct (decide (timer_session t = sessionId)) as [Heq|Hd].
      * exfalso. rewrite Heq in Hm0. exact (Hnot _ Hm0 Ht0).
      * exists m0. rewrite lookup_insert_ne by congruence. auto.
  - intros sid m0 h. rewrite Hmon, Hnext.
    destruct (decide (sessionId = sid)) as [->|Hd].
    + rewrite lookup_insert_eq. intros [= <-]. simpl. intros [= <-]. lia.
    + rewrite lookup_insert_ne by assumption. intros Hm0 Ht0.
      specialize (Ha _ _ _ Hm0 Ht0). lia.
Qed.

Lemma with_monitors_update_consistent (sessionId : string) (m m' : MonitorState)
    (st : Service) :
  monitors st !! sessionId = Some m -> timeout m' = timeout m ->
  timers_consistent st ->
  timers_consistent (with_monitors (<[sessionId := m']> (monitors st)) st).
Proof.
  intros Hm Ht (Hc & Ha). split.
  - intros h t H. simpl in *.
    destruct (Hc _ _ H) as (m0 & Hm0 & Ht0).
    destruct (decide (timer_session t = sessionId)) as [Heq|Hd].
    + exists m'. rewrite Heq, lookup_insert_eq. split; [reflexivity|].
      rewrite Heq in Hm0. congruence.
    + exists m0. rewrite lookup_insert_ne by congruence. auto.
  - intros sid m0 h. simpl.
    destruct (decide (sessionId = sid)) as [->|Hd].
    + rewrite lookup_insert_eq. intros [= <-]. rewrite Ht. eauto.
    + rewrite lookup_insert_ne by assumption. eauto.
Qed.

Lemma with_monitors_fresh_consistent (sessionId : string) (m' : MonitorState)
    (st : Service) :
  monitors st !! sessionId = None -> timeout m' = None ->
  timers_consistent st ->
  timers_consistent (with_monitors (<[sessionId := m']> (monitors st)) st).
Proof.
  intros Hm Ht (Hc & Ha). split.
  - intros h t H. simpl in *.
    destruct (Hc _ _ H) as (m0 & Hm0 & Ht0).
    exists m0. rewrite lookup_insert_ne by congruence. auto.
  - intros sid m0 h. simpl.
    destruct (decide (sessionId = sid)) as [->|Hd].
    + rewrite lookup_insert_eq. intros [= <-]. rewrite Ht. discriminate.
    + rewrite lookup_insert_ne by assumption. eauto.
Qed.

Lemma nullish_idem {A} (a b : option A) : nullish a (nullish a b) = nullish a b.
Proof. destruct a; reflexivity. Qed.

Lemma can_rearm_dec (sessionId : string) (st : Service) :
  can_rearm sessionId st \/ ~ can_rearm sessionId st.
Proof.
  unfold can_rearm. destruct (monitors st !! sessionId) as [m|].
  - destruct (processing m) eqn:Hp.
    + right. intros (m' & [= <-] & Hp'). congruence.
    + left. eauto.
  - right. intros (m' & [=] & _).
Qed.

Lemma requestImmediateSync_rearm (sessionId : string) (delayMs : Z) (st : Service) :
  can_rearm sessionId st ->
  requestImmediateSync sessionId delayMs st = schedulePoll sessionId delayMs st.
Proof.
  intros (m & Hm & Hp). unfold requestImmediateSync. rewrite Hm, Hp. reflexivity.
Qed.

Lemma requestImmediateSync_noop (sessionId : string) (delayMs : Z) (st : Service) :
  ~ can_rearm sessionId st -> requestImmediateSync sessionId delayMs st = st.
Proof.
  intros Hn. unfold requestImmediateSync.
  destruct (monitors st !! sessionId) as [m|] eqn:Hm; [|reflexivity].
  destruct (processing m) eqn:Hp; [reflexivity|].
  exfalso. apply Hn. exists m. auto.
Qed.

(** Consistency only looks at the timers and at the handles the monitors
    remember. *)
Lemma consistent_ext (st st' : Service) :
  timers st' = timers st ->
  next_timer st' = next_timer st ->
  (forall sessionId,
     timeout <$> (monitors st' !! sessionId) = timeout <$> (monitors st !! sessionId)) ->
  timers_consistent st -> timers_consistent st'.
Proof.
  intros Ht Hn Hm (Hc & Ha). split.
  - intros h t H. rewrite Ht in H. destruct (Hc _ _ H) as (m & Hm0 & Ht0).
    specialize (Hm (timer_session t)). rewrite Hm0 in Hm.
    destruct (monitors st' !! timer_session t) as [m'|]; [|discriminate Hm].
    exists m'. split; [reflexivity|]. simpl in Hm. congruence.
  - intros sid m' h Hm' Ht'. rewrite Hn.
    specialize (Hm sid). rewrite Hm' in Hm.
    destruct (monitors st !! sid) as [m|] eqn:Hm0; [|discriminate Hm].
    apply (Ha sid m h); [assumption|]. simpl in Hm. congruence.
Qed.

Lemma stopMonitor_consistent (sessionId : string) (st : Service) :
  timers_consistent st -> timers_consistent (stopMonitor sessionId st).
Proof.
  intros (Hc & Ha). unfold stopMonitor.
  destruct (monitors st !! sessionId) as [m|] eqn:Hm; [|split; assumption].
  split; simpl.
  - intros h t H.
    assert (Hold : timers st !! h = Some t /\ timeout m <> Some h).
    { destruct (timeout m) as [h0|]; [|split; [assumption|discriminate]].
      unfold clearTimeout in H. destruct (decide (h0 = h)) as [->|Hd].
      - rewrite lookup_delete_eq in H. discriminate.
      - rewrite lookup_delete_ne in H by assumption. split; congruence. }
    destruct Hold as (Hold & Hnot).
    destruct (Hc _ _ Hold) as (m0 & Hm0 & Ht0).
    exists m0. split; [|assumption].
    rewrite lookup_delete_ne; [assumption|].
    intros Heq. rewrite <- Heq in Hm0. congruence.
  - intros sid m0 h H. destruct (decide (sessionId = sid)) as [->|Hd].
    + rewrite lookup_delete_eq in H. discriminate.
    + rewrite lookup_delete_ne in H by assumption. eauto.
Qed.

Lemma setSocketServer_consistent (st : Service) :
  timers_consistent st -> timers_consistent (setSocketServer st).
Proof. apply consistent_ext; reflexivity. Qed.

Lemma requestImmediateSync_consistent (sessionId : string) (delayMs : Z)
    (st : Service) :
  timers_consistent st ->
  timers_consistent (requestImmediateSync sessionId delayMs st).
Proof.
  intros Hc. destruct (can_rearm_dec sessionId st) as [Hr|Hn].
  - rewrite (requestImmediateSync_rearm _ _ _ Hr).
    apply schedulePoll_consistent. assumption.
  - rewrite (requestImmediateSync_noop _ _ _ Hn). assumption.
Qed.

Lemma updateSoundZone_consistent (sessionId : string) (zone : option string)
    (st : Service) :
  timers_consistent st -> timers_consistent (updateSoundZone sessionId zone st).
Proof.
  intros Hc. unfold updateSoundZone.
  destruct (monitors st !! sessionId) as [m|] eqn:Hm; [|assumption].
  apply requestImmediateSync_consistent.
  apply (with_monitors_update_consistent sessionId m); auto.
Qed.

(** C9: [requestImmediateSync] re-arms the timer of a session exactly when a
    monitor exists for it and no pass is in progress: the previously pending
    timer is cancelled, a fresh one with the requested delay is armed and it
    is the only pending timer of the session; otherwise the call changes
    nothing; either way every session is left with at most one pending
    timer. *)
Theorem requestImmediateSync_spec (sessionId : string) (delayMs : Z) (st : Service) :
  timers_consistent st ->
  (can_rearm sessionId st ->
     exists m,
       monitors st !! sessionId = Some m
       /\ monitors (requestImmediateSync sessionId delayMs st)
          = <[sessionId := set_timeout (Some (next_timer st)) m]> (monitors st)
       /\ timers (requestImmediateSync sessionId delayMs st) !! next_timer st
          = Some (mkTimer sessionId (Z.max 0 delayMs))
       /\ (forall h0, timeout m = Some h0 ->
             timers (requestImmediateSync sessionId delayMs st) !! h0 = None)
       /\ (forall h t,
             timers (requestImmediateSync sessionId delayMs st) !! h = Some t ->
             timer_session t = sessionId -> h = next_timer st))
  /\ (~ can_rearm sessionId st -> requestImmediateSync sessionId delayMs st = st)
  /\ (requestImmediateSync sessionId delayMs st <> st <-> can_rearm sessionId st)
  /\ timers_consistent (requestImmediateSync sessionId delayMs st)
  /\ single_timer (requestImmediateSync sessionId delayMs st).
Proof.
  intros Hc.
  pose proof (requestImmediateSync_consistent sessionId delayMs st Hc) as Hc'.
  split; [|split; [apply requestImmediateSync_noop|split]].
  - intros Hr. rewrite (requestImmediateSync_rearm _ _ _ Hr).
    destruct Hr as (m & Hm & Hp).
    destruct (schedulePoll_lookup sessionId delayMs st m Hm)
      as (Hmon & Hnew & Hnext & _ & _).
    exists m. split; [assumption|]. split; [assumption|]. split; [assumption|].
    split.
    + intros h0 Ht0.
      destruct (timers (schedulePoll sessionId delayMs st) !! h0) as [t|] eqn:Ht;
        [|reflexivity].
      exfalso.
      assert (Hne : h0 <> next_timer st).
      { pose proof (proj2 Hc _ _ _ Hm Ht0). lia. }
      destruct (schedulePoll_old_timer _ _ _ _ _ Ht Hne) as (_ & Hnot).
      exact (Hnot _ Hm Ht0).
    + intros h t Ht Hs.
      destruct (decide (h = next_timer st)) as [|Hne]; [assumption|].
      exfalso.
      destruct (schedulePoll_old_timer _ _ _ _ _ Ht Hne) as (Hold & Hnot).
      destruct (proj1 Hc _ _ Hold) as (m0 & Hm0 & Ht0).
      rewrite Hs in Hm0. exact (Hnot _ Hm0 Ht0).
  - split.
    + intros Hneq. destruct (can_rearm_dec sessionId st) as [Hr|Hn]; [assumption|].
      exfalso. apply Hneq. apply requestImmediateSync_noop. assumption.
    + intros Hr Heq. rewrite (requestImmediateSync_rearm _ _ _ Hr) in Heq.
      destruct Hr as (m & Hm & _).
      destruct (schedulePoll_lookup sessionId delayMs st m Hm)
        as (_ & _ & Hnext & _ & _).
      rewrite Heq in Hnext. lia.
  - split; [exact Hc'|apply consistent_single; exact Hc'].
Qed.

Section Ensure.
Variable config : Config.

Lemma ensureMonitor_absent (sessionId hostId' : string) (zone : option string)
    (st : Service) :
  monitors st !! sessionId = None ->
  ensureMonitor config sessionId hostId' zone st
  = mkService (io st)
      (<[sessionId := mkMonitor hostId' (nullish zone (defaultSoundZone config))
                        (Some (next_timer st)) false None None None]> (monitors st))
      (<[next_timer st := mkTimer sessionId 0]> (timers st))
      (S (next_timer st)) (trace st).
Proof.
  intros Hm. unfold ensureMonitor, schedulePoll. rewrite Hm. simpl.
  rewrite lookup_insert_eq. simpl. rewrite insert_insert_eq. reflexivity.
Qed.

Lemma ensureMonitor_present_idle (sessionId hostId' : string)
    (zone : option string) (st : Service) (m : MonitorState) :
  monitors st !! sessionId = Some m ->
  timeout m = None -> processing m = false ->
  ensureMonitor config sessionId hostId' zone st
  = mkService (io st)
      (<[sessionId := mkMonitor hostId' (nullish zone (soundZoneId m))
                        (Some (next_timer st)) false (currentTrackId m)
                        (awaitingTrackId m) (requestIssuedAt m)]> (monitors st))
      (<[next_timer st := mkTimer sessionId 0]> (timers st))
      (S (next_timer st)) (trace st).
Proof.
  intros Hm Ht Hp. unfold ensureMonitor, schedulePoll. rewrite Hm. simpl.
  rewrite Ht, Hp. simpl. rewrite lookup_insert_eq. simpl.
  rewrite Ht, insert_insert_eq. unfold set_timeout. simpl. rewrite Hp.
  reflexivity.
Qed.

Lemma ensureMonitor_present_busy (sessionId hostId' : string)
    (zone : option string) (st : Service) (m : MonitorState) :
  monitors st !! sessionId = Some m ->
  ~ (timeout m = None /\ processing m = false) ->
  ensureMonitor config sessionId hostId' zone st
  = mkService (io st)
      (<[sessionId := mkMonitor hostId' (nullish zone (soundZoneId m))
                        (timeout m) (processing m) (currentTrackId m)
                        (awaitingTrackId m) (requestIssuedAt m)]> (monitors st))
      (timers st) (next_timer st) (trace st).
Proof.
  intros Hm Hbusy. unfold ensureMonitor. rewrite Hm.
  unfold with_monitors, set_soundZoneId, set_hostId. simpl.
  destruct (timeout m) as [h|] eqn:Ht; simpl.
  - reflexivity.
  - destruct (processing m) eqn:Hp; simpl; [reflexivity|].
    exfalso. apply Hbusy. auto.
Qed.

Lemma ensureMonitor_idempotent (sessionId hostId' : string)
    (zone : option string) (st : Service) :
  ensureMonitor config sessionId hostId' zone
    (ensureMonitor config sessionId hostId' zone st)
  = ensureMonitor config sessionId hostId' zone st.
Proof.
  destruct (monitors st !! sessionId) as [m|] eqn:Hm.
  - destruct (timeout m) as [h|] eqn:Ht.
    + rewrite (ensureMonitor_present_busy _ _ _ st m Hm)
        by (intros (H & _); congruence).
      erewrite ensureMonitor_present_busy;
        [|simpl; apply lookup_insert_eq|simpl; intros (H & _); congruence].
      simpl. rewrite insert_insert_eq, nullish_idem. reflexivity.
    + destruct (processing m) eqn:Hp.
      * rewrite (ensureMonitor_present_busy _ _ _ st m Hm)
          by (intros (_ & H); congruence).
        erewrite ensureMonitor_present_busy;
          [|simpl; apply lookup_insert_eq|simpl; intros (_ & H); congruence].
        simpl. rewrite insert_insert_eq, nullish_idem. reflexivity.
      * rewrite (ensureMonitor_present_idle _ _ _ st m Hm Ht Hp).
        erewrite ensureMonitor_present_busy;
          [|simpl; apply lookup_insert_eq|simpl; intros (H & _); discriminate].
        simpl. rewrite insert_insert_eq, nullish_idem. reflexivity.
  - rewrite (ensureMonitor_absent _ _ _ st Hm).
    erewrite ensureMonitor_present_busy;
      [|simpl; apply lookup_insert_eq|simpl; intros (H & _); discriminate].
    simpl. rewrite insert_insert_eq, nullish_idem. reflexivity.
Qed.

(** C4, as amended: [ensureMonitor] is idempotent and keeps one monitor per
    session.  With no monitor for the session it registers exactly one and
    arms a zero-delay timer.  With a monitor present it registers nothing,
    sets [hostId] to the given host, sets the zone to the given zone when
    that is not [null] and keeps the previous zone otherwise, leaves the
    cursors alone, and arms a zero-delay timer exactly when no timer is
    pending and no pass is in progress. *)
Theorem ensureMonitor_spec (sessionId hostId' : string) (zone : option string)
    (st : Service) :
  (monitors st !! sessionId = None ->
     monitors (ensureMonitor config sessionId hostId' zone st)
     = <[sessionId := mkMonitor hostId' (nullish zone (defaultSoundZone config))
                        (Some (next_timer st)) false None None None]> (monitors st)
     /\ size (monitors (ensureMonitor config sessionId hostId' zone st))
        = S (size (monitors st))
     /\ timers (ensureMonitor config sessionId hostId' zone st) !! next_timer st
        = Some (mkTimer sessionId 0))
  /\ (forall m, monitors st !! sessionId = Some m ->
        dom (monitors (ensureMonitor config sessionId hostId' zone st))
        = dom (monitors st)
        /\ exists m',
             monitors (ensureMonitor config sessionId hostId' zone st) !! sessionId
             = Some m'
             /\ Playback.hostId m' = hostId'
             /\ soundZoneId m' = nullish zone (soundZoneId m)
             /\ processing m' = processing m
             /\ currentTrackId m' = currentTrackId m
             /\ awaitingTrackId m' = awaitingTrackId m
             /\ requestIssuedAt m' = requestIssuedAt m
             /\ ((timeout m = None /\ processing m = false) ->
                 timeout m' = Some (next_timer st)
                 /\ timers (ensureMonitor config sessionId hostId' zone st)
                    !! next_timer st = Some (mkTimer sessionId 0))
             /\ (~ (timeout m = None /\ processing m = false) ->
                 timeout m' = timeout m
                 /\ timers (ensureMonitor config sessionId hostId' zone st)
                    = timers st
                 /\ next_timer (ensureMonitor config sessionId hostId' zone st)
                    = next_timer st))
  /\ (forall other, other <> sessionId ->
        monitors (ensureMonitor config sessionId hostId' zone st) !! other
        = monitors st !! other)
  /\ ensureMonitor config sessionId hostId' zone
       (ensureMonitor config sessionId hostId' zone st)
     = ensureMonitor config sessionId hostId' zone st.
Proof.
  split; [|split; [|split; [|apply ensureMonitor_idempotent]]].
  - intros Hm. rewrite (ensureMonitor_absent _ _ _ st Hm). simpl.
    split; [reflexivity|]. split.
    + apply map_size_insert_None. assumption.
    + apply lookup_insert_eq.
  - intros m Hm.
    assert (Hdec : (timeout m = None /\ processing m = false)
                   \/ ~ (timeout m = None /\ processing m = false)).
    { destruct (timeout m); [right; intros (H & _); discriminate|].
      destruct (processing m); [right; intros (_ & H); discriminate|].
      left. auto. }
    destruct Hdec as [(Ht & Hp)|Hbusy].
    + rewrite (ensureMonitor_present_idle _ _ _ st m Hm Ht Hp). simpl.
      split.
      { apply dom_insert_lookup_L. eauto. }
      eexists. split; [apply lookup_insert_eq|]. simpl.
      do 6 (split; [first [reflexivity | symmetry; assumption]|]).
      split.
      * intros _. split; [reflexivity|apply lookup_insert_eq].
      * intros Hn. exfalso. apply Hn. auto.
    + rewrite (ensureMonitor_present_busy _ _ _ st m Hm Hbusy). simpl.
      split.
      { apply dom_insert_lookup_L. eauto. }
      eexists. split; [apply lookup_insert_eq|]. simpl.
      do 6 (split; [first [reflexivity | symmetry; assumption]|]).
      split.
      * intros Hidle. exfalso. apply Hbusy. assumption.
      * intros _. auto.
  - intros other Hne.
    destruct (monitors st !! sessionId) as [m|] eqn:Hm.
    + destruct (timeout m) as [h|] eqn:Ht.
      * rewrite (ensureMonitor_present_busy _ _ _ st m Hm)
          by (intros (H & _); congruence).
        simpl. apply lookup_insert_ne. congruence.
      * destruct (processing m) eqn:Hp.
        -- rewrite (ensureMonitor_present_busy _ _ _ st m Hm)
             by (intros (_ & H); congruence).
           simpl. apply lookup_insert_ne. congruence.
        -- rewrite (ensureMonitor_present_idle _ _ _ st m Hm Ht Hp).
           simpl. apply lookup_insert_ne. congruence.
    + rewrite (ensureMonitor_absent _ _ _ st Hm). simpl.
      apply lookup_insert_ne. congruence.
Qed.

Lemma ensureMonitor_consistent (sessionId hostId' : string)
    (zone : option string) (st : Service) :
  timers_consistent st ->
  timers_consistent (ensureMonitor config sessionId hostId' zone st).
Proof.
  intros Hc. unfold ensureMonitor.
  destruct (monitors st !! sessionId) as [m|] eqn:Hm.
  - match goal with
    | |- context [if ?b then _ else _] => destruct b
    end.
    + apply schedulePoll_consistent.
      apply (with_monitors_update_consistent sessionId m); auto.
    + apply (with_monitors_update_consistent sessionId m); auto.
  - apply schedulePoll_consistent.
    apply with_monitors_fresh_consistent; auto.
Qed.

End Ensure.

(** C4 as stated fails on the zone: re-ensuring a session whose monitor
    targets zone-A with a [null] zone keeps zone-A instead of storing [null]. *)
Lemma ensure_null_zone_keeps_previous :
  (exists m', monitors (ensureMonitor no_defaults "s1" "host" None zoned_service)
              !! "s1"%string = Some m'
              /\ soundZoneId m' = Some "zone-A"%string)
  /\ ~ ensure_overwrites_zone no_defaults "s1" "host" None zoned_service.
Proof.
  split.
  - eexists. split; [vm_compute; reflexivity|reflexivity].
  - intros H. destruct (H _ eq_refl) as (m' & Hm' & _ & Hz).
    vm_compute in Hm'. injection Hm' as <-. discriminate Hz.
Qed.

Lemma requestImmediateSync_spec_witness :
  timers (requestImmediateSync "s1" 250 monitored_service) !! 1%nat
  = Some (mkTimer "s1" 250)
  /\ timers (requestImmediateSync "s1" 250 monitored_service) !! 0%nat = None.
Proof.
  destruct (requestImmediateSync_spec "s1" 250 monitored_service
              (ensureMonitor_consistent no_defaults "s1" "host"
                 (Some "zone-A"%string) empty_service empty_consistent))
    as (Hrearm & _).
  destruct Hrearm as (m & Hm & _ & Hnew & Hold & _).
  - eexists. split; [vm_compute; reflexivity|reflexivity].
  - split; [exact Hnew|].
    apply Hold. vm_compute in Hm. injection Hm as <-. reflexivity.
Defined.

End PlaybackProps.

(** ** The reconciliation pass *)

Module PassProps.
Import JS Soundtrack Progress Playback Pass PlaybackSpec PassSpec JSFacts PlaybackProps.

#[local] Arguments truthy : simpl never.
#[local] Arguments seq : simpl never.

Lemma sites_within_nil (allowed : Site -> bool) : sites_within allowed [].
Proof. intros site zone content []. Qed.

Lemma sites_within_app (allowed : Site -> bool) (tr1 tr2 : list Event) :
  sites_within allowed tr1 -> sites_within allowed tr2 ->
  sites_within allowed (tr1 ++ tr2).
Proof.
  intros H1 H2 site zone content Hin.
  apply in_app_or in Hin. destruct Hin; eauto.
Qed.

Lemma sites_within_other (allowed : Site -> bool) (ev : Event) :
  isSetContent ev = false -> sites_within allowed [ev].
Proof.
  intros Hev site zone content [Heq|[]]. subst ev. discriminate Hev.
Qed.

Lemma sites_within_set (allowed : Site -> bool) (site : Site) (zone content : string) :
  allowed site = true -> sites_within allowed [EvSetContent site zone content].
Proof.
  intros Hs site' zone' content' [[= <- <- <-]|[]]. assumption.
Qed.

Lemma sites_within_weaken (a b : Site -> bool) (tr : list Event) :
  (forall s, a s = true -> b s = true) -> sites_within a tr -> sites_within b tr.
Proof. intros Hab H site zone content Hin. eauto. Qed.

Lemma sites_within_none (allowed : Site -> bool) (tr : list Event) :
  sites_within no_site tr -> sites_within allowed tr.
Proof. intros H site zone content Hin. discriminate (H _ _ _ Hin). Qed.

Create HintDb sites.

(** Decide [sites_within] on an explicit list of events. *)
Ltac solve_sites :=
  let Hin := fresh "Hin" in
  intros ? ? ? Hin; simpl in Hin;
  repeat (destruct Hin as [Hin|Hin];
          [first [discriminate Hin
                 | injection Hin as <- <- <-; reflexivity]|]);
  contradiction.

#[local] Hint Resolve sites_within_nil sites_within_app sites_within_other
  sites_within_set : sites.

Section WithConfig.
Variable config : Config.
Variable Date_parse : string -> option Z.

Lemma confirmAssignment_run (cur : option string) (s : PState) :
  confirmAssignment cur s
  = (inl tt, if confirms cur (ps_monitor s)
             then mkPState (confirmed (ps_monitor s)) (ps_trace s)
             else s).
Proof.
  unfold confirmAssignment, bind, getMonitor, when, confirms. simpl.
  destruct (truthy (awaitingTrackId (ps_monitor s))
            && seq (awaitingTrackId (ps_monitor s)) cur); reflexivity.
Qed.

(** Transition detection touches neither the pending assignment nor its
    timestamp, assigns no content, and leaves a monitor whose believed track
    is the observed one alone. *)
Lemma detectTransition_frame (sessionId : string) (cur : option string)
    (q : QueueView) (env : Env) (s s' : PState) (r : Result QueueView) :
  detectTransition sessionId cur q env s = (r, s') ->
  awaitingTrackId (ps_monitor s') = awaitingTrackId (ps_monitor s)
  /\ requestIssuedAt (ps_monitor s') = requestIssuedAt (ps_monitor s)
  /\ (currentTrackId (ps_monitor s) = cur ->
      truthy cur = true -> ps_monitor s' = ps_monitor s)
  /\ exists added, ps_trace s' = ps_trace s ++ added /\ sites_within no_site added.
Proof.
  unfold detectTransition, bind, getMonitor, call, modify, ret. simpl.
  destruct (truthy (currentTrackId (ps_monitor s))) eqn:Htr; simpl.
  - destruct (seq (currentTrackId (ps_monitor s)) cur) eqn:Hseq; simpl.
    + intros [= <- <-]. split; [reflexivity|]. split; [reflexivity|].
      split; [reflexivity|].
      exists []. rewrite app_nil_r. auto with sites.
    + apply seq_false in Hseq.
      assert (Hkeep : forall m' : MonitorState,
                currentTrackId (ps_monitor s) = cur -> truthy cur = true ->
                m' = ps_monitor s) by (intros m' Hc; contradiction).
      destruct (e_markPlayed env) as [consumed|e]; simpl.
      * destruct consumed; simpl.
        -- destruct (e_queueRefreshed env) as [q'|e]; simpl;
             intros [= <- <-]; simpl;
             (split; [reflexivity|]; split; [reflexivity|];
              split; [apply Hkeep|]);
             rewrite <- app_assoc; eexists; (split; [reflexivity|]);
             auto with sites.
        -- intros [= <- <-]; simpl.
           split; [reflexivity|]. split; [reflexivity|]. split; [apply Hkeep|].
           eexists; split; [reflexivity|]. auto with sites.
      * intros [= <- <-]; simpl.
        split; [reflexivity|]. split; [reflexivity|]. split; [apply Hkeep|].
        eexists; split; [reflexivity|]. auto with sites.
  - intros [= <- <-]; simpl.
    split; [reflexivity|]. split; [reflexivity|]. split.
    + intros Hc Ht. rewrite Hc in Htr. congruence.
    + exists []. rewrite app_nil_r. auto with sites.
Qed.

(** The retry never touches the pending track, only its timestamp, and only
    when an assignment is pending. *)
Lemma retryAssignment_frame (zone : string) (cur : option string) (env : Env)
    (s : PState) :
  exists s',
    retryAssignment zone cur env s = (inl tt, s')
    /\ awaitingTrackId (ps_monitor s') = awaitingTrackId (ps_monitor s)
    /\ currentTrackId (ps_monitor s') = currentTrackId (ps_monitor s)
    /\ (truthy (awaitingTrackId (ps_monitor s)) = false ->
        ps_monitor s' = ps_monitor s)
    /\ exists added, ps_trace s' = ps_trace s ++ added
                     /\ sites_within only_retry added.
Proof.
  unfold retryAssignment, bind, getMonitor, when, try_log, call, modify, ret.
  simpl.
  destruct (truthy (awaitingTrackId (ps_monitor s))) eqn:Htr; simpl.
  - match goal with
    | |- context [if ?b then _ else _] => destruct b
    end; simpl.
    + destruct (e_retrySet env) as [[]|e1]; simpl.
      * destruct (e_retryPlay env) as [[]|e2]; simpl;
          (eexists; split; [reflexivity|]; simpl;
           split; [reflexivity|]; split; [reflexivity|];
           split; [discriminate|];
           repeat rewrite <- app_assoc; eexists; split; [reflexivity|]);
          solve_sites.
      * eexists; split; [reflexivity|]; simpl.
        split; [reflexivity|]. split; [reflexivity|]. split; [discriminate|].
        repeat rewrite <- app_assoc; eexists; split; [reflexivity|].
        solve_sites.
    + exists s. do 4 (split; [reflexivity|]).
      exists []. rewrite app_nil_r. auto with sites.
  - exists s. do 4 (split; [reflexivity|]).
    exists []. rewrite app_nil_r. auto with sites.
Qed.

Lemma assignNext_frame (zone : string) (cur : option string)
    (next : option QueueItem) (env : Env) (s : PState) :
  exists s' added,
    assignNext config zone cur next env s = (inl tt, s')
    /\ currentTrackId (ps_monitor s') = currentTrackId (ps_monitor s)
    /\ ps_trace s' = ps_trace s ++ added
    /\ ((ps_monitor s' = ps_monitor s
         /\ (sites_within only_forward added \/ sites_within only_fallback added))
        \/ (assigned config zone cur Forward (ps_monitor s) (ps_monitor s') added
            /\ sites_within only_forward added)
        \/ (assigned config zone cur Fallback (ps_monitor s) (ps_monitor s') added
            /\ sites_within only_fallback added)).
Proof.
  unfold assignNext, bind, getMonitor, when, try_log, call, modify, ret.
  simpl.
  assert (Hnone : exists s' added,
            (inl tt : Result unit, s) = (inl tt, s')
            /\ currentTrackId (ps_monitor s') = currentTrackId (ps_monitor s)
            /\ ps_trace s' = ps_trace s ++ added
            /\ ((ps_monitor s' = ps_monitor s
                 /\ (sites_within only_forward added
                     \/ sites_within only_fallback added))
                \/ (assigned config zone cur Forward (ps_monitor s) (ps_monitor s') added
                    /\ sites_within only_forward added)
                \/ (assigned config zone cur Fallback (ps_monitor s) (ps_monitor s') added
                    /\ sites_within only_fallback added))).
  { exists s, []. rewrite app_nil_r. do 3 (split; [reflexivity|]).
    left. split; [reflexivity|]. left. auto with sites. }
  destruct next as [item|].
  - destruct (truthy (Some (spotifyTrackId item))) eqn:Htr; [|exact Hnone].
    apply truthy_Some in Htr. destruct Htr as (t & [= <-] & Hne).
    destruct (seq cur (Some (spotifyTrackId item))) eqn:Hcur; simpl;
      [exact Hnone|].
    destruct (seq (awaitingTrackId (ps_monitor s)) (Some (spotifyTrackId item)))
      eqn:Haw; simpl; [exact Hnone|].
    apply seq_false in Hcur, Haw.
    destruct (e_forwardSet env) as [[]|e1]; simpl.
    + destruct (e_forwardPlay env) as [[]|e2]; simpl.
      * eexists _, [_; _]. split; [reflexivity|]. simpl.
        split; [reflexivity|]. split; [rewrite <- app_assoc; reflexivity|].
        right. left. split.
        -- exists (spotifyTrackId item). simpl.
           split; [reflexivity|]. split; [assumption|]. split; [assumption|].
           split; [eauto|].
           split; [left; reflexivity|]. split; [right; left; reflexivity|].
           assumption.
        -- solve_sites.
      * eexists _, [_; _; _]. split; [reflexivity|]. simpl.
        split; [reflexivity|].
        split; [repeat rewrite <- app_assoc; reflexivity|].
        left. split; [reflexivity|]. left.
        solve_sites.
    + eexists _, [_; _]. split; [reflexivity|]. simpl.
      split; [reflexivity|].
      split; [repeat rewrite <- app_assoc; reflexivity|].
      left. split; [reflexivity|]. left.
      solve_sites.
  - destruct (truthy cur) eqn:Hcur; simpl; [exact Hnone|].
    destruct (truthy (defaultContentId config)) eqn:Hdef; simpl; [|exact Hnone].
    apply truthy_Some in Hdef. destruct Hdef as (t & Hdef & Hne).
    rewrite Hdef. simpl.
    destruct (seq (awaitingTrackId (ps_monitor s)) (Some t)) eqn:Haw; simpl;
      [exact Hnone|].
    apply seq_false in Haw.
    destruct (e_fallbackSet env) as [[]|e1]; simpl.
    + destruct (e_fallbackPlay env) as [[]|e2]; simpl.
      * eexists _, [_; _]. split; [reflexivity|]. simpl.
        split; [reflexivity|]. split; [rewrite <- app_assoc; reflexivity|].
        right. right. split.
        -- exists t. simpl.
           split; [reflexivity|]. split; [assumption|]. split; [assumption|].
           split; [eauto|].
           split; [left; reflexivity|]. split; [right; left; reflexivity|].
           split; assumption.
        -- solve_sites.
      * eexists _, [_; _; _]. split; [reflexivity|]. simpl.
        split; [reflexivity|].
        split; [repeat rewrite <- app_assoc; reflexivity|].
        left. split; [reflexivity|]. right.
        solve_sites.
    + eexists _, [_; _]. split; [reflexivity|]. simpl.
      split; [reflexivity|].
      split; [repeat rewrite <- app_assoc; reflexivity|].
      left. split; [reflexivity|]. right.
      solve_sites.
Qed.

Lemma resolveRequester_frame (sessionId : string) (cur : option string)
    (env : Env) (s s' : PState) (r : Result (option Requester)) :
  resolveRequester sessionId cur env s = (r, s') ->
  ps_monitor s' = ps_monitor s
  /\ exists added, ps_trace s' = ps_trace s ++ added /\ sites_within no_site added.
Proof.
  unfold resolveRequester, bind, call, ret.
  destruct (negb (truthy cur)); simpl.
  - intros [= <- <-]. split; [reflexivity|].
    exists []. rewrite app_nil_r. auto with sites.
  - destruct (e_recentItem env) as [[item|]|e]; simpl.
    + destruct (addedBy item), (addedByGuest item); intros [= <- <-]; simpl;
        (split; [reflexivity|]); eexists; (split; [reflexivity|]);
        auto with sites.
    + intros [= <- <-]; simpl. split; [reflexivity|].
      eexists; split; [reflexivity|]. auto with sites.
    + intros [= <- <-]; simpl. split; [reflexivity|].
      eexists; split; [reflexivity|]. auto with sites.
Qed.

Lemma bind_inv {A B} (c : M A) (k : A -> M B) (s s' : PState) (r : Result B) :
  bind c k s = (r, s') ->
  (exists e, c s = (inr e, s') /\ r = inr e)
  \/ (exists a s1, c s = (inl a, s1) /\ k a s1 = (r, s')).
Proof.
  unfold bind. destruct (c s) as [[a|e] s1].
  - intros H. right. eauto.
  - intros [= <- <-]. left. eauto.
Qed.

Lemma call_inv {A} (ev : Event) (o : Result A) (s s' : PState) (r : Result A) :
  call ev o s = (r, s') ->
  r = o /\ ps_monitor s' = ps_monitor s /\ ps_trace s' = ps_trace s ++ [ev].
Proof. unfold call. intros [= <- <-]. auto. Qed.

Lemma passBody_outcome (sessionId zone : string) (env : Env) (m0 : MonitorState)
    (r : Result Z) (s1 : PState) :
  passBody config Date_parse sessionId zone env (mkPState m0 []) = (r, s1) ->
  pass_outcome config zone env m0 (ps_monitor s1) (ps_trace s1)
  /\ (sites_within not_fallback (ps_trace s1)
      \/ sites_within not_forward (ps_trace s1)).
Proof.
  unfold passBody. intros H.
  apply bind_inv in H as [(e & Hc & ->)|(np & sa & Hc & H)];
    apply call_inv in Hc as (Ho & Hma & Hta); simpl in Hma, Hta.
  { split.
    - left. split; [eauto|assumption].
    - left. rewrite Hta. solve_sites. }
  apply bind_inv in H as [(e & Hc & ->)|(q & sb & Hc & H)];
    apply call_inv in Hc as (Hq & Hmb & Htb); rewrite Hma in Hmb;
    rewrite Hta in Htb; simpl in Htb.
  { split.
    - left. split; [eauto|assumption].
    - left. rewrite Htb. solve_sites. }
  symmetry in Ho, Hq.
  set (cur := trackIdOf np) in *.
  apply bind_inv in H as [(e & Hc & ->)|([] & sc & Hc & H)];
    rewrite confirmAssignment_run in Hc; [discriminate Hc|].
  injection Hc as Hsc.
  assert (Hmc : ps_monitor sc = afterConfirm cur m0).
  { rewrite <- Hsc, Hmb. unfold afterConfirm.
    destruct (confirms cur m0); [reflexivity|exact Hmb]. }
  assert (Htc : ps_trace sc = ps_trace sb).
  { rewrite <- Hsc. destruct (confirms cur (ps_monitor sb)); reflexivity. }
  assert (Hcurrent : confirms cur m0 = true ->
            currentTrackId (ps_monitor sc) = cur /\ truthy cur = true
            /\ cur = awaitingTrackId m0).
  { intros Hcf. rewrite Hmc. unfold afterConfirm. rewrite Hcf.
    unfold confirms in Hcf. apply andb_true_iff in Hcf as (Ht & Hs).
    apply seq_true in Hs. simpl. rewrite <- Hs. auto. }
  assert (Hpre : sites_within no_site (ps_trace sc)).
  { rewrite Htc, Htb. solve_sites. }
  clear Hsc.
  apply bind_inv in H as [(e & Hc & ->)|(q' & sd & Hc & H)];
    apply detectTransition_frame in Hc
      as (Had & Hid & Hkeep & addedD & Htd & HsD).
  { split.
    - right. exists np, q. split; [assumption|]. split; [assumption|]. split.
      + intros Hcf. destruct (Hcurrent Hcf) as (Hc1 & Hc2 & Hc3).
        rewrite (Hkeep Hc1 Hc2). congruence.
      + left. rewrite Had, Hid, Hmc. auto.
    - left. rewrite Htd.
      apply sites_within_app; apply sites_within_none; assumption. }
  destruct (retryAssignment_frame zone cur env sd)
    as (se & Hre & Hae & Hce & Hsame & addedR & Hte & HsR).
  apply bind_inv in H as [(e & Hc & ->)|([] & se' & Hc & H)];
    rewrite Hre in Hc; [discriminate Hc|].
  injection Hc as <-.
  destruct (assignNext_frame zone cur (nextUp q') env se)
    as (sf & addedA & Has & Hcf' & Htf & Hcases).
  apply bind_inv in H as [(e & Hc & ->)|([] & sf' & Hc & H)];
    rewrite Has in Hc; [discriminate Hc|].
  injection Hc as <-.
  assert (Htail : ps_monitor s1 = ps_monitor sf
            /\ exists addedT, ps_trace s1 = ps_trace sf ++ addedT
                              /\ sites_within no_site addedT).
  { apply bind_inv in H as [(e & Hc & ->)|(req & sg & Hc & H)];
      apply resolveRequester_frame in Hc as (Hmg & addedG & Htg & HsG).
    { split; [assumption|]. eauto. }
    apply bind_inv in H as [(e & Hc & ->)|([] & sh & Hc & H)];
      apply call_inv in Hc as (_ & Hmh & Hth).
    { split; [congruence|]. exists (addedG ++ [EvBroadcastQueue sessionId q']).
      split; [rewrite Hth, Htg, app_assoc; reflexivity|].
      apply sites_within_app; [assumption|solve_sites]. }
    apply bind_inv in H as [(e & Hc & ->)|([] & si & Hc & H)];
      apply call_inv in Hc as (_ & Hmi & Hti).
    { split; [congruence|]. eexists.
      split; [rewrite Hti, Hth, Htg, <- !app_assoc; reflexivity|].
      apply sites_within_app; [assumption|solve_sites]. }
    injection H as _ <-.
    split; [congruence|]. eexists.
    split; [rewrite Hti, Hth, Htg, <- !app_assoc; reflexivity|].
    apply sites_within_app; [assumption|solve_sites]. }
  destruct Htail as (Hm1 & addedT & Ht1 & HsT).
  assert (Htrace : ps_trace s1
                   = ps_trace sc ++ addedD ++ addedR ++ addedA ++ addedT).
  { rewrite Ht1, Htf, Hte, Htd, <- !app_assoc. reflexivity. }
  split.
  - right. exists np, q. split; [assumption|]. split; [assumption|]. split.
    + intros Hcf. destruct (Hcurrent Hcf) as (Hc1 & Hc2 & Hc3).
      rewrite Hm1, Hcf', Hce, (Hkeep Hc1 Hc2). congruence.
    + fold cur. destruct Hcases as [(Hsamef & _)|[(Hasg & _)|(Hasg & _)]].
      * left. rewrite Hm1, Hsamef, Hae, Had, <- Hmc. split; [reflexivity|].
        intros Hfalsy. rewrite (Hsame ltac:(rewrite Had; exact Hfalsy)).
        exact Hid.
      * right. exists Forward, (ps_monitor se), addedA.
        split; [left; reflexivity|]. split; [congruence|].
        split; [rewrite Hm1; exact Hasg|].
        intros ev Hin. rewrite Htrace. rewrite !in_app_iff. tauto.
      * right. exists Fallback, (ps_monitor se), addedA.
        split; [right; reflexivity|]. split; [congruence|].
        split; [rewrite Hm1; exact Hasg|].
        intros ev Hin. rewrite Htrace. rewrite !in_app_iff. tauto.
  - assert (Hside : sites_within only_forward addedA
                    \/ sites_within only_fallback addedA)
      by (destruct Hcases as [(_ & [?|?])|[(_ & ?)|(_ & ?)]]; auto).
    rewrite Htrace.
    destruct Hside as [Hf|Hf]; [left|right];
      repeat apply sites_within_app;
      (eapply sites_within_weaken; [|eassumption]);
      intros []; cbv; congruence.
Qed.

Lemma static_refl (m : MonitorState) : static m m.
Proof. unfold static. auto. Qed.

Lemma static_trans (m1 m2 m3 : MonitorState) :
  static m1 m2 -> static m2 m3 -> static m1 m3.
Proof. unfold static. intros (?&?&?&?) (?&?&?&?). repeat split; congruence. Qed.

Lemma preserves_ret {A} (a : A) : preserves (ret a).
Proof. intros s r s' [= <- <-]. apply static_refl. Qed.

Lemma preserves_bind {A B} (c : M A) (k : A -> M B) :
  preserves c -> (forall a, preserves (k a)) -> preserves (bind c k).
Proof.
  intros Hc Hk s r s' H.
  apply bind_inv in H as [(e & H1 & _)|(a & s1 & H1 & H2)].
  - exact (Hc _ _ _ H1).
  - exact (static_trans _ _ _ (Hc _ _ _ H1) (Hk a _ _ _ H2)).
Qed.

Lemma preserves_call {A} (ev : Event) (o : Result A) : preserves (call ev o).
Proof. intros s r s' [= <- <-]. apply static_refl. Qed.

Lemma preserves_getMonitor : preserves getMonitor.
Proof. intros s r s' [= <- <-]. apply static_refl. Qed.

Lemma preserves_modify (f : MonitorState -> MonitorState) :
  (forall m, static m (f m)) -> preserves (modify f).
Proof. intros Hf s r s' [= <- <-]. apply Hf. Qed.

Lemma preserves_when (b : bool) (c : M unit) : preserves c -> preserves (when b c).
Proof. intros Hc. destruct b; [exact Hc|apply preserves_ret]. Qed.

Lemma preserves_try_log (label : string) (c : M unit) :
  preserves c -> preserves (try_log label c).
Proof.
  intros Hc s r s' H. unfold try_log in H.
  destruct (c s) as [[u|e] s1] eqn:Hcs; injection H as <- <-;
    exact (Hc _ _ _ Hcs).
Qed.

(** Discharge [preserves] by following the structure of the step. *)
Ltac preserves_step :=
  cbv beta zeta;
  lazymatch goal with
  | |- preserves (bind _ _) => apply preserves_bind; [|intros ?]
  | |- preserves (ret _) => apply preserves_ret
  | |- preserves (call _ _) => apply preserves_call
  | |- preserves getMonitor => apply preserves_getMonitor
  | |- preserves (modify _) =>
      apply preserves_modify; intros ?; unfold static; simpl; auto
  | |- preserves (when _ _) => apply preserves_when
  | |- preserves (try_log _ _) => apply preserves_try_log
  | |- preserves (if ?b then _ else _) => destruct b
  | |- preserves (match ?x with _ => _ end) => destruct x
  end.

Lemma passBody_preserves (sessionId zone : string) (env : Env) :
  preserves (passBody config Date_parse sessionId zone env).
Proof.
  unfold passBody, confirmAssignment, detectTransition, retryAssignment,
    assignNext, resolveRequester.
  repeat preserves_step.
Qed.


Lemma passBody_provider_error (sessionId zone : string) (env : Env)
    (s : PState) (e : Error) :
  e_nowPlaying env = inr e ->
  fst (passBody config Date_parse sessionId zone env s) = inr e.
Proof.
  intros He. unfold passBody, bind, call. rewrite He. reflexivity.
Qed.

(** The service after a pass that ran: the pass's monitor is written back,
    a fresh timer is armed for the session and the in-progress flag is
    cleared. *)
Lemma pollSession_pass (sessionId zone : string) (env : Env) (st : Service)
    (m : MonitorState) :
  monitors st !! sessionId = Some m ->
  processing m = false ->
  io st = true ->
  soundZoneId m = Some zone ->
  zone <> ""%string ->
  let run := passBody config Date_parse sessionId zone env
               (mkPState (set_processing true m) []) in
  let st' := pollSession config Date_parse sessionId env st in
  io st' = true
  /\ monitors st'
     = <[sessionId := set_processing false
                        (set_timeout (Some (next_timer st)) (ps_monitor (snd run)))]>
         (monitors st)
  /\ timers st' !! next_timer st
     = Some (mkTimer sessionId
               (match fst run with
                | inl nextDelay => Z.max 0 nextDelay
                | inr _ => DEFAULT_POLL_INTERVAL_MS
                end))
  /\ trace st'
     = trace st ++ ps_trace (snd run)
       ++ match fst run with
          | inl _ => []
          | inr e => [EvError (playbackSyncError sessionId) e]
          end.
Proof.
  intros Hm Hp Hio Hz Hne. simpl.
  unfold pollSession. rewrite Hm, Hp, Hio, Hz. simpl.
  rewrite (truthy_nonempty zone Hne).
  destruct (passBody config Date_parse sessionId zone env
              (mkPState (set_processing true m) [])) as [r s1]. simpl.
  destruct r as [nextDelay|e]; unfold schedulePoll, commit, emit; simpl;
    rewrite lookup_insert_eq; simpl;
    rewrite insert_insert_eq, alter_insert_eq;
    (split; [assumption|]); (split; [reflexivity|]);
    (split; [apply lookup_insert_eq|]).
  - rewrite app_nil_r. reflexivity.
  - rewrite <- app_assoc. reflexivity.
Qed.

(** C8: a pass that runs always ends with the session's monitor still
    registered on its zone, not in progress, and with a fresh timer pending;
    when the pass raised an uncaught error [e], that error is logged and the
    timer is armed with the default interval. *)
Theorem failed_pass_rearms (sessionId zone : string) (env : Env) (st : Service)
    (m : MonitorState) :
  monitors st !! sessionId = Some m ->
  processing m = false ->
  io st = true ->
  soundZoneId m = Some zone ->
  zone <> ""%string ->
  let r := fst (passBody config Date_parse sessionId zone env
                  (mkPState (set_processing true m) [])) in
  let st' := pollSession config Date_parse sessionId env st in
  (exists m',
     monitors st' !! sessionId = Some m'
     /\ processing m' = false
     /\ soundZoneId m' = Some zone
     /\ timeout m' = Some (next_timer st)
     /\ timers st' !! next_timer st
        = Some (mkTimer sessionId
                  (match r with
                   | inl nextDelay => Z.max 0 nextDelay
                   | inr _ => DEFAULT_POLL_INTERVAL_MS
                   end)))
  /\ dom (monitors st') = dom (monitors st)
  /\ (forall e, r = inr e ->
        In (EvError (playbackSyncError sessionId) e) (trace st')
        /\ timers st' !! next_timer st
           = Some (mkTimer sessionId DEFAULT_POLL_INTERVAL_MS)).
Proof.
  intros Hm Hp Hio Hz Hne.
  destruct (pollSession_pass sessionId zone env st m Hm Hp Hio Hz Hne)
    as (_ & Hmon & Htimer & Htrace).
  simpl in *.
  destruct (passBody config Date_parse sessionId zone env
              (mkPState (set_processing true m) [])) as [r s1] eqn:Hrun.
  pose proof (passBody_preserves _ _ _ _ _ _ Hrun) as (_ & Hzone & _ & _).
  simpl in *.
  split; [|split].
  - eexists. split; [rewrite Hmon; apply lookup_insert_eq|].
    simpl. split; [reflexivity|]. split; [congruence|].
    split; [reflexivity|exact Htimer].
  - rewrite Hmon. apply dom_insert_lookup_L. eauto.
  - intros e ->. split; [|exact Htimer].
    rewrite Htrace, !in_app_iff. right. right. left. reflexivity.
Qed.

Lemma alter_keeps_timeout (f : MonitorState -> MonitorState)
    (sessionId other : string) (ms : gmap string MonitorState) :
  (forall m, timeout (f m) = timeout m) ->
  timeout <$> (alter f sessionId ms !! other) = timeout <$> (ms !! other).
Proof.
  intros Hf. destruct (decide (sessionId = other)) as [->|Hd].
  - rewrite lookup_alter_eq. destruct (ms !! other) as [m|]; simpl;
      [rewrite Hf|]; reflexivity.
  - rewrite lookup_alter_ne by assumption. reflexivity.
Qed.

Lemma pollSession_consistent (sessionId : string) (env : Env) (st : Service) :
  timers_consistent st ->
  timers_consistent (pollSession config Date_parse sessionId env st).
Proof.
  intros Hc. unfold pollSession.
  destruct (monitors st !! sessionId) as [m|] eqn:Hm; [|assumption].
  destruct (processing m); [assumption|].
  destruct (io st); simpl; [|assumption].
  assert (Hnozone : timers_consistent
            (schedulePoll sessionId DEFAULT_POLL_INTERVAL_MS
               (emit (EvWarn (noZoneWarning sessionId)) st))).
  { apply schedulePoll_consistent.
    apply (consistent_ext st); [reflexivity..|assumption]. }
  destruct (soundZoneId m) as [zone|]; [|exact Hnozone].
  destruct (truthy (Some zone)); [|exact Hnozone].
  destruct (passBody config Date_parse sessionId zone env
              (mkPState (set_processing true m) [])) as [r s1] eqn:Hrun.
  pose proof (passBody_preserves _ _ _ _ _ _ Hrun) as (_ & _ & Htimeout & _).
  simpl in Htimeout.
  assert (Hcommit : timers_consistent (commit sessionId s1 st)).
  { apply (consistent_ext st); [reflexivity|reflexivity| |assumption].
    intros other. simpl. destruct (decide (sessionId = other)) as [<-|Hd].
    - rewrite lookup_insert_eq, Hm. simpl. congruence.
    - rewrite lookup_insert_ne by assumption. reflexivity. }
  match goal with
  | |- timers_consistent (with_monitors _ ?st2) =>
      assert (Hst2 : timers_consistent st2);
      [|apply (consistent_ext st2);
        [reflexivity|reflexivity| |exact Hst2];
        intros other; simpl; apply alter_keeps_timeout; reflexivity]
  end.
  destruct r as [nextDelay|e]; apply schedulePoll_consistent;
    [exact Hcommit|].
  apply (consistent_ext (commit sessionId s1 st)); [reflexivity..|exact Hcommit].
Qed.

Lemma timerFires_consistent (h : nat) (env : Env) (st : Service) :
  timers_consistent st ->
  timers_consistent (timerFires config Date_parse h env st).
Proof.
  intros Hc. unfold timerFires.
  destruct (timers st !! h) as [t|] eqn:Hh; [|assumption].
  apply pollSession_consistent.
  destruct Hc as (Hc & Ha).
  destruct (Hc _ _ Hh) as (m & Hm & Ht).
  split; simpl.
  - intros h' t' H.
    destruct (decide (h = h')) as [->|Hd];
      [rewrite lookup_delete_eq in H; discriminate|].
    rewrite lookup_delete_ne in H by assumption.
    destruct (Hc _ _ H) as (m' & Hm' & Ht').
    exists m'. split; [|assumption].
    rewrite lookup_alter_ne; [assumption|].
    intros Heq. rewrite <- Heq in Hm'. congruence.
  - intros sid m' h' H Ht'.
    destruct (decide (timer_session t = sid)) as [<-|Hd].
    + rewrite lookup_alter_eq, Hm in H. injection H as <-. discriminate Ht'.
    + rewrite lookup_alter_ne in H by assumption. eauto.
Qed.

(** Every reachable state keeps its timers and monitors consistent, hence
    at most one pending timer per session. *)
Lemma reachable_consistent (st : Service) :
  reachable config Date_parse st -> timers_consistent st /\ single_timer st.
Proof.
  intros Hr.
  assert (Hc : timers_consistent st).
  { induction Hr.
    - split; intros *; simpl; rewrite lookup_empty; discriminate.
    - apply setSocketServer_consistent. assumption.
    - apply ensureMonitor_consistent. assumption.
    - apply requestImmediateSync_consistent. assumption.
    - apply updateSoundZone_consistent. assumption.
    - apply stopMonitor_consistent. assumption.
    - apply timerFires_consistent. assumption. }
  split; [exact Hc|apply consistent_single; exact Hc].
Qed.

(** Monitoring goes on: when the pending timer of a monitored session
    fires, the pass it starts, failed or not, leaves the session monitored. *)
Lemma tick_keeps_monitoring (sessionId zone : string) (env : Env) (st : Service)
    (h : nat) (d : Z) :
  monitored sessionId zone st ->
  timers st !! h = Some (mkTimer sessionId d) ->
  monitored sessionId zone (timerFires config Date_parse h env st).
Proof.
  intros (Hio & Hne & m & h0 & d0 & Hm & Hp & Hz & Ht & Hpending) Hh.
  unfold timerFires. rewrite Hh. simpl.
  set (st1 := mkService (io st)
                (alter (set_timeout None) sessionId (monitors st))
                (delete h (timers st)) (next_timer st) (trace st)).
  assert (Hm1 : monitors st1 !! sessionId = Some (set_timeout None m))
    by (simpl; rewrite lookup_alter_eq, Hm; reflexivity).
  destruct (pollSession_pass sessionId zone env st1 (set_timeout None m)
              Hm1 Hp Hio Hz Hne) as (Hio' & Hmon & Htimer & _).
  simpl in Hio', Hmon, Htimer.
  destruct (passBody config Date_parse sessionId zone env
              (mkPState (set_processing true (set_timeout None m)) []))
    as [r s1] eqn:Hrun.
  pose proof (passBody_preserves _ _ _ _ _ _ Hrun) as (_ & Hzone & _ & _).
  simpl in *.
  split; [exact Hio'|]. split; [exact Hne|].
  eexists _, (next_timer st), _.
  split; [rewrite Hmon; apply lookup_insert_eq|].
  simpl. split; [reflexivity|]. split; [congruence|].
  split; [reflexivity|exact Htimer].
Qed.

End WithConfig.


Lemma failed_pass_rearms_witness :
  In (EvError (playbackSyncError "s1") provider_down)
     (trace (pollSession no_defaults parse_epoch "s1"
               (answering (inr provider_down) empty_view) zoned_service))
  /\ timers (pollSession no_defaults parse_epoch "s1"
               (answering (inr provider_down) empty_view) zoned_service)
     !! next_timer zoned_service
     = Some (mkTimer "s1" DEFAULT_POLL_INTERVAL_MS).
Proof.
  refine (proj2 (proj2 (failed_pass_rearms no_defaults parse_epoch "s1" "zone-A"
            (answering (inr provider_down) empty_view) zoned_service
            (mkMonitor "host" (Some "zone-A"%string) None false None None None)
            _ _ _ _ _)) provider_down _).
  - vm_compute. reflexivity.
  - reflexivity.
  - reflexivity.
  - reflexivity.
  - discriminate.
  - apply passBody_provider_error. reflexivity.
Defined.

End PassProps.

(** ** Credit-gated queue mutations *)

Module HandlersProps.
Import JS Controller Handlers HandlersSpec JSFacts.

#[local] Arguments truthy : simpl never.
#[local] Arguments seq : simpl never.
#[local] Arguments String.concat : simpl never.

Lemma count_app (p : Event -> bool) (tr1 tr2 : list Event) :
  count p (tr1 ++ tr2) = (count p tr1 + count p tr2)%nat.
Proof. unfold count. rewrite filter_app, length_app. reflexivity. Qed.

Lemma count_cons (p : Event -> bool) (ev : Event) (tr : list Event) :
  count p (ev :: tr) = ((if p ev then 1 else 0) + count p tr)%nat.
Proof.
  unfold count. destruct (p ev) eqn:Hp.
  - rewrite filter_cons_True by assumption. reflexivity.
  - rewrite filter_cons_False by congruence. reflexivity.
Qed.

Lemma count_nil (p : Event -> bool) : count p [] = 0%nat.
Proof. reflexivity. Qed.

Lemma count_session_events (p : Event -> bool) (tr : list Event) :
  (forall ev, isSessionEvent ev = true -> p ev = false) ->
  Forall (fun ev => isSessionEvent ev = true) tr ->
  count p tr = 0%nat.
Proof.
  intros Hp. induction 1 as [|ev tr Hev _ IH]; [reflexivity|].
  rewrite count_cons, (Hp ev Hev), IH. reflexivity.
Qed.

Lemma count_pos_In (p : Event -> bool) (tr : list Event) :
  (0 < count p tr)%nat -> exists ev, In ev tr /\ p ev = true.
Proof.
  induction tr as [|ev tr IH]; [rewrite count_nil; lia|].
  rewrite count_cons. destruct (p ev) eqn:Hp.
  - intros _. exists ev. split; [left; reflexivity|assumption].
  - intros H. destruct (IH H) as (ev' & Hin & Hp'). exists ev'.
    split; [right; assumption|assumption].
Qed.

Ltac run_handler :=
  unfold runHandler, try_catch, addResolved, chargeGuest, addCatch,
    emitQueueState, spendCredits, addCredits, call, settle, bind, emit,
    setSpent, getSpent, setActorCredits, getActorCredits, when, ret, throw,
    respond, accepted;
  simpl.

Ltac count_events :=
  repeat first [rewrite count_app | rewrite count_cons | rewrite count_nil];
  simpl.

Ltac run_vote :=
  unfold runHandler, try_catch, castVote, queueService_vote, beforeChange,
    voteCatch, emitQueueState, spendCredits, addCredits, call, settle, bind,
    emit, setSpent, getSpent, setActorCredits, getActorCredits, when, ret,
    throw, respond;
  simpl.

Ltac run_remove :=
  unfold runHandler, try_catch, removeCatch, emitQueueState, addCredits, call,
    settle, bind, emit, setSpent, getSpent, setActorCredits, getActorCredits,
    when, ret, throw, respond;
  simpl.

(** *** The handlers always answer *)

Lemma try_catch_answers (c : H Response) (handler : Error -> H Response)
    (s : HState) :
  (forall e s', answers (handler e s')) -> answers (try_catch c handler s).
Proof.
  intros Hh. unfold try_catch. destruct (c s) as [[r|e|r] s'].
  - exists r. left. reflexivity.
  - apply Hh.
  - exists r. right. reflexivity.
Qed.

Lemma addCatch_answers (env : AddEnv) (e : Error) (s : HState) :
  answers (addCatch env e s).
Proof.
  unfold addCatch. run_handler. destruct e as [st msg|msg]; simpl.
  - eexists. right. reflexivity.
  - destruct (h_spent s) as [[amount user]|]; simpl.
    + destruct (a_refund env); simpl; eexists; left; reflexivity.
    + eexists. left. reflexivity.
Qed.

Lemma voteCatch_answers (env : VoteEnv) (e : Error) (s : HState) :
  answers (voteCatch env e s).
Proof.
  unfold voteCatch. run_vote.
  destruct (h_spent s) as [[amount user]|]; simpl.
  - destruct (v_refund env); simpl; destruct e; simpl; eexists;
      first [left; reflexivity | right; reflexivity].
  - destruct e; simpl; eexists; first [left; reflexivity | right; reflexivity].
Qed.

Lemma removeCatch_answers (e : Error) (s : HState) : answers (removeCatch e s).
Proof. unfold removeCatch. run_remove. eexists. left. reflexivity. Qed.

Section WithCosts.
Variable GUEST_TRACK_COST : Z.
Variable VOTE_REACTION_COST : Z.
Variable defaultSoundZone : option string.

Lemma resolveSessionActor_frame (req : Request) (sessionId : string)
    (env : ActorEnv) (s s' : HState) (o : Outcome (string + Context)) :
  resolveSessionActor defaultSoundZone req sessionId env s = (o, s') ->
  h_spent s' = h_spent s
  /\ h_actorCredits s' = h_actorCredits s
  /\ (forall r, o <> Return r)
  /\ exists added, h_trace s' = h_trace s ++ added
                   /\ Forall (fun ev => isSessionEvent ev = true) added.
Proof.
  unfold resolveSessionActor, bind, call, emit, settle, ret, throw.
  destruct (e_getSession env) as [[session|]|e]; simpl.
  2,3: intros [= <- <-]; simpl; (repeat split; try discriminate);
       eexists; (split; [reflexivity|]); repeat constructor.
  destruct (isActive session); simpl.
  2: intros [= <- <-]; simpl; (repeat split; try discriminate);
     eexists; (split; [reflexivity|]); repeat constructor.
  destruct (seq (sessionUserId req) (Some (hostId session))); simpl.
  1: intros [= <- <-]; simpl; (repeat split; try discriminate);
     eexists; (split; [reflexivity|]); repeat constructor.
  destruct (guestSessionEntry req) as [gid|]; simpl.
  2: intros [= <- <-]; simpl; (repeat split; try discriminate);
     eexists; (split; [reflexivity|]); repeat constructor.
  destruct (e_getGuestById env) as [[guest|]|e]; simpl.
  2,3: intros [= <- <-]; simpl; (repeat split; try discriminate);
       rewrite <- ?app_assoc; eexists; (split; [reflexivity|]);
       repeat constructor.
  destruct (bool_decide (guestSessionId guest = sessionId)); simpl.
  2: intros [= <- <-]; simpl; (repeat split; try discriminate);
     rewrite <- ?app_assoc; eexists; (split; [reflexivity|]);
     repeat constructor.
  destruct (truthy (Some (guestRecordId guest))); simpl;
    intros [= <- <-]; simpl; (repeat split; try discriminate);
    rewrite <- ?app_assoc; eexists; (split; [reflexivity|]);
    repeat constructor.
Qed.


(** *** [add] by a guest *)

Lemma add_resolved (req : Request) (sessionId : string) (content : Content)
    (env : AddEnv) (context : Context) (s0 : HState) :
  truthy (c_id content) = true ->
  truthy (c_name content) = true ->
  resolveSessionActor defaultSoundZone req sessionId (a_actor env) h_init
  = (Val (inr context), s0) ->
  exists tr0,
    s0 = mkHState tr0 None None
    /\ Forall (fun ev => isSessionEvent ev = true) tr0
    /\ add GUEST_TRACK_COST defaultSoundZone req sessionId (Some content) env
       = runHandler
           (try_catch
              (addResolved GUEST_TRACK_COST req sessionId content context env)
              (addCatch env))
           (mkHState tr0 None None).
Proof.
  intros Hid Hname Hctx.
  destruct (resolveSessionActor_frame _ _ _ _ _ _ Hctx)
    as (Hsp & Hac & _ & added & Htr & Hall).
  destruct s0 as [tr0 sp0 ac0]. simpl in Hsp, Hac, Htr. subst sp0 ac0 tr0.
  exists added. split; [reflexivity|]. split; [assumption|].
  unfold add, runHandler, try_catch, addBody. rewrite Hid, Hname. simpl.
  unfold bind at 1. simpl. unfold bind at 1.
  change (mkHState [] None None) with h_init. rewrite Hctx. reflexivity.
Qed.

Lemma add_ready_resolved (req : Request) (sessionId : string) (content : Content)
    (env : AddEnv) (context : Context) (s0 : HState) (clerkUserId : string) :
  guest_ready defaultSoundZone req sessionId content env context s0 clerkUserId ->
  exists tr0,
    s0 = mkHState tr0 None None
    /\ Forall (fun ev => isSessionEvent ev = true) tr0
    /\ add GUEST_TRACK_COST defaultSoundZone req sessionId (Some content) env
       = runHandler
           (try_catch
              (addResolved GUEST_TRACK_COST req sessionId content context env)
              (addCatch env))
           (mkHState tr0 None None).
Proof.
  intros (Hid & Hname & Hctx & _). apply add_resolved; assumption.
Qed.

(** X16.  The compensation protocol of [add] for a guest, for every failure
    that is not itself a ledger error: one spend, before any queue write; a
    failed spend is answered with the rejection and writes nothing; a
    failure after the spend is followed by exactly one credit of the track
    cost to the spender, whose own failure is only logged; success credits
    nothing. *)
Lemma add_guest_protocol (req : Request) (sessionId : string) (content : Content)
    (env : AddEnv) (context : Context) (s0 : HState) (clerkUserId : string) :
  guest_ready defaultSoundZone req sessionId content env context s0 clerkUserId ->
  let run := add GUEST_TRACK_COST defaultSoundZone req sessionId (Some content) env in
  let tr := h_trace (snd run) in
  count isSpend tr = 1%nat
  /\ (count isQueueWrite tr <= 1)%nat
  /\ (count isQueueWrite tr = 1%nat ->
      exists pre post,
        tr = pre ++ EvSpend clerkUserId GUEST_TRACK_COST true :: post
        /\ count isQueueWrite pre = 0%nat)
  /\ (forall e, a_spend env = inr e ->
        count isQueueWrite tr = 0%nat /\ count isCredit tr = 0%nat
        /\ fst run = addRejection e)
  /\ (forall credits msg,
        a_spend env = inl credits ->
        processingFailure env = Some (OtherError msg) ->
        count isCredit tr = 1%nat
        /\ count (isCreditOf clerkUserId GUEST_TRACK_COST) tr = 1%nat
        /\ fst run = addRejection (OtherError msg)
        /\ (forall refundError, a_refund env = inr refundError ->
              In (EvLog "Failed to refund credits after queue error:" refundError)
                 tr))
  /\ (forall credits,
        a_spend env = inl credits -> processingFailure env = None ->
        count isCredit tr = 0%nat
        /\ exists item view,
             fst run = ok (BAdded item RoleGuest view (Some credits))).
Proof.
  intros Hready.
  destruct (add_ready_resolved _ _ _ _ _ _ _ Hready)
    as (tr0 & -> & Hall & Hrun).
  destruct Hready as (_ & _ & _ & Hrole & Hexpl & Hauth & Hne).
  simpl. rewrite Hrun. clear Hrun.
  assert (Hs0 : count isSpend tr0 = 0%nat)
    by (apply count_session_events; [intros []; simpl; congruence|assumption]).
  assert (Hq0 : count isQueueWrite tr0 = 0%nat)
    by (apply count_session_events; [intros []; simpl; congruence|assumption]).
  assert (Hc0 : count isCredit tr0 = 0%nat)
    by (apply count_session_events; [intros []; simpl; congruence|assumption]).
  assert (Hco0 : count (isCreditOf clerkUserId GUEST_TRACK_COST) tr0 = 0%nat)
    by (apply count_session_events; [intros []; simpl; congruence|assumption]).
  unfold processingFailure. run_handler.
  rewrite Hrole, Hexpl, Hauth, (truthy_nonempty _ Hne). simpl.
  destruct (a_spend env) as [credits|[st msg|msg]] eqn:Hspend; simpl.
  - destruct (a_addToQueue env) as [item|[st msg|msg]] eqn:Hadd; simpl.
    + destruct (a_emit env) as [view|[st msg|msg]] eqn:Hemit; simpl.
      * count_events. rewrite Hs0, Hq0, Hc0.
        split; [reflexivity|]. split; [lia|]. split.
        { intros _. exists (tr0 ++ [EvEnsureMonitor sessionId
                                    (hostId (ctx_session context))
                                    (ctx_soundZoneId context)]).
          eexists. split; [rewrite <- !app_assoc; reflexivity|].
          count_events. rewrite Hq0. reflexivity. }
        split; [intros e [=]|]. split; [intros c m _ [=]|].
        intros c [= <-] _. split; [reflexivity|]. eauto.
      * count_events. rewrite Hs0, Hq0.
        split; [reflexivity|]. split; [lia|]. split.
        { intros _. exists (tr0 ++ [EvEnsureMonitor sessionId
                                    (hostId (ctx_session context))
                                    (ctx_soundZoneId context)]).
          eexists. split; [rewrite <- !app_assoc; reflexivity|].
          count_events. rewrite Hq0. reflexivity. }
        split; [intros e [=]|]. split; [intros c m _ [=]|]. intros c _ [=].
      * destruct (a_refund env) as [back|refundError] eqn:Hrefund; simpl;
          count_events; rewrite Hs0, Hq0, Hc0, Hco0;
          rewrite (bool_decide_eq_true_2 (clerkUserId = clerkUserId) eq_refl),
            (bool_decide_eq_true_2 (GUEST_TRACK_COST = GUEST_TRACK_COST) eq_refl);
          simpl;
          (split; [reflexivity|]); (split; [lia|]);
          (split;
           [intros _;
            exists (tr0 ++ [EvEnsureMonitor sessionId
                              (hostId (ctx_session context))
                              (ctx_soundZoneId context)]);
            eexists; split; [rewrite <- !app_assoc; reflexivity|];
            count_events; rewrite Hq0; reflexivity|]);
          (split; [intros e [=]|]); (split; [|intros c _ [=]]);
          intros c m _ [= <-];
          (split; [reflexivity|]); (split; [reflexivity|]);
          (split; [reflexivity|]); intros re [= <-];
          rewrite !in_app_iff; simpl; auto 10.
    + count_events. rewrite Hs0, Hq0.
      split; [reflexivity|]. split; [lia|]. split.
      { intros _. exists (tr0 ++ [EvEnsureMonitor sessionId
                                  (hostId (ctx_session context))
                                  (ctx_soundZoneId context)]).
        eexists. split; [rewrite <- !app_assoc; reflexivity|].
        count_events. rewrite Hq0. reflexivity. }
      split; [intros e [=]|]. split; [intros c m _ [=]|]. intros c _ [=].
    + destruct (a_refund env) as [back|refundError] eqn:Hrefund; simpl;
        count_events; rewrite Hs0, Hq0, Hc0, Hco0;
        rewrite (bool_decide_eq_true_2 (clerkUserId = clerkUserId) eq_refl),
          (bool_decide_eq_true_2 (GUEST_TRACK_COST = GUEST_TRACK_COST) eq_refl);
        simpl;
        (split; [reflexivity|]); (split; [lia|]);
        (split;
         [intros _;
          exists (tr0 ++ [EvEnsureMonitor sessionId
                            (hostId (ctx_session context))
                            (ctx_soundZoneId context)]);
          eexists; split; [rewrite <- !app_assoc; reflexivity|];
          count_events; rewrite Hq0; reflexivity|]);
        (split; [intros e [=]|]); (split; [|intros c _ [=]]);
        intros c m _ [= <-];
        (split; [reflexivity|]); (split; [reflexivity|]);
        (split; [reflexivity|]); intros re [= <-];
        rewrite !in_app_iff; simpl; auto 10.
  - count_events. rewrite Hs0, Hq0, Hc0.
    split; [reflexivity|]. split; [lia|]. split; [intros [=]|].
    split; [intros e [= <-]; auto|]. split; [intros c m [=]|intros c [=]].
  - count_events. rewrite Hs0, Hq0, Hc0.
    split; [reflexivity|]. split; [lia|]. split; [intros [=]|].
    split; [intros e [= <-]; auto|]. split; [intros c m [=]|intros c [=]].
Qed.

(** *** [vote] *)

Lemma session_events_are_lookups (tr : list Event) :
  Forall (fun ev => isSessionEvent ev = true) tr ->
  Forall (fun ev => isLookupEvent ev = true) tr.
Proof.
  intros H. eapply Forall_impl; [exact H|].
  intros []; simpl; congruence.
Qed.

Lemma count_lookup_events (p : Event -> bool) (tr : list Event) :
  (forall ev, isLookupEvent ev = true -> p ev = false) ->
  Forall (fun ev => isLookupEvent ev = true) tr ->
  count p tr = 0%nat.
Proof.
  intros Hp. induction 1 as [|ev tr Hev _ IH]; [reflexivity|].
  rewrite count_cons, (Hp ev Hev), IH. reflexivity.
Qed.

Lemma ledgerDelta_app (user : string) (tr1 tr2 : list Event) :
  ledgerDelta user (tr1 ++ tr2) = ledgerDelta user tr1 + ledgerDelta user tr2.
Proof.
  induction tr1 as [|ev tr1 IH]; [reflexivity|].
  destruct ev as [| | | |u a [|]|u a [|]| | | | | | | |]; simpl;
    try exact IH; rewrite IH; lia.
Qed.

Lemma ledgerDelta_lookups (user : string) (tr : list Event) :
  Forall (fun ev => isLookupEvent ev = true) tr -> ledgerDelta user tr = 0.
Proof.
  induction 1 as [|ev tr Hev _ IH]; [reflexivity|].
  destruct ev; simpl in Hev; try discriminate Hev; exact IH.
Qed.

Lemma resolveClerkUserId_frame (req : Request) (context : Context)
    (env : VoteEnv) (s s' : HState) (o : Outcome (option string)) :
  resolveClerkUserId req context env s = (o, s') ->
  h_spent s' = h_spent s
  /\ h_actorCredits s' = h_actorCredits s
  /\ exists added, h_trace s' = h_trace s ++ added
                   /\ Forall (fun ev => isLookupEvent ev = true) added.
Proof.
  unfold resolveClerkUserId, bind, call, emit, settle, ret, throw.
  destruct (ctx_role context).
  - intros [= <- <-]. do 2 (split; [reflexivity|]).
    exists []. rewrite app_nil_r. auto.
  - destruct (ctx_actor context) as [u|g].
    + intros [= <- <-]. do 2 (split; [reflexivity|]).
      exists []. rewrite app_nil_r. auto.
    + destruct (truthy (Some g)).
      * simpl. destruct (v_guestLookup env) as [guest|e]; simpl;
          intros [= <- <-]; simpl; (do 2 (split; [reflexivity|]));
          eexists; (split; [reflexivity|]); repeat constructor.
      * intros [= <- <-]. do 2 (split; [reflexivity|]).
        exists []. rewrite app_nil_r. auto.
Qed.

Lemma vote_ready_resolved (req : Request) (queueItemId : string) (voteType : Z)
    (env : VoteEnv) (queueItem : QueueItemWithSession) (context : Context)
    (s1 : HState) (clerkUserId : string) :
  vote_ready defaultSoundZone req queueItemId voteType env queueItem context s1 clerkUserId ->
  exists tr1,
    s1 = mkHState tr1 None None
    /\ Forall (fun ev => isLookupEvent ev = true) tr1
    /\ vote VOTE_REACTION_COST defaultSoundZone req queueItemId voteType env
       = runHandler
           (try_catch
              (castVote VOTE_REACTION_COST req queueItemId voteType queueItem
                        (ctx_actor context) (Some clerkUserId) env)
              (voteCatch env))
           (mkHState tr1 None None).
Proof.
  intros (Htype & Hitem & (s0 & Hctx & Hclerk) & _).
  destruct (resolveSessionActor_frame _ _ _ _ _ _ Hctx)
    as (Hsp & Hac & _ & added & Htr & Hall).
  destruct (resolveClerkUserId_frame _ _ _ _ _ _ Hclerk)
    as (Hsp' & Hac' & added' & Htr' & Hall').
  destruct s0 as [tr0 sp0 ac0]. destruct s1 as [tr1 sp1 ac1].
  simpl in *. subst sp0 ac0 tr0 sp1 ac1 tr1.
  eexists. split; [reflexivity|]. split.
  { apply Forall_app. split; [|assumption].
    constructor; [reflexivity|]. apply session_events_are_lookups. assumption. }
  unfold vote, runHandler, try_catch, voteBody.
  assert (Hcheck : negb (bool_decide (voteType = 1))
                   && negb (bool_decide (voteType = -1)) = false).
  { destruct Htype as [-> | ->]; reflexivity. }
  rewrite Hcheck. unfold bind at 1. unfold call, bind at 1, emit. simpl.
  rewrite Hitem. simpl. unfold bind at 1. rewrite Hctx.
  unfold bind at 1. rewrite Hclerk. reflexivity.
Qed.

Lemma vote_spend_in_callback (req : Request) (queueItemId : string)
    (voteType : Z) (env : VoteEnv) (queueItem : QueueItemWithSession)
    (context : Context) (s1 : HState) (clerkUserId : string) :
  vote_ready defaultSoundZone req queueItemId voteType env queueItem context s1 clerkUserId ->
  let tr := h_trace (snd (vote VOTE_REACTION_COST defaultSoundZone req
                            queueItemId voteType env)) in
  (forall e, v_store env = StoreFails e -> count isSpend tr = 0%nat)
  /\ (forall intent commit, v_store env = StoreDecides intent commit ->
        (intent = "add"%string ->
           count isSpend tr = 1%nat
           /\ exists pre post,
                tr = pre ++ EvBeforeChange intent
                         :: EvSpend clerkUserId VOTE_REACTION_COST
                                    (accepted (v_spend env)) :: post
                /\ count isSpend pre = 0%nat)
        /\ (intent <> "add"%string -> count isSpend tr = 0%nat)).
Proof.
  intros Hready.
  destruct (vote_ready_resolved _ _ _ _ _ _ _ _ Hready)
    as (tr1 & -> & Hall & Hrun).
  destruct Hready as (_ & _ & _ & Hne).
  simpl. rewrite Hrun. clear Hrun.
  assert (Hs1 : count isSpend tr1 = 0%nat)
    by (apply count_lookup_events; [intros []; simpl; congruence|assumption]).
  run_vote. rewrite (truthy_nonempty _ Hne). simpl.
  split.
  - intros e ->. simpl. destruct e; simpl; count_events; rewrite Hs1; reflexivity.
  - intros intent commit ->. simpl. split.
    + intros ->. simpl.
      assert (Hpre : count isSpend
                (tr1 ++ [EvVote queueItemId (ctx_actor context) voteType]) = 0%nat)
        by (count_events; rewrite Hs1; reflexivity).
      destruct (v_spend env) as [credits|e]; simpl.
      * destruct (seq (Some clerkUserId) (authUserId req)); simpl;
          destruct commit as [result|e]; simpl;
          repeat match goal with
                 | |- context [if ?b then _ else _] => destruct b; simpl
                 | |- context [match ?o with inl _ => _ | inr _ => _ end] =>
                     destruct o; simpl
                 | |- context [match ?e with CreditError _ _ => _ | OtherError _ => _ end] =>
                     destruct e; simpl
                 end;
          (split; [count_events; rewrite Hs1; reflexivity|]);
          eexists (tr1 ++ [EvVote queueItemId (ctx_actor context) voteType]), _;
          (split; [rewrite <- !app_assoc; reflexivity|exact Hpre]).
      * destruct e; simpl;
          (split; [count_events; rewrite Hs1; reflexivity|]);
          eexists (tr1 ++ [EvVote queueItemId (ctx_actor context) voteType]), _;
          (split; [rewrite <- !app_assoc; reflexivity|exact Hpre]).
    + intros Hother. rewrite (bool_decide_eq_false_2 _ Hother). simpl.
      destruct commit as [result|e]; simpl;
        repeat match goal with
               | |- context [if ?b then _ else _] => destruct b; simpl
               | |- context [match ?o with inl _ => _ | inr _ => _ end] =>
                   destruct o; simpl
               | |- context [match ?e with CreditError _ _ => _ | OtherError _ => _ end] =>
                   destruct e; simpl
               end;
        count_events; rewrite Hs1; reflexivity.
Qed.

Lemma vote_removal_credited (req : Request) (queueItemId : string)
    (voteType : Z) (env : VoteEnv) (queueItem : QueueItemWithSession)
    (context : Context) (s1 : HState) (clerkUserId : string)
    (intent : string) (result : VoteResult) :
  vote_ready defaultSoundZone req queueItemId voteType env queueItem context s1 clerkUserId ->
  decides env intent result ->
  (intent = "add"%string -> accepted (v_spend env) = true) ->
  action result = "removed"%string ->
  In (EvCredit clerkUserId VOTE_REACTION_COST (accepted (v_creditRemoved env)))
     (h_trace (snd (vote VOTE_REACTION_COST defaultSoundZone req
                      queueItemId voteType env))).
Proof.
  intros Hready Hstore Hspend Hremoved. unfold decides in Hstore.
  destruct (vote_ready_resolved _ _ _ _ _ _ _ _ Hready)
    as (tr1 & -> & Hall & Hrun).
  destruct Hready as (_ & _ & _ & Hne).
  rewrite Hrun. clear Hrun.
  run_vote. rewrite (truthy_nonempty _ Hne), Hstore. simpl.
  destruct (bool_decide (intent = "add"%string)) eqn:Hadd; simpl.
  - apply bool_decide_eq_true in Hadd. specialize (Hspend Hadd).
    destruct (v_spend env) as [credits|e]; [|discriminate Hspend]. simpl.
    destruct (seq (Some clerkUserId) (authUserId req)); simpl;
    rewrite Hremoved; simpl;
    repeat match goal with
           | |- context [if ?b then _ else _] => destruct b; simpl
           | |- context [match ?o with inl _ => _ | inr _ => _ end] =>
               destruct o; simpl
           | |- context [match ?e with CreditError _ _ => _ | OtherError _ => _ end] =>
               destruct e; simpl
           end;
      rewrite !in_app_iff; simpl; auto 10.
  - rewrite Hremoved. simpl.
    repeat match goal with
           | |- context [if ?b then _ else _] => destruct b; simpl
           | |- context [match ?o with inl _ => _ | inr _ => _ end] =>
               destruct o; simpl
           | |- context [match ?e with CreditError _ _ => _ | OtherError _ => _ end] =>
               destruct e; simpl
           end;
      rewrite !in_app_iff; simpl; auto 10.
Qed.

Lemma vote_ledger_delta (req : Request) (queueItemId : string)
    (voteType : Z) (env : VoteEnv) (queueItem : QueueItemWithSession)
    (context : Context) (s1 : HState) (clerkUserId : string)
    (intent : string) (result : VoteResult) :
  vote_ready defaultSoundZone req queueItemId voteType env queueItem context s1 clerkUserId ->
  decides env intent result ->
  (intent = "add"%string -> accepted (v_spend env) = true) ->
  (action result = "removed"%string -> accepted (v_creditRemoved env) = true) ->
  accepted (v_emit env) = true ->
  ledgerDelta clerkUserId
    (h_trace (snd (vote VOTE_REACTION_COST defaultSoundZone req
                     queueItemId voteType env)))
  = (if bool_decide (intent = "add"%string) then - VOTE_REACTION_COST else 0)
    + (if bool_decide (action result = "removed"%string)
       then VOTE_REACTION_COST else 0).
Proof.
  intros Hready Hstore Hspend Hcredit Hemit. unfold decides in Hstore.
  destruct (vote_ready_resolved _ _ _ _ _ _ _ _ Hready)
    as (tr1 & -> & Hall & Hrun).
  destruct Hready as (_ & _ & _ & Hne).
  rewrite Hrun. clear Hrun.
  pose proof (ledgerDelta_lookups clerkUserId tr1 Hall) as Hd1.
  run_vote. rewrite (truthy_nonempty _ Hne), Hstore. simpl.
  destruct (v_emit env) as [view|e3]; [|discriminate Hemit].
  assert (Hfin : forall b : bool, (if b then 0 else 0) = 0)
    by (intros []; reflexivity).
  destruct (bool_decide (intent = "add"%string)) eqn:Hi; simpl.
  - apply bool_decide_eq_true in Hi. specialize (Hspend Hi).
    destruct (v_spend env) as [c1|e1]; [|discriminate Hspend]. simpl.
    destruct (seq (Some clerkUserId) (authUserId req)); simpl;
      destruct (bool_decide (action result = "removed"%string)) eqn:Ha; simpl;
      try (apply bool_decide_eq_true in Ha; specialize (Hcredit Ha);
           destruct (v_creditRemoved env) as [c2|e2]; [|discriminate Hcredit];
           simpl);
      rewrite !ledgerDelta_app, Hd1; simpl;
      rewrite ?(bool_decide_eq_true_2 (clerkUserId = clerkUserId) eq_refl); lia.
  - destruct (bool_decide (action result = "removed"%string)) eqn:Ha; simpl;
      try (apply bool_decide_eq_true in Ha; specialize (Hcredit Ha);
           destruct (v_creditRemoved env) as [c2|e2]; [|discriminate Hcredit];
           simpl;
           destruct (seq (Some clerkUserId) (authUserId req)); simpl);
      rewrite !ledgerDelta_app, Hd1; simpl;
      rewrite ?(bool_decide_eq_true_2 (clerkUserId = clerkUserId) eq_refl); lia.
Qed.

(** C2: for a voter with a resolved ledger identity the vote cost is spent
    inside the store's [beforeChange] callback exactly when the decided
    intent is [add]; when the store reports the completed action as
    [removed] the same amount is credited back to that identity; and an
    added reaction followed by a vote reported as removed leaves the
    voter's ledger where it was. *)
Theorem vote_credit_protocol (req req' : Request) (queueItemId queueItemId' : string)
    (voteType voteType' : Z) (env env' : VoteEnv)
    (queueItem queueItem' : QueueItemWithSession) (context context' : Context)
    (s1 s1' : HState) (clerkUserId : string) :
  vote_ready defaultSoundZone req queueItemId voteType env queueItem context s1 clerkUserId ->
  vote_ready defaultSoundZone req' queueItemId' voteType' env' queueItem' context' s1' clerkUserId ->
  let tr := h_trace (snd (vote VOTE_REACTION_COST defaultSoundZone req
                            queueItemId voteType env)) in
  let tr' := h_trace (snd (vote VOTE_REACTION_COST defaultSoundZone req'
                             queueItemId' voteType' env')) in
  (forall e, v_store env = StoreFails e -> count isSpend tr = 0%nat)
  /\ (forall intent commit, v_store env = StoreDecides intent commit ->
        (intent = "add"%string ->
           count isSpend tr = 1%nat
           /\ exists pre post,
                tr = pre ++ EvBeforeChange intent
                         :: EvSpend clerkUserId VOTE_REACTION_COST
                                    (accepted (v_spend env)) :: post
                /\ count isSpend pre = 0%nat)
        /\ (intent <> "add"%string -> count isSpend tr = 0%nat))
  /\ (forall intent result,
        decides env intent result ->
        (intent = "add"%string -> accepted (v_spend env) = true) ->
        action result = "removed"%string ->
        In (EvCredit clerkUserId VOTE_REACTION_COST
                     (accepted (v_creditRemoved env))) tr)
  /\ (forall added intent' removed,
        decides env "add" added -> action added <> "removed"%string ->
        decides env' intent' removed -> intent' <> "add"%string ->
        action removed = "removed"%string ->
        accepted (v_spend env) = true -> accepted (v_emit env) = true ->
        accepted (v_creditRemoved env') = true -> accepted (v_emit env') = true ->
        ledgerDelta clerkUserId tr = - VOTE_REACTION_COST
        /\ ledgerDelta clerkUserId tr' = VOTE_REACTION_COST
        /\ ledgerDelta clerkUserId (tr ++ tr') = 0).
Proof.
  intros Hready Hready'. simpl.
  destruct (vote_spend_in_callback _ _ _ _ _ _ _ _ Hready) as (Hfail & Hdecide).
  split; [exact Hfail|]. split; [exact Hdecide|]. split.
  - intros intent result. apply vote_removal_credited with (1 := Hready).
  - intros added intent' removed Hadd Hnot Hrem Hnadd Hremoved Hs He Hc' He'.
    pose proof (vote_ledger_delta _ _ _ _ _ _ _ _ _ _ Hready Hadd
                  (fun _ => Hs) (fun H => False_ind _ (Hnot H)) He) as H1.
    pose proof (vote_ledger_delta _ _ _ _ _ _ _ _ _ _ Hready' Hrem
                  (fun H => False_ind _ (Hnadd H)) (fun _ => Hc') He') as H2.
    rewrite (bool_decide_eq_true_2 _ eq_refl),
      (bool_decide_eq_false_2 _ Hnot) in H1.
    rewrite (bool_decide_eq_false_2 _ Hnadd),
      (bool_decide_eq_true_2 _ Hremoved) in H2.
    rewrite ledgerDelta_app, H1, H2. lia.
Qed.

(** *** Who pays *)

Lemma add_host_free (req : Request) (sessionId : string) (content : Content)
    (env : AddEnv) (context : Context) (s0 : HState) :
  host_ready defaultSoundZone req sessionId content env context s0 ->
  count isSpend
    (h_trace (snd (add GUEST_TRACK_COST defaultSoundZone req sessionId
                     (Some content) env))) = 0%nat.
Proof.
  intros (Hid & Hname & Hctx & Hrole).
  destruct (add_resolved _ _ _ _ _ _ Hid Hname Hctx) as (tr0 & -> & Hall & Hrun).
  rewrite Hrun. clear Hrun.
  assert (Hs0 : count isSpend tr0 = 0%nat)
    by (apply count_session_events; [intros []; simpl; congruence|assumption]).
  run_handler. rewrite Hrole.
  repeat match goal with
         | |- context [if ?b then _ else _] => destruct b; simpl
         | |- context [match ?o with inl _ => _ | inr _ => _ end] =>
             destruct o; simpl
         | |- context [match ?e with CreditError _ _ => _ | OtherError _ => _ end] =>
             destruct e; simpl
         end;
    count_events; rewrite Hs0; reflexivity.
Qed.

Lemma resolveClerkUserId_host (req : Request) (context : Context)
    (env : VoteEnv) (s : HState) :
  ctx_role context = RoleHost ->
  resolveClerkUserId req context env s = (Val (authUserId req), s).
Proof. intros Hrole. unfold resolveClerkUserId. rewrite Hrole. reflexivity. Qed.

(** C10: whoever votes, host or guest, a vote whose decided intent is [add]
    spends the vote cost from the voter's resolved ledger identity; for the
    host that identity is the authenticated user id of the request; whereas
    a host adding a track spends nothing. *)
Theorem vote_cost_charged_to_any_role (req : Request) (queueItemId : string)
    (voteType : Z) (env : VoteEnv) (queueItem : QueueItemWithSession)
    (context : Context) (s1 : HState) (clerkUserId : string)
    (commit : Result VoteResult)
    (addReq : Request) (sessionId : string) (content : Content)
    (addEnv : AddEnv) (addContext : Context) (s0 : HState) :
  vote_ready defaultSoundZone req queueItemId voteType env queueItem context s1 clerkUserId ->
  v_store env = StoreDecides "add" commit ->
  host_ready defaultSoundZone addReq sessionId content addEnv addContext s0 ->
  In (EvSpend clerkUserId VOTE_REACTION_COST (accepted (v_spend env)))
     (h_trace (snd (vote VOTE_REACTION_COST defaultSoundZone req
                      queueItemId voteType env)))
  /\ (ctx_role context = RoleHost -> authUserId req = Some clerkUserId)
  /\ count isSpend
       (h_trace (snd (add GUEST_TRACK_COST defaultSoundZone addReq sessionId
                        (Some content) addEnv))) = 0%nat.
Proof.
  intros Hready Hstore Hhost.
  split; [|split; [|exact (add_host_free _ _ _ _ _ _ Hhost)]].
  - destruct (vote_spend_in_callback _ _ _ _ _ _ _ _ Hready) as (_ & Hdecide).
    destruct (Hdecide _ _ Hstore) as (Hadd & _).
    destruct (Hadd eq_refl) as (_ & pre & post & -> & _).
    apply in_or_app. right. right. left. reflexivity.
  - intros Hrole.
    destruct Hready as (_ & _ & (s0' & _ & Hclerk) & _).
    rewrite (resolveClerkUserId_host _ _ _ _ Hrole) in Hclerk.
    congruence.
Qed.

(** *** [remove] *)

Lemma refundTarget_frame (queueItem : QueueItemWithSession) (env : RemoveEnv)
    (s s' : HState) (o : Outcome (option string)) :
  refundTarget queueItem env s = (o, s') ->
  h_spent s' = h_spent s
  /\ h_actorCredits s' = h_actorCredits s
  /\ exists added, h_trace s' = h_trace s ++ added
                   /\ Forall (fun ev => isRefundLookup ev = true) added.
Proof.
  unfold refundTarget, try_catch, bind, call, emit, settle, ret, throw.
  destruct (negb (truthy (qi_addedByGuestClerkUserId queueItem))
            && truthy (qi_addedByGuestId queueItem)); simpl.
  - destruct (r_guestLookup env) as [guest|e]; simpl;
      intros [= <- <-]; simpl; (do 2 (split; [reflexivity|]));
      rewrite <- ?app_assoc; eexists; (split; [reflexivity|]);
      repeat constructor.
  - intros [= <- <-]. do 2 (split; [reflexivity|]).
    exists []. rewrite app_nil_r. auto.
Qed.

Lemma refundTarget_with_refund (queueItem : QueueItemWithSession)
    (env : RemoveEnv) (r : Result CreditState) :
  refundTarget queueItem (with_refund env r) = refundTarget queueItem env.
Proof. reflexivity. Qed.

Lemma remove_ready_with_refund (req : Request) (queueItemId : string)
    (env : RemoveEnv) (queueItem : QueueItemWithSession) (context : Context)
    (s1 : HState) (guestUser : string) (r : Result CreditState) :
  remove_ready defaultSoundZone req queueItemId env queueItem context s1 guestUser ->
  remove_ready defaultSoundZone req queueItemId (with_refund env r) queueItem context s1 guestUser.
Proof. intros H. exact H. Qed.

(** The rest of [remove] once the refund target is known. *)
Lemma remove_ready_resolved (req : Request) (queueItemId : string)
    (env : RemoveEnv) (queueItem : QueueItemWithSession) (context : Context)
    (s1 : HState) (guestUser : string) :
  remove_ready defaultSoundZone req queueItemId env queueItem context s1 guestUser ->
  exists tr1,
    s1 = mkHState tr1 None None
    /\ count isCredit tr1 = 0%nat
    /\ count isRemoval tr1 = 1%nat
    /\ remove GUEST_TRACK_COST defaultSoundZone req queueItemId env
       = runHandler
           (try_catch
              (when (truthy (Some guestUser))
                 (try_catch
                    (let* credits :=
                       addCredits guestUser GUEST_TRACK_COST (r_refund env) in
                     when (truthy (authUserId req)
                           && seq (authUserId req) (Some guestUser))
                          (setActorCredits (Some credits)))
                    (fun refundError =>
                       emit (EvLog "Failed to refund credits after queue removal:"
                                   refundError))) ;;
               when (isActive (qi_session queueItem))
                 (emit (EvEnsureMonitor (qi_sessionId queueItem)
                          (hostId (qi_session queueItem))
                          (if truthy (soundtrackZoneId (qi_session queueItem))
                           then soundtrackZoneId (qi_session queueItem)
                           else defaultSoundZone))) ;;
               let* state :=
                 emitQueueState (qi_sessionId queueItem) (r_emit env) in
               emit (EvRequestImmediateSync (qi_sessionId queueItem)) ;;
               let* actorCredits := getActorCredits in
               ret (ok (BRemoved state actorCredits)))
              removeCatch)
           (mkHState tr1 None None).
Proof.
  intros (Hitem & Hremove & (s0 & Hctx & Htarget) & _).
  destruct (resolveSessionActor_frame _ _ _ _ _ _ Hctx)
    as (Hsp & Hac & _ & added & Htr & Hall).
  destruct (refundTarget_frame _ _ _ _ _ Htarget)
    as (Hsp' & Hac' & added' & Htr' & Hall').
  destruct s0 as [tr0 sp0 ac0]. destruct s1 as [tr1 sp1 ac1].
  simpl in *. subst sp0 ac0 tr0 sp1 ac1 tr1.
  eexists. split; [reflexivity|].
  assert (Hc : forall p : Event -> bool,
            (forall ev, isSessionEvent ev = true -> p ev = false) ->
            (forall ev, isRefundLookup ev = true -> p ev = false) ->
            p (EvGetQueueItem queueItemId) = false ->
            count p (((EvGetQueueItem queueItemId :: added)
                      ++ [EvRemoveFromQueue queueItemId (ctx_actor context)])
                     ++ added')
            = if p (EvRemoveFromQueue queueItemId (ctx_actor context))
              then 1%nat else 0%nat).
  { intros p Hp1 Hp2 Hp3. count_events. rewrite Hp3.
    rewrite (count_session_events p added Hp1 Hall).
    assert (Hadded' : count p added' = 0%nat).
    { clear -Hp2 Hall'. induction Hall' as [|ev tr Hev _ IH]; [reflexivity|].
      rewrite count_cons, (Hp2 ev Hev), IH. reflexivity. }
    rewrite Hadded'. destruct (p _); lia. }
  split; [|split].
  - rewrite Hc; [reflexivity|intros []; simpl; congruence..|reflexivity].
  - rewrite Hc; [reflexivity|intros []; simpl; congruence..|reflexivity].
  - unfold remove, runHandler, try_catch at 1, removeBody.
    unfold bind at 1. unfold call, bind at 1, emit. simpl.
    rewrite Hitem. simpl. unfold bind at 1. rewrite Hctx.
    unfold bind at 1. unfold call, bind at 1, emit. simpl.
    rewrite Hremove. simpl. unfold afterRemoval. unfold bind at 1.
    simpl in Htarget. rewrite Htarget. reflexivity.
Qed.

Lemma remove_response (req : Request) (queueItemId : string) (env : RemoveEnv)
    (queueItem : QueueItemWithSession) (context : Context) (s1 : HState)
    (guestUser : string) :
  remove_ready defaultSoundZone req queueItemId env queueItem context s1 guestUser ->
  (status (fst (remove GUEST_TRACK_COST defaultSoundZone req queueItemId env)),
   withoutCredits
     (body (fst (remove GUEST_TRACK_COST defaultSoundZone req queueItemId env))))
  = removalAnswer (r_emit env).
Proof.
  intros Hready.
  destruct (remove_ready_resolved _ _ _ _ _ _ _ Hready)
    as (tr1 & -> & _ & _ & Hrun).
  destruct Hready as (_ & _ & _ & Hne).
  rewrite Hrun. clear Hrun. unfold removalAnswer.
  run_remove. rewrite (truthy_nonempty _ Hne). simpl.
  destruct (r_refund env) as [credits|e]; simpl;
    repeat match goal with
           | |- context [if ?b then _ else _] => destruct b; simpl
           end;
    destruct (r_emit env) as [view|e']; simpl; reflexivity.
Qed.

(** C3: after a successful removal of a track added by a guest whose ledger
    identity resolves, the track cost is credited to that guest, once and
    after the removal; the status and the content of the answer do not
    depend on the outcome of the refund; a failed refund is logged and, the
    queue broadcast permitting, the answer is still the success response. *)
Theorem remove_refund_protocol (req : Request) (queueItemId : string)
    (env : RemoveEnv) (queueItem : QueueItemWithSession) (context : Context)
    (s1 : HState) (guestUser : string) :
  remove_ready defaultSoundZone req queueItemId env queueItem context s1 guestUser ->
  let run := remove GUEST_TRACK_COST defaultSoundZone req queueItemId in
  let tr := h_trace (snd (run env)) in
  count isCredit tr = 1%nat
  /\ (exists pre post,
        tr = pre ++ EvCredit guestUser GUEST_TRACK_COST (accepted (r_refund env))
                 :: post
        /\ count isRemoval pre = 1%nat
        /\ count isCredit pre = 0%nat)
  /\ (forall refund',
        status (fst (run (with_refund env refund'))) = status (fst (run env))
        /\ withoutCredits (body (fst (run (with_refund env refund'))))
           = withoutCredits (body (fst (run env))))
  /\ (forall e, r_refund env = inr e ->
        In (EvLog "Failed to refund credits after queue removal:" e) tr
        /\ forall view, r_emit env = inl view ->
             fst (run env) = ok (BRemoved view None))
  /\ (forall view, r_emit env = inl view ->
        status (fst (run env)) = 200
        /\ withoutCredits (body (fst (run env))) = BRemoved view None).
Proof.
  intros Hready. simpl.
  pose proof (remove_response _ _ _ _ _ _ _ Hready) as Hanswer.
  split; [|split; [|split; [|split]]].
  - destruct (remove_ready_resolved _ _ _ _ _ _ _ Hready)
      as (tr1 & -> & Hc1 & Hr1 & Hrun).
    destruct Hready as (_ & _ & _ & Hne).
    rewrite Hrun. run_remove. rewrite (truthy_nonempty _ Hne). simpl.
    destruct (r_refund env) as [credits|e]; simpl;
      repeat match goal with
             | |- context [if ?b then _ else _] => destruct b; simpl
             | |- context [match ?o with inl _ => _ | inr _ => _ end] =>
                 destruct o; simpl
             end;
      count_events; rewrite Hc1; reflexivity.
  - destruct (remove_ready_resolved _ _ _ _ _ _ _ Hready)
      as (tr1 & -> & Hc1 & Hr1 & Hrun).
    destruct Hready as (_ & _ & _ & Hne).
    rewrite Hrun. run_remove. rewrite (truthy_nonempty _ Hne). simpl.
    exists tr1.
    destruct (r_refund env) as [credits|e]; simpl;
      repeat match goal with
             | |- context [if ?b then _ else _] => destruct b; simpl
             | |- context [match ?o with inl _ => _ | inr _ => _ end] =>
                 destruct o; simpl
             end;
      eexists; (split; [rewrite <- ?app_assoc; reflexivity|]); auto.
  - intros refund'.
    pose proof (remove_response _ _ _ _ _ _ _
                  (remove_ready_with_refund _ _ _ _ _ _ _ refund' Hready))
      as Hanswer'.
    simpl in Hanswer'. rewrite <- Hanswer in Hanswer'.
    injection Hanswer' as Hst Hbody. auto.
  - intros e He.
    destruct (remove_ready_resolved _ _ _ _ _ _ _ Hready)
      as (tr1 & -> & Hc1 & Hr1 & Hrun).
    destruct Hready as (_ & _ & _ & Hne).
    rewrite Hrun. run_remove. rewrite (truthy_nonempty _ Hne), He. simpl.
    split.
    + repeat match goal with
             | |- context [if ?b then _ else _] => destruct b; simpl
             | |- context [match ?o with inl _ => _ | inr _ => _ end] =>
                 destruct o; simpl
             end;
        rewrite !in_app_iff; simpl; auto 10.
    + intros view ->. simpl.
      destruct (isActive (qi_session queueItem)); reflexivity.
  - intros view Hview. rewrite Hview in Hanswer.
    injection Hanswer as Hst Hbody. auto.
Qed.

End WithCosts.

(** *** Concrete requests *)


(** The same failure in [vote] is compensated: its [catch] clause refunds
    before it looks at the class of the error. *)
Lemma vote_ledger_error_after_spend_refunds
    (VOTE_REACTION_COST : Z) (defaultSoundZone : option string) :
  let run := vote VOTE_REACTION_COST defaultSoundZone guest_request "q1" 1
                  (voting (StoreDecides "add" (inr insufficient))) in
  fst run = mkResponse 402 (BError "Insufficient credits")
  /\ count isSpend (h_trace (snd run)) = 1%nat
  /\ count (isCreditOf "user-7" VOTE_REACTION_COST) (h_trace (snd run)) = 1%nat.
Proof.
  simpl. split; [reflexivity|]. split; [reflexivity|].
  match goal with
  | |- count _ ?t = _ => let tr := eval vm_compute in t in change t with tr
  end.
  count_events.
  rewrite (bool_decide_eq_true_2 (VOTE_REACTION_COST = VOTE_REACTION_COST) eq_refl).
  reflexivity.
Qed.

Lemma guest_vote_ready (cost : Z) (zone : option string) (voteType : Z)
    (store : StoreVote) :
  voteType = 1 \/ voteType = -1 ->
  vote_ready zone guest_request "q1" voteType (voting store) guest_item
    guest_context
    (mkHState [EvGetQueueItem "q1"; EvGetSession "s1"; EvGetGuest "g1";
               EvGetGuest "g1"] None None)
    "user-7".
Proof.
  intros Htype. split; [exact Htype|]. split; [reflexivity|]. split.
  - exists (mkHState [EvGetQueueItem "q1"; EvGetSession "s1"; EvGetGuest "g1"]
                     None None).
    split; vm_compute; reflexivity.
  - discriminate.
Defined.

Lemma host_vote_ready (zone : option string) (store : StoreVote) :
  vote_ready zone host_request "q1" 1 (voting store) guest_item host_context
    (mkHState [EvGetQueueItem "q1"; EvGetSession "s1"] None None) "user-1".
Proof.
  split; [left; reflexivity|]. split; [reflexivity|]. split.
  - exists (mkHState [EvGetQueueItem "q1"; EvGetSession "s1"] None None).
    split; vm_compute; reflexivity.
  - discriminate.
Defined.

Lemma host_add_ready (zone : option string) (env : AddEnv) :
  a_actor env = stores_answer ->
  host_ready zone host_request "s1" sample_content env host_context
    (mkHState [EvGetSession "s1"] None None).
Proof.
  intros Hactor. split; [reflexivity|]. split; [reflexivity|].
  split; [rewrite Hactor; vm_compute; reflexivity|reflexivity].
Defined.

Lemma vote_credit_protocol_witness :
  ledgerDelta "user-7"
    (h_trace (snd (vote 1 None guest_request "q1" 1
                     (voting (StoreDecides "add" (inl added_vote)))))
     ++ h_trace (snd (vote 1 None guest_request "q1" (-1)
                        (voting (StoreDecides "remove" (inl removed_vote))))))
  = 0.
Proof.
  refine (proj2 (proj2 (proj2 (proj2 (proj2
    (vote_credit_protocol 1 None guest_request guest_request "q1" "q1" 1 (-1)
       (voting (StoreDecides "add" (inl added_vote)))
       (voting (StoreDecides "remove" (inl removed_vote)))
       guest_item guest_item guest_context guest_context _ _ "user-7"
       (guest_vote_ready 1 None 1 _ (or_introl eq_refl))
       (guest_vote_ready 1 None (-1) _ (or_intror eq_refl)))))
    added_vote "remove"%string removed_vote _ _ _ _ _ _ _ _ _))).
  all: first [reflexivity | discriminate].
Defined.

Lemma vote_cost_charged_to_any_role_witness :
  In (EvSpend "user-1" 1 true)
     (h_trace (snd (vote 1 None host_request "q1" 1
                      (voting (StoreDecides "add" (inl added_vote))))))
  /\ count isSpend
       (h_trace (snd (add 1 None host_request "s1" (Some sample_content)
                        (adding (inl sample_item))))) = 0%nat.
Proof.
  pose proof (vote_cost_charged_to_any_role 1 1 None host_request "q1" 1
                (voting (StoreDecides "add" (inl added_vote))) guest_item
                host_context _ "user-1" (inl added_vote)
                host_request "s1" sample_content (adding (inl sample_item))
                host_context _
                (host_vote_ready None _) eq_refl
                (host_add_ready None (adding (inl sample_item)) eq_refl)) as (Hspend & _ & Hfree).
  split; [exact Hspend|exact Hfree].
Defined.

Lemma remove_refund_protocol_witness :
  status (fst (remove 1 None host_request "q1"
                 (removing (inr (OtherError "ledger unavailable")))))
  = 200.
Proof.
  refine (proj1 (proj2 (proj2 (proj2 (proj2
    (remove_refund_protocol 1 None host_request "q1"
       (removing (inr (OtherError "ledger unavailable"))) guest_item
       host_context
       (mkHState [EvGetQueueItem "q1"; EvGetSession "s1";
                  EvRemoveFromQueue "q1" (ActorUser "host-1")] None None)
       "user-7" _)))) sample_view eq_refl)).
  split; [reflexivity|]. split; [reflexivity|]. split.
  - exists (mkHState [EvGetQueueItem "q1"; EvGetSession "s1"] None None).
    split; vm_compute; reflexivity.
  - discriminate.
Defined.

End HandlersProps.

(** ** The life cycle of a monitor *)

Module LifecycleProps.
Import JS Soundtrack Progress Playback Pass PlaybackSpec PassSpec LifecycleSpec
  JSFacts PlaybackProps PassProps.

#[local] Arguments truthy : simpl never.

Lemma live_ext (st st' : Service) :
  timers st' = timers st ->
  (forall sessionId,
     timeout <$> (monitors st' !! sessionId) = timeout <$> (monitors st !! sessionId)) ->
  handles_live st -> handles_live st'.
Proof.
  intros Ht Hm Hl sid m' h Hm' Hh. rewrite Ht.
  specialize (Hm sid). rewrite Hm' in Hm.
  destruct (monitors st !! sid) as [m|] eqn:Hm0; [|discriminate Hm].
  apply (Hl sid m h); [assumption|]. simpl in Hm. congruence.
Qed.

Lemma wf_ext (st st' : Service) :
  timers st' = timers st ->
  next_timer st' = next_timer st ->
  (forall sessionId,
     timeout <$> (monitors st' !! sessionId) = timeout <$> (monitors st !! sessionId)) ->
  well_formed st -> well_formed st'.
Proof.
  intros Ht Hn Hm (Hc & Hl). split.
  - apply (consistent_ext st); assumption.
  - apply (live_ext st); assumption.
Qed.

Lemma empty_wf (io0 : bool) : well_formed (mkService io0 ∅ ∅ 0 []).
Proof.
  split; [split|].
  - intros h t H. simpl in H. rewrite lookup_empty in H. discriminate.
  - intros sid m h H. simpl in H. rewrite lookup_empty in H. discriminate.
  - intros sid m h H. simpl in H. rewrite lookup_empty in H. discriminate.
Qed.

Lemma schedulePoll_wf (sessionId : string) (delayMs : Z) (st : Service) :
  well_formed st -> well_formed (schedulePoll sessionId delayMs st).
Proof.
  intros (Hc & Hl). split; [apply schedulePoll_consistent; assumption|].
  destruct (monitors st !! sessionId) as [m|] eqn:Hm;
    [|rewrite schedulePoll_absent by assumption; exact Hl].
  destruct (schedulePoll_lookup sessionId delayMs st m Hm)
    as (Hmon & Hnew & _).
  intros sid m' h. rewrite Hmon.
  destruct (decide (sessionId = sid)) as [<-|Hd].
  - rewrite lookup_insert_eq. intros [= <-]. simpl. intros [= <-]. eauto.
  - rewrite lookup_insert_ne by assumption. intros Hm' Hh.
    destruct (Hl _ _ _ Hm' Hh) as (d & Hd').
    exists d. unfold schedulePoll. rewrite Hm. simpl.
    rewrite lookup_insert_ne
      by (pose proof (proj2 Hc _ _ _ Hm' Hh); lia).
    destruct (timeout m) as [h0|] eqn:Ht0; [|assumption].
    unfold clearTimeout. rewrite lookup_delete_ne; [assumption|].
    intros ->. destruct (Hl _ _ _ Hm Ht0) as (d0 & Hd0). congruence.
Qed.

Lemma setSocketServer_wf (st : Service) :
  well_formed st -> well_formed (setSocketServer st).
Proof. apply wf_ext; reflexivity. Qed.

Lemma requestImmediateSync_wf (sessionId : string) (delayMs : Z) (st : Service) :
  well_formed st -> well_formed (requestImmediateSync sessionId delayMs st).
Proof.
  intros Hw. unfold requestImmediateSync.
  destruct (monitors st !! sessionId) as [m|]; [|assumption].
  destruct (processing m); [assumption|apply schedulePoll_wf; assumption].
Qed.

Lemma update_monitor_wf (sessionId : string) (m m' : MonitorState) (st : Service) :
  monitors st !! sessionId = Some m -> timeout m' = timeout m ->
  well_formed st ->
  well_formed (with_monitors (<[sessionId := m']> (monitors st)) st).
Proof.
  intros Hm Ht. apply wf_ext; [reflexivity|reflexivity|].
  intros other. simpl. destruct (decide (sessionId = other)) as [<-|Hd].
  - rewrite lookup_insert_eq, Hm. simpl. congruence.
  - rewrite lookup_insert_ne by assumption. reflexivity.
Qed.

Lemma updateSoundZone_wf (sessionId : string) (zone : option string)
    (st : Service) :
  well_formed st -> well_formed (updateSoundZone sessionId zone st).
Proof.
  intros Hw. unfold updateSoundZone.
  destruct (monitors st !! sessionId) as [m|] eqn:Hm; [|assumption].
  apply requestImmediateSync_wf.
  apply (update_monitor_wf sessionId m); auto.
Qed.

Lemma stopMonitor_wf (sessionId : string) (st : Service) :
  well_formed st -> well_formed (stopMonitor sessionId st).
Proof.
  intros (Hc & Hl). split; [apply stopMonitor_consistent; assumption|].
  unfold stopMonitor.
  destruct (monitors st !! sessionId) as [m|] eqn:Hm; [|assumption].
  intros sid m' h. simpl.
  destruct (decide (sessionId = sid)) as [<-|Hd];
    [rewrite lookup_delete_eq; discriminate|].
  rewrite lookup_delete_ne by assumption. intros Hm' Hh.
  destruct (Hl _ _ _ Hm' Hh) as (d & Hd'). exists d.
  destruct (timeout m) as [h0|] eqn:Ht0; [|assumption].
  unfold clearTimeout. rewrite lookup_delete_ne; [assumption|].
  intros ->. destruct (Hl _ _ _ Hm Ht0) as (d0 & Hd0). congruence.
Qed.

Section WithConfig.
Variable config : Config.
Variable Date_parse : string -> option Z.

Lemma ensureMonitor_wf (sessionId hostId' : string) (zone : option string)
    (st : Service) :
  well_formed st -> well_formed (ensureMonitor config sessionId hostId' zone st).
Proof.
  intros Hw. unfold ensureMonitor.
  destruct (monitors st !! sessionId) as [m|] eqn:Hm.
  - match goal with
    | |- context [if ?b then _ else _] => destruct b
    end; [apply schedulePoll_wf|];
      apply (update_monitor_wf sessionId m); auto.
  - apply schedulePoll_wf. destruct Hw as (Hc & Hl). split.
    + apply with_monitors_fresh_consistent; auto.
    + intros sid m' h. simpl.
      destruct (decide (sessionId = sid)) as [<-|Hd].
      * rewrite lookup_insert_eq. intros [= <-]. discriminate.
      * rewrite lookup_insert_ne by assumption. apply Hl.
Qed.

Lemma pollSession_wf (sessionId : string) (env : Env) (st : Service) :
  well_formed st ->
  well_formed (pollSession config Date_parse sessionId env st).
Proof.
  intros Hw. unfold pollSession.
  destruct (monitors st !! sessionId) as [m|] eqn:Hm; [|assumption].
  destruct (processing m); [assumption|].
  destruct (io st); simpl; [|assumption].
  assert (Hnozone : well_formed
            (schedulePoll sessionId DEFAULT_POLL_INTERVAL_MS
               (emit (EvWarn (noZoneWarning sessionId)) st))).
  { apply schedulePoll_wf. apply (wf_ext st); [reflexivity..|assumption]. }
  destruct (soundZoneId m) as [zone|]; [|exact Hnozone].
  destruct (truthy (Some zone)); [|exact Hnozone].
  destruct (passBody config Date_parse sessionId zone env
              (mkPState (set_processing true m) [])) as [r s1] eqn:Hrun.
  pose proof (passBody_preserves _ _ _ _ _ _ _ _ Hrun) as (_ & _ & Htimeout & _).
  simpl in Htimeout.
  assert (Hcommit : well_formed (commit sessionId s1 st)).
  { apply (wf_ext st); [reflexivity|reflexivity| |assumption].
    intros other. simpl. destruct (decide (sessionId = other)) as [<-|Hd].
    - rewrite lookup_insert_eq, Hm. simpl. congruence.
    - rewrite lookup_insert_ne by assumption. reflexivity. }
  match goal with
  | |- well_formed (with_monitors _ ?st2) =>
      assert (Hst2 : well_formed st2);
      [|apply (wf_ext st2);
        [reflexivity|reflexivity| |exact Hst2];
        intros other; simpl; apply alter_keeps_timeout; reflexivity]
  end.
  destruct r as [nextDelay|e]; apply schedulePoll_wf; [exact Hcommit|].
  apply (wf_ext (commit sessionId s1 st)); [reflexivity..|exact Hcommit].
Qed.

Lemma timerFires_wf (h : nat) (env : Env) (st : Service) :
  well_formed st -> well_formed (timerFires config Date_parse h env st).
Proof.
  intros (Hc & Hl). unfold timerFires.
  destruct (timers st !! h) as [t|] eqn:Hh; [|split; assumption].
  apply pollSession_wf.
  assert (Hfired : timers_consistent
            (mkService (io st)
               (alter (set_timeout None) (timer_session t) (monitors st))
               (delete h (timers st)) (next_timer st) (trace st))).
  { pose proof (timerFires_consistent config Date_parse h env st Hc) as H.
    clear H. destruct Hc as (Hc1 & Hc2).
    destruct (Hc1 _ _ Hh) as (m & Hm & Ht).
    split; simpl.
    - intros h' t' H.
      destruct (decide (h = h')) as [->|Hd];
        [rewrite lookup_delete_eq in H; discriminate|].
      rewrite lookup_delete_ne in H by assumption.
      destruct (Hc1 _ _ H) as (m' & Hm' & Ht').
      exists m'. split; [|assumption].
      rewrite lookup_alter_ne; [assumption|].
      intros Heq. rewrite <- Heq in Hm'. congruence.
    - intros sid m' h' H Ht'.
      destruct (decide (timer_session t = sid)) as [<-|Hd].
      + rewrite lookup_alter_eq, Hm in H. injection H as <-. discriminate Ht'.
      + rewrite lookup_alter_ne in H by assumption. eauto. }
  split; [exact Hfired|].
  destruct (proj1 Hc _ _ Hh) as (m & Hm & Ht).
  intros sid m' h'. simpl.
  destruct (decide (timer_session t = sid)) as [<-|Hd].
  - rewrite lookup_alter_eq, Hm. intros [= <-]. discriminate.
  - rewrite lookup_alter_ne by assumption. intros Hm' Hh'.
    destruct (Hl _ _ _ Hm' Hh') as (d & Hd'). exists d.
    rewrite lookup_delete_ne; [assumption|].
    intros <-. rewrite Hh in Hd'. injection Hd' as ->. apply Hd. reflexivity.
Qed.

Lemma reachable_wf (st : Service) :
  reachable config Date_parse st -> well_formed st.
Proof.
  induction 1.
  - apply empty_wf.
  - apply setSocketServer_wf. assumption.
  - apply ensureMonitor_wf. assumption.
  - apply requestImmediateSync_wf. assumption.
  - apply updateSoundZone_wf. assumption.
  - apply stopMonitor_wf. assumption.
  - apply timerFires_wf. assumption.
Qed.

End WithConfig.

Lemma wf_not_pending (sessionId : string) (st : Service) :
  well_formed st -> monitors st !! sessionId = None ->
  ~ pending_for sessionId st.
Proof.
  intros (Hc & _) Hm (h & t & Ht & <-).
  destruct (proj1 Hc _ _ Ht) as (m & Hm' & _). congruence.
Qed.

Lemma wf_single (st : Service) : well_formed st -> single_timer st.
Proof. intros (Hc & _). apply consistent_single. assumption. Qed.

(** X1.  [stopMonitor] forgets the session and cancels its timer, leaves
    the timers of other sessions alone, and makes later calls for the
    session do nothing. *)
Theorem stopMonitor_spec (sessionId : string) (st : Service) :
  well_formed st ->
  monitors (stopMonitor sessionId st) = delete sessionId (monitors st)
  /\ ~ pending_for sessionId (stopMonitor sessionId st)
  /\ (forall h t, timer_session t <> sessionId ->
        timers (stopMonitor sessionId st) !! h = Some t
        <-> timers st !! h = Some t)
  /\ trace (stopMonitor sessionId st) = trace st
  /\ stopMonitor sessionId (stopMonitor sessionId st) = stopMonitor sessionId st
  /\ (forall delayMs,
        requestImmediateSync sessionId delayMs (stopMonitor sessionId st)
        = stopMonitor sessionId st)
  /\ (forall zone,
        updateSoundZone sessionId zone (stopMonitor sessionId st)
        = stopMonitor sessionId st).
Proof.
  intros Hw.
  assert (Hgone : monitors (stopMonitor sessionId st) !! sessionId = None).
  { unfold stopMonitor. destruct (monitors st !! sessionId) eqn:Hm;
      [simpl; apply lookup_delete_eq|assumption]. }
  split; [|split; [|split; [|split; [|split; [|split]]]]].
  - unfold stopMonitor. destruct (monitors st !! sessionId) eqn:Hm;
      [reflexivity|]. symmetry. apply delete_id. assumption.
  - apply wf_not_pending; [apply stopMonitor_wf|]; assumption.
  - intros h t Hother. unfold stopMonitor.
    destruct (monitors st !! sessionId) as [m|] eqn:Hm; [|reflexivity].
    simpl. destruct (timeout m) as [h0|] eqn:Ht0; [|reflexivity].
    unfold clearTimeout. destruct (decide (h0 = h)) as [->|Hd].
    + rewrite lookup_delete_eq. split; [discriminate|].
      intros Ht. destruct (proj2 Hw _ _ _ Hm Ht0) as (d & Hd).
      rewrite Hd in Ht. injection Ht as <-. contradiction Hother. reflexivity.
    + rewrite lookup_delete_ne by assumption. reflexivity.
  - unfold stopMonitor. destruct (monitors st !! sessionId); reflexivity.
  - unfold stopMonitor at 1. rewrite Hgone. reflexivity.
  - intros d. unfold requestImmediateSync. rewrite Hgone. reflexivity.
  - intros z. unfold updateSoundZone. rewrite Hgone. reflexivity.
Qed.

(** X2.  [updateSoundZone] does nothing for an unknown session; for a known
    one it stores the zone it is given, [null] included, and unless a pass is
    running replaces the session's timer by a single zero-delay one. *)
Theorem updateSoundZone_spec (sessionId : string) (zone : option string)
    (st : Service) :
  well_formed st ->
  (monitors st !! sessionId = None -> updateSoundZone sessionId zone st = st)
  /\ (forall m, monitors st !! sessionId = Some m ->
        exists m',
          monitors (updateSoundZone sessionId zone st) !! sessionId = Some m'
          /\ soundZoneId m' = zone
          /\ Playback.hostId m' = Playback.hostId m
          /\ processing m' = processing m
          /\ currentTrackId m' = currentTrackId m
          /\ awaitingTrackId m' = awaitingTrackId m
          /\ requestIssuedAt m' = requestIssuedAt m
          /\ (processing m = true ->
                timeout m' = timeout m
                /\ timers (updateSoundZone sessionId zone st) = timers st)
          /\ (processing m = false ->
                timeout m' = Some (next_timer st)
                /\ timers (updateSoundZone sessionId zone st) !! next_timer st
                   = Some (mkTimer sessionId 0)
                /\ forall h t,
                     timers (updateSoundZone sessionId zone st) !! h = Some t ->
                     timer_session t = sessionId -> h = next_timer st)).
Proof.
  intros Hw. split.
  - intros Hm. unfold updateSoundZone. rewrite Hm. reflexivity.
  - intros m Hm.
    set (st1 := with_monitors
                  (<[sessionId := set_soundZoneId zone m]> (monitors st)) st).
    assert (Hst : updateSoundZone sessionId zone st
                  = requestImmediateSync sessionId 0 st1).
    { unfold updateSoundZone. rewrite Hm. reflexivity. }
    assert (Hm1 : monitors st1 !! sessionId = Some (set_soundZoneId zone m)).
    { simpl. apply lookup_insert_eq. }
    assert (Hw1 : well_formed st1).
    { apply (update_monitor_wf sessionId m); auto. }
    rewrite Hst. destruct (processing m) eqn:Hp.
    + rewrite requestImmediateSync_noop
        by (intros (m1 & Hm1' & Hp1); rewrite Hm1 in Hm1';
            injection Hm1' as <-; simpl in Hp1; congruence).
      exists (set_soundZoneId zone m).
      repeat (split; [first [exact Hm1 | reflexivity | assumption]|]).
      split; [intros _; split; reflexivity|discriminate].
    + unfold requestImmediateSync. rewrite Hm1. simpl processing. rewrite Hp.
      destruct (schedulePoll_lookup sessionId 0 st1 _ Hm1)
        as (Hmon & Hnew & Hold).
      exists (set_timeout (Some (next_timer st1)) (set_soundZoneId zone m)).
      split; [rewrite Hmon; apply lookup_insert_eq|].
      do 2 (split; [reflexivity|]). split; [simpl; congruence|].
      do 3 (split; [reflexivity|]).
      split; [discriminate|]. intros _.
      split; [reflexivity|]. split; [exact Hnew|].
      intros h t Ht Hs.
      pose proof (schedulePoll_wf sessionId 0 st1 Hw1) as Hw2.
      destruct (proj1 (proj1 Hw2) _ _ Ht) as (m2 & Hm2 & Ht2).
      rewrite Hs, Hmon, lookup_insert_eq in Hm2. injection Hm2 as <-.
      simpl in Ht2. injection Ht2 as <-. reflexivity.
Qed.

Lemma monitored_wf : well_formed monitored_service.
Proof. apply ensureMonitor_wf. apply (empty_wf true). Qed.

Lemma stopMonitor_spec_witness :
  ~ pending_for "s1" (stopMonitor "s1" monitored_service).
Proof.
  exact (proj1 (proj2 (stopMonitor_spec "s1" monitored_service monitored_wf))).
Defined.

Lemma updateSoundZone_spec_witness :
  updateSoundZone "s2" None monitored_service = monitored_service.
Proof.
  refine (proj1 (updateSoundZone_spec "s2" None monitored_service monitored_wf) _).
  vm_compute. reflexivity.
Defined.

Lemma delays_ext (st st' : Service) :
  timers st' = timers st -> delays_nonneg st -> delays_nonneg st'.
Proof. intros Ht Hd h t. rewrite Ht. apply Hd. Qed.

Lemma schedulePoll_delays (sessionId : string) (delayMs : Z) (st : Service) :
  delays_nonneg st -> delays_nonneg (schedulePoll sessionId delayMs st).
Proof.
  intros Hd h t. unfold schedulePoll.
  destruct (monitors st !! sessionId) as [m|]; [|apply Hd]. simpl.
  destruct (decide (next_timer st = h)) as [->|Hne].
  - rewrite lookup_insert_eq. intros [= <-]. simpl. lia.
  - rewrite lookup_insert_ne by assumption.
    destruct (timeout m) as [h0|]; [|apply Hd].
    unfold clearTimeout. intros H. apply lookup_delete_Some in H as [_ H].
    revert H. apply Hd.
Qed.

Lemma requestImmediateSync_delays (sessionId : string) (delayMs : Z)
    (st : Service) :
  delays_nonneg st -> delays_nonneg (requestImmediateSync sessionId delayMs st).
Proof.
  intros Hd. unfold requestImmediateSync.
  destruct (monitors st !! sessionId) as [m|]; [|assumption].
  destruct (processing m); [assumption|apply schedulePoll_delays; assumption].
Qed.

Lemma stopMonitor_delays (sessionId : string) (st : Service) :
  delays_nonneg st -> delays_nonneg (stopMonitor sessionId st).
Proof.
  intros Hd. unfold stopMonitor.
  destruct (monitors st !! sessionId) as [m|]; [|assumption].
  intros h t. simpl. destruct (timeout m) as [h0|]; [|apply Hd].
  unfold clearTimeout. intros H. apply lookup_delete_Some in H as [_ H].
  revert H. apply Hd.
Qed.

Section Reachable.
Variable config : Config.
Variable Date_parse : string -> option Z.

Lemma pollSession_delays (sessionId : string) (env : Env) (st : Service) :
  delays_nonneg st ->
  delays_nonneg (pollSession config Date_parse sessionId env st).
Proof.
  intros Hd. unfold pollSession.
  destruct (monitors st !! sessionId) as [m|]; [|assumption].
  destruct (processing m); [assumption|].
  destruct (io st); simpl negb; cbv iota; [|assumption].
  assert (Hnozone : delays_nonneg
            (schedulePoll sessionId DEFAULT_POLL_INTERVAL_MS
               (emit (EvWarn (noZoneWarning sessionId)) st))).
  { apply schedulePoll_delays. exact Hd. }
  destruct (soundZoneId m) as [zone|]; [|exact Hnozone].
  destruct (truthy (Some zone)); [|exact Hnozone].
  destruct (passBody config Date_parse sessionId zone env
              (mkPState (set_processing true m) [])) as [r s1].
  apply (delays_ext (match r with
                     | inl nextDelay =>
                         schedulePoll sessionId nextDelay (commit sessionId s1 st)
                     | inr error =>
                         schedulePoll sessionId DEFAULT_POLL_INTERVAL_MS
                           (emit (EvError (playbackSyncError sessionId) error)
                              (commit sessionId s1 st))
                     end)); [reflexivity|].
  destruct r; apply schedulePoll_delays; exact Hd.
Qed.

Lemma reachable_delays (st : Service) :
  reachable config Date_parse st -> delays_nonneg st.
Proof.
  induction 1.
  - intros h t H. simpl in H. rewrite lookup_empty in H. discriminate.
  - exact IHreachable.
  - unfold ensureMonitor. destruct (monitors st !! sessionId) as [m|].
    + match goal with
      | |- context [if ?b then _ else _] => destruct b
      end; [apply schedulePoll_delays|]; exact IHreachable.
    + apply schedulePoll_delays. exact IHreachable.
  - apply requestImmediateSync_delays. assumption.
  - unfold updateSoundZone. destruct (monitors st !! sessionId) as [m|];
      [|assumption].
    apply requestImmediateSync_delays. exact IHreachable.
  - apply stopMonitor_delays. assumption.
  - unfold timerFires. destruct (timers st !! h) as [t|]; [|assumption].
    apply pollSession_delays. intros h' t'. simpl. intros Hl.
    apply lookup_delete_Some in Hl as [_ Hl]. revert Hl. apply IHreachable.
Qed.


End Reachable.


Section Ticks.
Variable config : Config.
Variable Date_parse : string -> option Z.

Lemma fired_wf (h : nat) (t : Timer) (st : Service) :
  well_formed st -> timers st !! h = Some t ->
  well_formed
    (mkService (io st)
       (alter (set_timeout None) (timer_session t) (monitors st))
       (delete h (timers st)) (next_timer st) (trace st)).
Proof.
  intros Hw Ht.
  pose proof (timerFires_wf config Date_parse h
                (answering (inl None) empty_view)
                (mkService false (monitors st) (timers st) (next_timer st)
                   (trace st))) as H.
  unfold timerFires in H. simpl in H. rewrite Ht in H.
  unfold pollSession in H. simpl in H.
  assert (Hw0 : well_formed
            (mkService false (monitors st) (timers st) (next_timer st)
               (trace st))).
  { apply (wf_ext st); [reflexivity..|exact Hw]. }
  specialize (H Hw0).
  destruct (alter (set_timeout None) (timer_session t) (monitors st)
              !! timer_session t) as [m|] eqn:Hm.
  - destruct (processing m);
      (eapply wf_ext; [| | |exact H]; [reflexivity..]).
  - eapply wf_ext; [| | |exact H]; reflexivity.
Qed.

(** X4.  Without a socket server a firing timer polls nothing and arms no
    new timer: the session stays registered but is no longer polled, also
    after [setSocketServer], until [ensureMonitor] or
    [requestImmediateSync] is called for it. *)
Theorem tick_without_socket_server (h : nat) (t : Timer) (m : MonitorState)
    (env : Env) (st : Service) :
  well_formed st ->
  io st = false ->
  timers st !! h = Some t ->
  monitors st !! timer_session t = Some m ->
  processing m = false ->
  trace (timerFires config Date_parse h env st) = trace st
  /\ monitors (timerFires config Date_parse h env st) !! timer_session t
     = Some (set_timeout None m)
  /\ ~ pending_for (timer_session t) (timerFires config Date_parse h env st)
  /\ ~ pending_for (timer_session t)
         (setSocketServer (timerFires config Date_parse h env st))
  /\ (forall host zone,
        pending_for (timer_session t)
          (ensureMonitor config (timer_session t) host zone
             (timerFires config Date_parse h env st)))
  /\ (forall delayMs,
        pending_for (timer_session t)
          (requestImmediateSync (timer_session t) delayMs
             (timerFires config Date_parse h env st))).
Proof.
  intros Hw Hio Ht Hm Hp.
  set (fired := mkService (io st)
                  (alter (set_timeout None) (timer_session t) (monitors st))
                  (delete h (timers st)) (next_timer st) (trace st)).
  assert (Hfm : monitors fired !! timer_session t = Some (set_timeout None m)).
  { simpl. rewrite lookup_alter_eq, Hm. reflexivity. }
  assert (Hst : timerFires config Date_parse h env st = fired).
  { unfold timerFires. rewrite Ht. fold fired. unfold pollSession.
    rewrite Hfm. simpl processing. rewrite Hp.
    replace (io fired) with false by (symmetry; exact Hio). reflexivity. }
  assert (Hwf : well_formed fired) by (apply fired_wf; assumption).
  assert (Hnone : forall st', timers st' = timers fired ->
                    ~ pending_for (timer_session t) st').
  { intros st' Heq (h' & t' & Ht' & Hs). rewrite Heq in Ht'.
    destruct (proj1 (proj1 Hwf) _ _ Ht') as (m' & Hm' & Hh').
    rewrite Hs, Hfm in Hm'. injection Hm' as <-. discriminate Hh'. }
  rewrite Hst. split; [reflexivity|]. split; [exact Hfm|].
  split; [apply Hnone; reflexivity|]. split; [apply Hnone; reflexivity|].
  split.
  - intros host zone. unfold ensureMonitor. rewrite Hfm. simpl.
    rewrite Hp. simpl.
    match goal with
    | |- pending_for _ (schedulePoll ?s ?d ?st1) =>
        destruct (schedulePoll_lookup s d st1
                    (set_soundZoneId (nullish zone (soundZoneId m))
                       (set_hostId host (set_timeout None m))))
          as (_ & Hnew & _); [simpl; apply lookup_insert_eq|];
        exists (next_timer st1); eexists; split; [exact Hnew|reflexivity]
    end.
  - intros d. unfold requestImmediateSync. rewrite Hfm. simpl processing.
    rewrite Hp.
    destruct (schedulePoll_lookup (timer_session t) d fired _ Hfm)
      as (_ & Hnew & _).
    exists (next_timer fired). eexists. split; [exact Hnew|reflexivity].
Qed.

(** X5.  A tick for a session that has no sound zone only logs a warning
    and re-arms the default interval: no provider or store call is made,
    the monitor is otherwise unchanged, and the session again has exactly
    one pending timer. *)
Theorem tick_without_zone (h : nat) (m : MonitorState) (sessionId : string)
    (env : Env) (st : Service) :
  well_formed st ->
  io st = true ->
  monitors st !! sessionId = Some m ->
  timeout m = Some h ->
  processing m = false ->
  truthy (soundZoneId m) = false ->
  trace (timerFires config Date_parse h env st)
  = trace st ++ [EvWarn (noZoneWarning sessionId)]
  /\ monitors (timerFires config Date_parse h env st) !! sessionId
     = Some (set_timeout (Some (next_timer st)) m)
  /\ timers (timerFires config Date_parse h env st) !! next_timer st
     = Some (mkTimer sessionId DEFAULT_POLL_INTERVAL_MS)
  /\ timers (timerFires config Date_parse h env st) !! h = None
  /\ (forall h' t', timers (timerFires config Date_parse h env st) !! h' = Some t' ->
        timer_session t' = sessionId -> h' = next_timer st).
Proof.
  intros Hw Hio Hm Hh Hp Hz.
  destruct (proj2 Hw _ _ _ Hm Hh) as (d & Ht).
  set (fired := mkService (io st)
                  (alter (set_timeout None) sessionId (monitors st))
                  (delete h (timers st)) (next_timer st) (trace st)).
  assert (Hfm : monitors fired !! sessionId = Some (set_timeout None m)).
  { simpl. rewrite lookup_alter_eq, Hm. reflexivity. }
  set (warned := emit (EvWarn (noZoneWarning sessionId)) fired).
  assert (Hst : timerFires config Date_parse h env st
                = schedulePoll sessionId DEFAULT_POLL_INTERVAL_MS warned).
  { unfold timerFires. rewrite Ht. simpl timer_session. fold fired.
    unfold pollSession. rewrite Hfm. simpl processing. rewrite Hp.
    replace (io fired) with true by (symmetry; exact Hio). simpl negb.
    cbv iota. simpl soundZoneId.
    destruct (soundZoneId m) as [z|]; [|reflexivity].
    rewrite Hz. reflexivity. }
  assert (Hwm : monitors warned !! sessionId = Some (set_timeout None m))
    by exact Hfm.
  assert (Hww : well_formed warned).
  { apply (wf_ext fired); [reflexivity..|].
    apply (fired_wf h (mkTimer sessionId d)); assumption. }
  destruct (schedulePoll_lookup sessionId DEFAULT_POLL_INTERVAL_MS warned _ Hwm)
    as (Hmon & Hnew & _ & _ & Htr).
  rewrite Hst. split; [rewrite Htr; reflexivity|].
  split; [rewrite Hmon; apply lookup_insert_eq|].
  split; [exact Hnew|].
  pose proof (schedulePoll_wf sessionId DEFAULT_POLL_INTERVAL_MS warned Hww)
    as Hw2.
  assert (Hone : forall h' t',
            timers (schedulePoll sessionId DEFAULT_POLL_INTERVAL_MS warned) !! h'
            = Some t' -> timer_session t' = sessionId -> h' = next_timer st).
  { intros h' t' Ht' Hs.
    destruct (proj1 (proj1 Hw2) _ _ Ht') as (m2 & Hm2 & Ht2).
    rewrite Hs, Hmon, lookup_insert_eq in Hm2. injection Hm2 as <-.
    simpl in Ht2. injection Ht2 as <-. reflexivity. }
  split; [|exact Hone].
  destruct (timers (schedulePoll sessionId DEFAULT_POLL_INTERVAL_MS warned) !! h)
    as [t'|] eqn:Hl; [|reflexivity].
  exfalso.
  destruct (proj1 (proj1 Hw2) _ _ Hl) as (m2 & Hm2 & Ht2).
  pose proof (proj2 (proj1 Hw) _ _ _ Hm Hh) as Hlt.
  assert (Hs : timer_session t' = sessionId).
  { unfold schedulePoll in Hl. rewrite Hwm in Hl. simpl in Hl.
    rewrite lookup_insert_ne in Hl by lia.
    rewrite lookup_delete_eq in Hl. discriminate Hl. }
  specialize (Hone _ _ Hl Hs). lia.
Qed.

End Ticks.

Lemma tick_without_socket_server_witness :
  trace (timerFires no_defaults parse_epoch 0
           (answering (inl None) empty_view) unplugged) = [].
Proof.
  refine (proj1 (tick_without_socket_server no_defaults parse_epoch 0
                   (mkTimer "s1" 0)
                   (mkMonitor "host" (Some "zone-A"%string) (Some 0%nat) false
                              None None None)
                   (answering (inl None) empty_view) unplugged _ _ _ _ _)).
  - apply ensureMonitor_wf. apply (empty_wf false).
  - reflexivity.
  - vm_compute. reflexivity.
  - vm_compute. reflexivity.
  - reflexivity.
Defined.

Lemma tick_without_zone_witness :
  timers (timerFires no_defaults parse_epoch 0
            (answering (inl None) empty_view) unzoned) !! 1%nat
  = Some (mkTimer "s1" DEFAULT_POLL_INTERVAL_MS).
Proof.
  refine (proj1 (proj2 (proj2 (tick_without_zone no_defaults parse_epoch 0
                   (mkMonitor "host" None (Some 0%nat) false None None None)
                   "s1" (answering (inl None) empty_view) unzoned
                   _ _ _ _ _ _)))).
  - apply ensureMonitor_wf. apply (empty_wf true).
  - reflexivity.
  - vm_compute. reflexivity.
  - reflexivity.
  - reflexivity.
  - reflexivity.
Defined.

End LifecycleProps.

(** ** The stages of a reconciliation pass *)

Module ReconcileProps.
Import JS Soundtrack Progress Playback Pass PlaybackSpec PassSpec LifecycleSpec
  ReconcileSpec JSFacts PlaybackProps PassProps LifecycleProps.

#[local] Arguments truthy : simpl never.
#[local] Arguments seq : simpl never.

Lemma pstate_eq (s : PState) (m : MonitorState) (tr : list Event) :
  ps_monitor s = m -> ps_trace s = tr -> s = mkPState m tr.
Proof. destruct s. simpl. congruence. Qed.

Section WithConfig.
Variable config : Config.
Variable Date_parse : string -> option Z.

Lemma detectTransition_inv (sessionId : string) (cur : option string)
    (q : QueueView) (env : Env) (s s' : PState) (r : Result QueueView) :
  detectTransition sessionId cur q env s = (r, s') ->
  exists added,
    ps_trace s' = ps_trace s ++ added
    /\ detected sessionId cur q env (ps_monitor s) r (ps_monitor s') added.
Proof.
  unfold detectTransition, detected, bind, getMonitor, call, modify, ret.
  destruct s as [m tr]. simpl.
  destruct (truthy (currentTrackId m)) eqn:Htr; simpl.
  - destruct (seq (currentTrackId m) cur) eqn:Hs; simpl.
    + intros [= <- <-]. exists []. rewrite app_nil_r.
      apply seq_true in Hs. auto 10.
    + apply seq_false in Hs. apply truthy_Some in Htr as (t & Ht & Hne).
      rewrite Ht. simpl. intros H.
      assert (Hcur : cur <> Some t) by congruence.
      destruct (e_markPlayed env) as [[|]|e] eqn:Hmark; simpl in H.
      * destruct (e_queueRefreshed env) as [q'|e] eqn:Href; simpl in H;
          injection H as <- <-; eexists; simpl;
          (split; [rewrite <- app_assoc; reflexivity|]);
          right; right; exists t; auto 10.
      * injection H as <- <-. eexists. simpl. split; [reflexivity|].
        right. right. exists t. auto 10.
      * injection H as <- <-. eexists. simpl. split; [reflexivity|].
        right. right. exists t. auto 10.
  - intros [= <- <-]. exists []. rewrite app_nil_r. auto 10.
Qed.

Lemma retryAssignment_inv (zone : string) (cur : option string) (env : Env)
    (s : PState) :
  exists s' added,
    retryAssignment zone cur env s = (inl tt, s')
    /\ ps_trace s' = ps_trace s ++ added
    /\ retried zone cur env (ps_monitor s) (ps_monitor s') added.
Proof.
  unfold retryAssignment, retried, bind, getMonitor, when, try_log, call,
    modify, ret.
  destruct s as [m tr]. simpl.
  assert (Hnone : exists s' added,
            (inl tt : Result unit, mkPState m tr) = (inl tt, s')
            /\ ps_trace s' = tr ++ added
            /\ ((added = [] /\ ps_monitor s' = m)
                \/ exists t issued,
                     awaitingTrackId m = Some t /\ t <> ""%string
                     /\ cur <> Some t
                     /\ requestIssuedAt m = Some issued
                     /\ CONTENT_REQUEST_TIMEOUT_MS < e_nowRetryCheck env - issued
                     /\ attempted retryLabel Retry zone t
                          (e_retrySet env) (e_retryPlay env) m
                          (set_requestIssuedAt (Some (e_nowRetry env)) m)
                          (ps_monitor s') added)).
  { exists (mkPState m tr), []. rewrite app_nil_r. auto. }
  destruct (truthy (awaitingTrackId m)) eqn:Htr; simpl; [|exact Hnone].
  apply truthy_Some in Htr as (t & Ht & Hne).
  destruct (negb (truthy cur) || negb (seq cur (awaitingTrackId m))) eqn:Hc;
    simpl; [|exact Hnone].
  destruct (requestIssuedAt m) as [issued|] eqn:Hi; [|exact Hnone].
  destruct (CONTENT_REQUEST_TIMEOUT_MS <? e_nowRetryCheck env - issued) eqn:Hlt;
    [|exact Hnone].
  apply Z.ltb_lt in Hlt.
  assert (Hcur : cur <> Some t).
  { apply orb_true_iff in Hc as [Hc|Hc]; apply negb_true_iff in Hc.
    - intros ->. rewrite truthy_nonempty in Hc by assumption. discriminate.
    - apply seq_false in Hc. congruence. }
  rewrite Ht. simpl.
  destruct (e_retrySet env) as [[]|e1] eqn:Hset; simpl.
  - destruct (e_retryPlay env) as [[]|e2] eqn:Hplay; simpl;
      eexists _, _; (split; [reflexivity|]); simpl;
      (split; [rewrite <- ?app_assoc; reflexivity|]);
      right; exists t, issued; unfold attempted;
      rewrite ?Hset, ?Hplay; auto 10.
  - eexists _, _; (split; [reflexivity|]); simpl;
      (split; [rewrite <- ?app_assoc; reflexivity|]);
      right; exists t, issued; unfold attempted; auto 10.
Qed.

Lemma assignNext_inv (zone : string) (cur : option string)
    (next : option QueueItem) (env : Env) (s : PState) :
  exists s' added,
    assignNext config zone cur next env s = (inl tt, s')
    /\ ps_trace s' = ps_trace s ++ added
    /\ advanced config zone cur next env (ps_monitor s) (ps_monitor s') added.
Proof.
  unfold assignNext, advanced, bind, getMonitor, when, try_log, call, modify,
    ret.
  destruct s as [m tr]. simpl.
  assert (Hnone : exists s' added,
            (inl tt : Result unit, mkPState m tr) = (inl tt, s')
            /\ ps_trace s' = tr ++ added
            /\ ((added = [] /\ ps_monitor s' = m)
                \/ (exists item,
                      next = Some item /\ spotifyTrackId item <> ""%string
                      /\ cur <> Some (spotifyTrackId item)
                      /\ awaitingTrackId m <> Some (spotifyTrackId item)
                      /\ attempted forwardLabel Forward zone (spotifyTrackId item)
                           (e_forwardSet env) (e_forwardPlay env) m
                           (set_requestIssuedAt (Some (e_nowForward env))
                              (set_awaitingTrackId (Some (spotifyTrackId item)) m))
                           (ps_monitor s') added)
                \/ (exists t,
                      next = None /\ truthy cur = false
                      /\ defaultContentId config = Some t /\ t <> ""%string
                      /\ awaitingTrackId m <> Some t
                      /\ attempted fallbackLabel Fallback zone t
                           (e_fallbackSet env) (e_fallbackPlay env) m
                           (set_requestIssuedAt (Some (e_nowFallback env))
                              (set_awaitingTrackId (Some t) m))
                           (ps_monitor s') added))).
  { exists (mkPState m tr), []. simpl. rewrite app_nil_r. auto. }
  destruct next as [item|].
  - destruct (truthy (Some (spotifyTrackId item))) eqn:Htr; [|exact Hnone].
    apply truthy_Some in Htr. destruct Htr as (t & [= <-] & Hne).
    destruct (seq cur (Some (spotifyTrackId item))) eqn:Hcur; simpl;
      [exact Hnone|].
    destruct (seq (awaitingTrackId m) (Some (spotifyTrackId item)))
      eqn:Haw; simpl; [exact Hnone|].
    apply seq_false in Hcur, Haw.
    destruct (e_forwardSet env) as [[]|e1] eqn:Hset; simpl.
    + destruct (e_forwardPlay env) as [[]|e2] eqn:Hplay; simpl;
        eexists _, _; (split; [reflexivity|]); simpl;
        (split; [rewrite <- ?app_assoc; reflexivity|]);
        right; left; exists item; unfold attempted;
        rewrite ?Hset, ?Hplay; auto 10.
    + eexists _, _; (split; [reflexivity|]); simpl;
        (split; [rewrite <- ?app_assoc; reflexivity|]);
        right; left; exists item; unfold attempted; auto 10.
  - destruct (truthy cur) eqn:Hcur; simpl; [exact Hnone|].
    destruct (truthy (defaultContentId config)) eqn:Hdef; simpl; [|exact Hnone].
    apply truthy_Some in Hdef. destruct Hdef as (t & Hdef & Hne).
    rewrite Hdef in Hnone |- *. simpl.
    destruct (seq (awaitingTrackId m) (Some t)) eqn:Haw; simpl;
      [exact Hnone|].
    apply seq_false in Haw.
    destruct (e_fallbackSet env) as [[]|e1] eqn:Hset; simpl.
    + destruct (e_fallbackPlay env) as [[]|e2] eqn:Hplay; simpl;
        eexists _, _; (split; [reflexivity|]); simpl;
        (split; [rewrite <- ?app_assoc; reflexivity|]);
        right; right; exists t; unfold attempted;
        rewrite ?Hset, ?Hplay; auto 10.
    + eexists _, _; (split; [reflexivity|]); simpl;
        (split; [rewrite <- ?app_assoc; reflexivity|]);
        right; right; exists t; unfold attempted; auto 10.
Qed.

Lemma resolveRequester_inv (sessionId : string) (cur : option string)
    (env : Env) (s s' : PState) (r : Result (option Requester)) :
  resolveRequester sessionId cur env s = (r, s') ->
  ps_monitor s' = ps_monitor s
  /\ exists added,
       ps_trace s' = ps_trace s ++ added
       /\ requested sessionId cur env r added.
Proof.
  unfold resolveRequester, requested, bind, call, ret.
  destruct (truthy cur) eqn:Hcur; simpl.
  - apply truthy_Some in Hcur as (t & -> & Hne). simpl.
    intros H.
    assert (Hs : ps_monitor s' = ps_monitor s
                 /\ ps_trace s' = ps_trace s ++ [EvRecentItem sessionId t]
                 /\ r = match e_recentItem env with
                        | inr e => inr e
                        | inl None => inl None
                        | inl (Some item) => inl (Some (requesterOf item))
                        end).
    { destruct (e_recentItem env) as [[item|]|e]; simpl in H.
      - unfold requesterOf.
        destruct (addedBy item), (addedByGuest item);
          injection H as <- <-; auto.
      - injection H as <- <-; auto.
      - injection H as <- <-; auto. }
    destruct Hs as (Hm & Ht & Hr). split; [exact Hm|].
    eexists. split; [exact Ht|]. right. exists t. auto.
  - intros [= <- <-]. split; [reflexivity|]. exists []. rewrite app_nil_r. auto.
Qed.

(** A pass either stops at one of its first two reads or runs the stages
    of [reconciled]. *)
Lemma passBody_run (sessionId zone : string) (env : Env) (s0 s1 : PState)
    (r : Result Z) :
  passBody config Date_parse sessionId zone env s0 = (r, s1) ->
  match e_nowPlaying env with
  | inr e =>
      r = inr e /\ ps_monitor s1 = ps_monitor s0
      /\ ps_trace s1 = ps_trace s0 ++ [EvGetNowPlaying zone]
  | inl np =>
      match e_queue env with
      | inr e =>
          r = inr e /\ ps_monitor s1 = ps_monitor s0
          /\ ps_trace s1
             = ps_trace s0 ++ [EvGetNowPlaying zone; EvGetQueue sessionId]
      | inl q =>
          exists added,
            ps_trace s1 = ps_trace s0 ++ added
            /\ reconciled config Date_parse sessionId zone env np q
                 (ps_monitor s0) r (ps_monitor s1) added
      end
  end.
Proof.
  intros H. unfold passBody in H.
  apply bind_inv in H as [(e & Hc & ->)|(np & sa & Hc & H)];
    apply call_inv in Hc as (Ho & Hma & Hta); rewrite <- Ho.
  { auto. }
  apply bind_inv in H as [(e & Hc & ->)|(q & sb & Hc & H)];
    apply call_inv in Hc as (Hq & Hmb & Htb); rewrite <- Hq;
    rewrite Hma in Hmb; rewrite Hta, <- app_assoc in Htb; simpl in Htb.
  { auto. }
  apply bind_inv in H as [(e & Hc & ->)|([] & sc & Hc & H)];
    rewrite confirmAssignment_run in Hc; [discriminate Hc|].
  injection Hc as Hsc.
  assert (Hmc : ps_monitor sc = afterConfirm (trackIdOf np) (ps_monitor s0)).
  { rewrite <- Hsc. unfold afterConfirm. rewrite Hmb.
    destruct (confirms (trackIdOf np) (ps_monitor s0)); [reflexivity|exact Hmb]. }
  assert (Htc : ps_trace sc = ps_trace sb).
  { rewrite <- Hsc. destruct (confirms _ _); reflexivity. }
  clear Hsc. rewrite Htb in Htc.
  unfold reconciled. cbv zeta.
  apply bind_inv in H as [(e & Hc & ->)|(q' & sd & Hc & H)];
    apply detectTransition_inv in Hc as (dt & Htd & Hd);
    rewrite Hmc in Hd; rewrite Htc in Htd.
  { eexists. split; [|exists (inr e), (ps_monitor s1), dt; split; [exact Hd|]].
    - rewrite Htd, <- app_assoc. reflexivity.
    - auto. }
  destruct (retryAssignment_inv zone (trackIdOf np) env sd)
    as (se & rt & Hre & Hte & Hr).
  apply bind_inv in H as [(e & Hc' & ->)|([] & se' & Hc' & H)];
    rewrite Hre in Hc'; [discriminate Hc'|].
  injection Hc' as <-.
  destruct (assignNext_inv zone (trackIdOf np) (nextUp q') env se)
    as (sf & at' & Has & Htf & Ha).
  apply bind_inv in H as [(e & Hc' & ->)|([] & sf' & Hc' & H)];
    rewrite Has in Hc'; [discriminate Hc'|].
  injection Hc' as <-.
  assert (Htail : exists tl,
            ps_monitor s1 = ps_monitor sf /\ ps_trace s1 = ps_trace sf ++ tl
            /\ published Date_parse sessionId np q' env r tl).
  { unfold published.
    apply bind_inv in H as [(e & Hc' & ->)|(req & sg & Hc' & H)];
      apply resolveRequester_inv in Hc' as (Hmg & pre & Htg & Hrq).
    { exists pre. split; [exact Hmg|]. split; [exact Htg|].
      exists (inr e), pre. auto. }
    apply bind_inv in H as [(e & Hc'' & ->)|([] & sh & Hc'' & H)];
      apply call_inv in Hc'' as (Hbq & Hmh & Hth).
    { eexists. split; [congruence|].
      split; [rewrite Hth, Htg, <- app_assoc; reflexivity|].
      exists (inl req), pre. split; [exact Hrq|]. cbv zeta.
      rewrite <- Hbq. auto. }
    apply bind_inv in H as [(e & Hc'' & ->)|([] & si & Hc'' & H)];
      apply call_inv in Hc'' as (Hbp & Hmi & Hti).
    { eexists. split; [congruence|].
      split; [rewrite Hti, Hth, Htg, <- !app_assoc; reflexivity|].
      exists (inl req), pre. split; [exact Hrq|]. cbv zeta.
      rewrite <- Hbq, <- Hbp. auto. }
    injection H as <- <-.
    eexists. split; [congruence|].
    split; [rewrite Hti, Hth, Htg, <- !app_assoc; reflexivity|].
    exists (inl req), pre. split; [exact Hrq|]. cbv zeta.
    rewrite <- Hbq, <- Hbp. auto. }
  destruct Htail as (tl & Hm1 & Ht1 & Hpub).
  eexists. split;
    [|exists (inl q'), (ps_monitor sd), dt; split; [exact Hd|];
      exists (ps_monitor se), rt, at', tl; rewrite Hm1; auto].
  rewrite Ht1, Htf, Hte, Htd, <- !app_assoc. reflexivity.
Qed.

Lemma filter_none (p q' : Event -> bool) (l : list Event) :
  Forall (fun ev => q' ev = true) l ->
  (forall ev, q' ev = true -> p ev = false) ->
  List.filter p l = [].
Proof.
  intros Hl Hpq. induction Hl as [|ev l Hev _ IH]; [reflexivity|].
  simpl. rewrite (Hpq ev Hev). exact IH.
Qed.

Lemma attempted_events (label : string) (site : Site) (zone t : string)
    (set play : Result unit) (m m_ok m' : MonitorState) (added : list Event) :
  attempted label site zone t set play m m_ok m' added ->
  Forall (fun ev => isAttemptEvent ev = true) added /\ (m' = m \/ m' = m_ok).
Proof.
  unfold attempted. destruct set as [[]|e1]; [destruct play as [[]|e2]|];
    intros (-> & ->); (split; [repeat constructor|auto]).
Qed.

Lemma retried_events (zone : string) (cur : option string) (env : Env)
    (m m' : MonitorState) (added : list Event) :
  retried zone cur env m m' added ->
  Forall (fun ev => isAttemptEvent ev = true) added
  /\ currentTrackId m' = currentTrackId m
  /\ awaitingTrackId m' = awaitingTrackId m.
Proof.
  intros [(-> & ->)|(t & issued & _ & _ & _ & _ & _ & Hat)];
    [split; [constructor|auto]|].
  apply attempted_events in Hat as (Hev & [->| ->]); auto.
Qed.

Lemma advanced_events (zone : string) (cur : option string)
    (next : option QueueItem) (env : Env) (m m' : MonitorState)
    (added : list Event) :
  advanced config zone cur next env m m' added ->
  Forall (fun ev => isAttemptEvent ev = true) added
  /\ currentTrackId m' = currentTrackId m.
Proof.
  intros [(-> & ->)|[(item & _ & _ & _ & _ & Hat)|(t & _ & _ & _ & _ & _ & Hat)]];
    [split; [constructor|auto]| |];
    apply attempted_events in Hat as (Hev & [->| ->]); auto.
Qed.

Lemma requested_events (sessionId : string) (cur : option string) (env : Env)
    (r : Result (option Requester)) (added : list Event) :
  requested sessionId cur env r added ->
  Forall (fun ev => isPublishEvent ev = true) added.
Proof.
  intros [(_ & _ & ->)|(t & _ & _ & -> & _)]; repeat constructor.
Qed.

Lemma published_events (sessionId : string) (np : option NowPlaying)
    (q' : QueueView) (env : Env) (r : Result Z) (added : list Event) :
  published Date_parse sessionId np q' env r added ->
  Forall (fun ev => isPublishEvent ev = true) added.
Proof.
  intros (rq & pre & Hreq & H). apply requested_events in Hreq.
  destruct rq as [requester|e]; [|destruct H as (_ & ->); exact Hreq].
  cbv zeta in H. destruct (e_broadcastQueue env);
    [destruct H as (-> & _)|destruct H as (_ & ->)];
    (apply Forall_app; split; [exact Hreq|repeat constructor]).
Qed.

Lemma detected_pending (sessionId : string) (cur : option string)
    (q : QueueView) (env : Env) (m m' : MonitorState) (r : Result QueueView)
    (added : list Event) :
  detected sessionId cur q env m r m' added ->
  awaitingTrackId m' = awaitingTrackId m
  /\ requestIssuedAt m' = requestIssuedAt m.
Proof.
  intros [(_ & _ & -> & _)|[(_ & _ & _ & -> & _)|(t & _ & _ & _ & H)]];
    [auto|auto|].
  destruct (e_markPlayed env) as [[|]|e];
    [destruct (e_queueRefreshed env)|..];
    destruct H as (_ & -> & _); auto.
Qed.

Lemma paired_same (m m' : MonitorState) :
  awaitingTrackId m' = awaitingTrackId m ->
  requestIssuedAt m' = requestIssuedAt m ->
  paired m -> paired m'.
Proof. unfold paired. intros -> ->. auto. Qed.

Lemma attempted_paired (label : string) (site : Site) (zone t : string)
    (set play : Result unit) (m m_ok m' : MonitorState) (added : list Event) :
  attempted label site zone t set play m m_ok m' added ->
  paired m -> paired m_ok -> paired m'.
Proof.
  intros Hat Hm Hok. apply attempted_events in Hat as (_ & [->| ->]); auto.
Qed.

Lemma passBody_paired (sessionId zone : string) (env : Env) (s0 s1 : PState)
    (r : Result Z) :
  passBody config Date_parse sessionId zone env s0 = (r, s1) ->
  paired (ps_monitor s0) -> paired (ps_monitor s1).
Proof.
  intros H Hp. apply passBody_run in H.
  destruct (e_nowPlaying env) as [np|e];
    [|destruct H as (_ & -> & _); exact Hp].
  destruct (e_queue env) as [q|e]; [|destruct H as (_ & -> & _); exact Hp].
  destruct H as (added & _ & rd & md & dt & Hd & H).
  assert (Hpa : paired (afterConfirm (trackIdOf np) (ps_monitor s0))).
  { unfold afterConfirm. destruct (confirms _ _); [|exact Hp].
    left. split; reflexivity. }
  assert (Hpd : paired md).
  { apply detected_pending in Hd as (Ha & Hi).
    apply (paired_same _ _ Ha Hi Hpa). }
  destruct rd as [q'|e]; [|destruct H as (_ & -> & _); exact Hpd].
  destruct H as (me & rt & at' & tl & Hr & Ha & _ & _).
  assert (Hpe : paired me).
  { destruct Hr as [(_ & ->)|(t & issued & Ht & Hne & _ & _ & _ & Hat)];
      [exact Hpd|].
    apply (attempted_paired _ _ _ _ _ _ _ _ _ _ Hat Hpd).
    right. simpl. rewrite Ht. split; [apply truthy_nonempty; exact Hne|eauto]. }
  destruct Ha as [(_ & ->)|[(item & _ & Hne & _ & _ & Hat)
                           |(t & _ & _ & _ & Hne & _ & Hat)]];
    [exact Hpe| |];
    apply (attempted_paired _ _ _ _ _ _ _ _ _ _ Hat Hpe);
    right; simpl; (split; [apply truthy_nonempty; exact Hne|eauto]).
Qed.

Lemma all_paired_step (st st' : Service) :
  (forall sessionId m',
     monitors st' !! sessionId = Some m' ->
     paired m'
     \/ exists m, monitors st !! sessionId = Some m
                  /\ awaitingTrackId m' = awaitingTrackId m
                  /\ requestIssuedAt m' = requestIssuedAt m) ->
  all_paired st -> all_paired st'.
Proof.
  intros Hstep Hp sid m' Hm'.
  destruct (Hstep sid m' Hm') as [H|(m & Hm & Ha & Hi)]; [exact H|].
  apply (paired_same m); eauto.
Qed.

Lemma schedulePoll_paired (sessionId : string) (delayMs : Z) (st : Service) :
  all_paired st -> all_paired (schedulePoll sessionId delayMs st).
Proof.
  apply all_paired_step. intros sid m'. unfold schedulePoll.
  destruct (monitors st !! sessionId) as [m|] eqn:Hm; [|eauto].
  simpl. destruct (decide (sessionId = sid)) as [<-|Hd].
  - rewrite lookup_insert_eq. intros [= <-]. right. exists m. auto.
  - rewrite lookup_insert_ne by assumption. eauto.
Qed.

Lemma requestImmediateSync_paired (sessionId : string) (delayMs : Z)
    (st : Service) :
  all_paired st -> all_paired (requestImmediateSync sessionId delayMs st).
Proof.
  intros Hp. unfold requestImmediateSync.
  destruct (monitors st !! sessionId) as [m|]; [|assumption].
  destruct (processing m); [assumption|apply schedulePoll_paired; assumption].
Qed.

Lemma insert_paired (sessionId : string) (m' : MonitorState) (st : Service) :
  paired m' -> all_paired st ->
  all_paired (with_monitors (<[sessionId := m']> (monitors st)) st).
Proof.
  intros Hm'. apply all_paired_step. intros sid m1. simpl.
  destruct (decide (sessionId = sid)) as [<-|Hd].
  - rewrite lookup_insert_eq. intros [= <-]. auto.
  - rewrite lookup_insert_ne by assumption. eauto.
Qed.

Lemma alter_paired (f : MonitorState -> MonitorState) (sessionId : string)
    (st st' : Service) :
  (forall m, awaitingTrackId (f m) = awaitingTrackId m
             /\ requestIssuedAt (f m) = requestIssuedAt m) ->
  monitors st' = alter f sessionId (monitors st) ->
  all_paired st -> all_paired st'.
Proof.
  intros Hf Heq. apply all_paired_step. intros sid m'. rewrite Heq.
  destruct (decide (sessionId = sid)) as [<-|Hd].
  - rewrite lookup_alter_eq.
    destruct (monitors st !! sessionId) as [m|]; [|discriminate].
    intros [= <-]. right. exists m. destruct (Hf m). auto.
  - rewrite lookup_alter_ne by assumption. eauto.
Qed.

Lemma pollSession_paired (sessionId : string) (env : Env) (st : Service) :
  all_paired st -> all_paired (pollSession config Date_parse sessionId env st).
Proof.
  intros Hp. unfold pollSession.
  destruct (monitors st !! sessionId) as [m|] eqn:Hm; [|assumption].
  destruct (processing m); [assumption|].
  destruct (io st); simpl negb; cbv iota; [|assumption].
  assert (Hnozone : all_paired
            (schedulePoll sessionId DEFAULT_POLL_INTERVAL_MS
               (emit (EvWarn (noZoneWarning sessionId)) st))).
  { apply schedulePoll_paired. exact Hp. }
  destruct (soundZoneId m) as [zone|]; [|exact Hnozone].
  destruct (truthy (Some zone)); [|exact Hnozone].
  destruct (passBody config Date_parse sessionId zone env
              (mkPState (set_processing true m) [])) as [r s1] eqn:Hrun.
  apply passBody_paired in Hrun; [|exact (Hp _ _ Hm)].
  assert (Hcommit : all_paired (commit sessionId s1 st)).
  { apply (insert_paired sessionId (ps_monitor s1) st Hrun Hp). }
  match goal with
  | |- all_paired (with_monitors _ ?st2) =>
      apply (alter_paired (set_processing false) sessionId st2);
      [intros ?; split; reflexivity|reflexivity|]
  end.
  destruct r; apply schedulePoll_paired; exact Hcommit.
Qed.

Lemma reachable_paired (st : Service) :
  reachable config Date_parse st -> all_paired st.
Proof.
  induction 1.
  - intros sid m H. simpl in H. rewrite lookup_empty in H. discriminate.
  - exact IHreachable.
  - unfold ensureMonitor. destruct (monitors st !! sessionId) as [m|] eqn:Hm.
    + assert (Hi : all_paired
                (with_monitors
                   (<[sessionId :=
                        set_soundZoneId (nullish zone (soundZoneId m))
                          (set_hostId hostId' m)]> (monitors st)) st)).
      { apply insert_paired; [|assumption].
        apply (paired_same m); [reflexivity..|]. exact (IHreachable _ _ Hm). }
      match goal with
      | |- context [if ?b then _ else _] => destruct b
      end; [apply schedulePoll_paired|]; exact Hi.
    + apply schedulePoll_paired. apply insert_paired; [|assumption].
      left. split; reflexivity.
  - apply requestImmediateSync_paired. assumption.
  - unfold updateSoundZone. destruct (monitors st !! sessionId) as [m|] eqn:Hm;
      [|assumption].
    apply requestImmediateSync_paired. apply insert_paired; [|assumption].
    apply (paired_same m); [reflexivity..|]. exact (IHreachable _ _ Hm).
  - unfold stopMonitor. destruct (monitors st !! sessionId) as [m|];
      [|assumption].
    revert IHreachable. apply all_paired_step. intros sid m'. simpl.
    intros Hl. apply lookup_delete_Some in Hl as [_ Hl]. eauto.
  - unfold timerFires. destruct (timers st !! h) as [t|]; [|assumption].
    apply pollSession_paired.
    match goal with
    | |- all_paired ?st1 =>
        apply (alter_paired (set_timeout None) (timer_session t) st st1);
        [intros ?; split; reflexivity|reflexivity|assumption]
    end.
Qed.


(** X7.  Transition detection: a pass marks a track as played exactly when
    the track it believes to be current is a real one and differs from the
    observed one, and then once, for that track; the belief moves to the
    observed track unless marking, or re-reading the queue after it, failed. *)
Theorem transition_detection (sessionId zone : string) (env : Env)
    (m0 : MonitorState) (r : Result Z) (s1 : PState) (np : option NowPlaying)
    (q : QueueView) :
  passBody config Date_parse sessionId zone env (mkPState m0 []) = (r, s1) ->
  e_nowPlaying env = inl np ->
  e_queue env = inl q ->
  let cur := trackIdOf np in
  let believed := currentTrackId (afterConfirm cur m0) in
  let marks := List.filter isMarkPlayed (ps_trace s1) in
  if changed believed cur then
    exists t,
      believed = Some t
      /\ marks = [EvMarkPlayed sessionId t]
      /\ match e_markPlayed env with
         | inr e => r = inr e /\ currentTrackId (ps_monitor s1) = believed
         | inl false => currentTrackId (ps_monitor s1) = cur
         | inl true =>
             match e_queueRefreshed env with
             | inr e => r = inr e /\ currentTrackId (ps_monitor s1) = believed
             | inl _ => currentTrackId (ps_monitor s1) = cur
             end
         end
  else marks = [] /\ currentTrackId (ps_monitor s1) = cur.
Proof.
  intros Hrun Hnp Hq cur believed marks.
  apply passBody_run in Hrun. rewrite Hnp, Hq in Hrun.
  destruct Hrun as (added & Htr & Hrec). simpl in Htr, Hrec.
  unfold reconciled in Hrec. cbv zeta in Hrec. fold cur in Hrec.
  destruct Hrec as (rd & md & dt & Hd & Hrest).
  assert (Hlate : forall q', rd = inl q' ->
            exists rest,
              added = [EvGetNowPlaying zone; EvGetQueue sessionId] ++ dt ++ rest
              /\ List.filter isMarkPlayed rest = []
              /\ currentTrackId (ps_monitor s1) = currentTrackId md).
  { intros q' ->. destruct Hrest as (me & rt & at' & tl & Hr & Ha & Hp & ->).
    apply retried_events in Hr as (Hrt & Hcr & _).
    apply advanced_events in Ha as (Hat & Hca).
    apply published_events in Hp.
    exists (rt ++ at' ++ tl). split; [reflexivity|].
    split; [|congruence].
    rewrite !List.filter_app.
    rewrite (filter_none isMarkPlayed _ rt Hrt) by (intros []; simpl; congruence).
    rewrite (filter_none isMarkPlayed _ at' Hat) by (intros []; simpl; congruence).
    rewrite (filter_none isMarkPlayed _ tl Hp) by (intros []; simpl; congruence).
    reflexivity. }
  unfold marks. rewrite Htr. clear marks Htr.
  destruct Hd as [(Hf & -> & -> & ->)
                 |[(Ht & Heq & -> & -> & ->)
                  |(t & Ht & Hne & Hcur & Hd)]].
  - assert (Hch : changed believed cur = false)
      by (unfold changed, believed; rewrite Hf; reflexivity).
    rewrite Hch.
    destruct (Hlate q eq_refl) as (rest & -> & Hnone & Hc).
    simpl. rewrite Hnone. auto.
  - assert (Hch : changed believed cur = false).
    { unfold changed, believed. rewrite Ht, Heq.
      rewrite (proj2 (seq_true cur cur) eq_refl). reflexivity. }
    rewrite Hch.
    destruct (Hlate q eq_refl) as (rest & -> & Hnone & Hc).
    simpl. rewrite Hnone. split; [reflexivity|].
    rewrite Hc. exact Heq.
  - assert (Hch : changed believed cur = true).
    { unfold changed, believed. rewrite Ht, (truthy_nonempty t Hne).
      apply andb_true_iff. split; [reflexivity|].
      apply negb_true_iff. apply seq_false. congruence. }
    rewrite Hch.
    exists t. split; [exact Ht|].
    destruct (e_markPlayed env) as [[|]|e].
    + destruct (e_queueRefreshed env) as [q2|e].
      * destruct Hd as (-> & -> & ->).
        destruct (Hlate q2 eq_refl) as (rest & -> & Hnone & Hc).
        rewrite !List.filter_app, Hnone. simpl. split; [reflexivity|exact Hc].
      * destruct Hd as (-> & -> & ->). destruct Hrest as (-> & -> & ->).
        simpl. auto.
    + destruct Hd as (-> & -> & ->).
      destruct (Hlate q eq_refl) as (rest & -> & Hnone & Hc).
      rewrite !List.filter_app, Hnone. simpl. split; [reflexivity|exact Hc].
    + destruct Hd as (-> & -> & ->). destruct Hrest as (-> & -> & ->).
      simpl. auto.
Qed.

Lemma derivePollDelay_range (now : Z) (np : option NowPlaying) :
  MIN_POLL_INTERVAL_MS <= derivePollDelay Date_parse now np
  <= DEFAULT_POLL_INTERVAL_MS.
Proof.
  unfold derivePollDelay, MIN_POLL_INTERVAL_MS, DEFAULT_POLL_INTERVAL_MS.
  destruct np as [r|]; [|lia].
  destruct (seq (state r) (Some Playing)); [|lia].
  destruct (computeProgressMs Date_parse now (Some r)); [|lia].
  destruct (durationOf (Some r)); [|lia].
  destruct (0 <? z0); lia.
Qed.

Lemma attempted_set_in (label : string) (site site' : Site)
    (zone z t t' : string) (set play : Result unit)
    (m m_ok m' : MonitorState) (added : list Event) :
  attempted label site zone t set play m m_ok m' added ->
  In (EvSetContent site' z t') added ->
  site' = site /\ z = zone /\ t' = t.
Proof.
  unfold attempted. destruct set as [[]|e1]; [destruct play as [[]|e2]|];
    intros (-> & _) Hin; simpl in Hin;
    repeat (destruct Hin as [Hin|Hin];
            [first [discriminate Hin|injection Hin as <- <- <-; auto]|]);
    contradiction.
Qed.

Lemma attempted_logged (label : string) (site : Site) (zone t : string)
    (set play : Result unit) (m m_ok m' : MonitorState) (added : list Event)
    (e : Error) :
  attempted label site zone t set play m m_ok m' added ->
  set = inr e \/ (set = inl tt /\ play = inr e) ->
  In (EvError label e) added /\ m' = m.
Proof.
  unfold attempted. intros H [->|(-> & ->)]; destruct H as (-> & ->);
    simpl; auto.
Qed.

Lemma detected_view (sessionId : string) (cur : option string)
    (q q' : QueueView) (env : Env) (m m' : MonitorState) (added : list Event) :
  detected sessionId cur q env m (inl q') m' added -> viewUsed env q q'.
Proof.
  unfold viewUsed.
  intros [(_ & [= <-] & _)|[(_ & _ & [= <-] & _)|(t & _ & _ & _ & H)]];
    [auto|auto|].
  destruct (e_markPlayed env) as [[|]|e].
  - destruct (e_queueRefreshed env) as [q2|e]; destruct H as (Hr & _);
      [injection Hr as <-; auto|discriminate Hr].
  - destruct H as ([= <-] & _). auto.
  - destruct H as (Hr & _). discriminate Hr.
Qed.

Lemma detected_events (sessionId : string) (cur : option string)
    (q : QueueView) (env : Env) (m m' : MonitorState) (r : Result QueueView)
    (added : list Event) :
  detected sessionId cur q env m r m' added ->
  Forall (fun ev => isAttemptEvent ev = false /\ isPublishEvent ev = false)
    added.
Proof.
  intros [(_ & _ & _ & ->)|[(_ & _ & _ & _ & ->)|(t & _ & _ & _ & H)]];
    [constructor|constructor|].
  destruct (e_markPlayed env) as [[|]|e];
    [destruct (e_queueRefreshed env)|..];
    destruct H as (_ & _ & ->); repeat constructor.
Qed.

(** Where a content assignment of a pass can sit. *)
Lemma reconciled_set_in (sessionId zone : string) (env : Env)
    (np : option NowPlaying) (q : QueueView) (m0 m1 : MonitorState)
    (r : Result Z) (added : list Event) (site : Site) (z t : string) :
  reconciled config Date_parse sessionId zone env np q m0 r m1 added ->
  In (EvSetContent site z t) added ->
  exists q' md me rt at' dt,
    viewUsed env q q'
    /\ awaitingTrackId md = awaitingTrackId (afterConfirm (trackIdOf np) m0)
    /\ requestIssuedAt md = requestIssuedAt (afterConfirm (trackIdOf np) m0)
    /\ retried zone (trackIdOf np) env md me rt
    /\ advanced config zone (trackIdOf np) (nextUp q') env me m1 at'
    /\ (forall ev, In ev rt \/ In ev at' -> In ev added)
    /\ detected sessionId (trackIdOf np) q env
         (afterConfirm (trackIdOf np) m0) (inl q') md dt
    /\ (In (EvSetContent site z t) rt \/ In (EvSetContent site z t) at').
Proof.
  intros (rd & md & dt & Hd & H) Hin.
  pose proof (detected_events _ _ _ _ _ _ _ _ Hd) as Hdt.
  assert (Hnd : ~ In (EvSetContent site z t) dt).
  { intros Hi. rewrite List.Forall_forall in Hdt. destruct (Hdt _ Hi). discriminate. }
  destruct rd as [q'|e].
  - destruct H as (me & rt & at' & tl & Hr & Ha & Hp & ->).
    apply published_events in Hp.
    assert (Hnt : ~ In (EvSetContent site z t) tl).
    { intros Hi. rewrite List.Forall_forall in Hp. specialize (Hp _ Hi).
      discriminate. }
    destruct (detected_pending _ _ _ _ _ _ _ _ Hd) as (Haw & Hiss).
    exists q', md, me, rt, at', dt.
    split; [exact (detected_view _ _ _ _ _ _ _ _ Hd)|].
    do 4 (split; [assumption|]).
    split.
    + intros ev Hev. simpl. right. right. rewrite !in_app_iff. tauto.
    + split; [exact Hd|].
      simpl in Hin. destruct Hin as [Hin|[Hin|Hin]];
        [discriminate Hin|discriminate Hin|].
      rewrite !in_app_iff in Hin. tauto.
  - destruct H as (_ & _ & ->). simpl in Hin.
    destruct Hin as [Hin|[Hin|Hin]];
      [discriminate Hin|discriminate Hin|contradiction].
Qed.

(** X9.  Every content assignment of a pass is justified: it goes to the
    session's zone, never assigns the track that is already playing, and is
    either a retry of the pending track after more than 15 s, the queue's
    next-up track when that is not already pending, or the default content
    when the queue has no next-up track and nothing is playing. *)
Theorem assignments_justified (sessionId zone : string) (env : Env)
    (m0 : MonitorState) (r : Result Z) (s1 : PState) (np : option NowPlaying)
    (q : QueueView) (site : Site) (z t : string) :
  passBody config Date_parse sessionId zone env (mkPState m0 []) = (r, s1) ->
  e_nowPlaying env = inl np ->
  e_queue env = inl q ->
  In (EvSetContent site z t) (ps_trace s1) ->
  let cur := trackIdOf np in
  let pending := awaitingTrackId (afterConfirm cur m0) in
  z = zone /\ t <> ""%string /\ cur <> Some t
  /\ match site with
     | Retry =>
         pending = Some t
         /\ exists issued,
              requestIssuedAt (afterConfirm cur m0) = Some issued
              /\ CONTENT_REQUEST_TIMEOUT_MS < e_nowRetryCheck env - issued
     | Forward =>
         pending <> Some t
         /\ exists q' item,
              viewUsed env q q' /\ nextUp q' = Some item
              /\ spotifyTrackId item = t
     | Fallback =>
         pending <> Some t
         /\ defaultContentId config = Some t
         /\ truthy cur = false
         /\ exists q', viewUsed env q q' /\ nextUp q' = None
     end.
Proof.
  intros Hrun Hnp Hq Hin cur pending.
  apply passBody_run in Hrun. rewrite Hnp, Hq in Hrun.
  destruct Hrun as (added & Htr & Hrec). simpl in Htr, Hrec.
  rewrite Htr in Hin.
  destruct (reconciled_set_in _ _ _ _ _ _ _ _ _ _ _ _ Hrec Hin)
    as (q' & md & me & rt & at' & dt & Hview & Haw & Hiss & Hr & Ha & _ & _
        & Hwhere).
  fold cur in Haw, Hiss, Hr, Ha. unfold pending.
  pose proof (retried_events _ _ _ _ _ _ Hr) as (_ & _ & Hawe).
  destruct Hwhere as [Hi|Hi].
  - destruct Hr as [(-> & _)|(t' & issued & Ht & Hne & Hcur & His & Hlt & Hat)];
      [contradiction|].
    destruct (attempted_set_in _ _ _ _ _ _ _ _ _ _ _ _ _ Hat Hi)
      as (-> & -> & ->).
    split; [reflexivity|]. split; [assumption|]. split; [assumption|].
    split; [congruence|]. exists issued. split; [congruence|assumption].
  - destruct Ha as [(-> & _)
                   |[(item & Hnext & Hne & Hcur & Hnaw & Hat)
                    |(t' & Hnext & Hcur & Hdef & Hne & Hnaw & Hat)]];
      [contradiction| |];
      destruct (attempted_set_in _ _ _ _ _ _ _ _ _ _ _ _ _ Hat Hi)
        as (-> & -> & ->).
    + split; [reflexivity|]. split; [assumption|]. split; [assumption|].
      split; [congruence|]. exists q', item. auto.
    + split; [reflexivity|]. split; [assumption|].
      split.
      * intros Hc. rewrite Hc, truthy_nonempty in Hcur by assumption.
        discriminate.
      * split; [congruence|]. split; [assumption|]. split; [assumption|].
        exists q'. auto.
Qed.

Lemma passBody_delay (sessionId zone : string) (env : Env) (s0 s1 : PState)
    (d : Z) :
  passBody config Date_parse sessionId zone env s0 = (inl d, s1) ->
  exists np, e_nowPlaying env = inl np
             /\ d = derivePollDelay Date_parse (e_nowDelay env) np
             /\ MIN_POLL_INTERVAL_MS <= d <= DEFAULT_POLL_INTERVAL_MS.
Proof.
  intros Hrun. apply passBody_run in Hrun.
  destruct (e_nowPlaying env) as [np|e0];
    [|destruct Hrun as (Hr & _); discriminate Hr].
  destruct (e_queue env) as [q|e0];
    [|destruct Hrun as (Hr & _); discriminate Hr].
  destruct Hrun as (added & _ & rd & md & dt & _ & H).
  destruct rd as [q'|e']; [|destruct H as (Hr & _); discriminate Hr].
  destruct H as (me & rt & at' & tl & _ & _ & Hp & _).
  destruct Hp as (rq & pre & _ & Hp).
  destruct rq as [requester|e']; [|destruct Hp as (Hr & _); discriminate Hr].
  cbv zeta in Hp.
  destruct (e_broadcastQueue env) as [[]|e'];
    [|destruct Hp as (Hr & _); discriminate Hr].
  destruct Hp as (_ & Hr).
  destruct (e_broadcastPlayback env) as [[]|e']; [|discriminate Hr].
  injection Hr as ->. exists np. split; [reflexivity|].
  split; [reflexivity|apply derivePollDelay_range].
Qed.

(** X8.  Failures of the assignment calls never fail the pass: a pass fails
    only with the error of one of its reads or broadcasts, every failed
    assignment attempt is logged under its own label, and a pass that
    succeeds asks for the next poll within the minimum and the default
    interval. *)
Theorem assignment_errors_absorbed (sessionId zone : string) (env : Env)
    (m0 : MonitorState) (r : Result Z) (s1 : PState) :
  passBody config Date_parse sessionId zone env (mkPState m0 []) = (r, s1) ->
  (forall e, r = inr e ->
     e_nowPlaying env = inr e \/ e_queue env = inr e
     \/ e_markPlayed env = inr e \/ e_queueRefreshed env = inr e
     \/ e_recentItem env = inr e \/ e_broadcastQueue env = inr e
     \/ e_broadcastPlayback env = inr e)
  /\ (forall site z t e,
        In (EvSetContent site z t) (ps_trace s1) ->
        attemptFailed env site e ->
        In (EvError (labelOf site) e) (ps_trace s1))
  /\ (forall d, r = inl d ->
        MIN_POLL_INTERVAL_MS <= d <= DEFAULT_POLL_INTERVAL_MS).
Proof.
  intros Hrun.
  assert (Hdelay : forall d, r = inl d ->
            MIN_POLL_INTERVAL_MS <= d <= DEFAULT_POLL_INTERVAL_MS).
  { intros d ->. apply passBody_delay in Hrun as (np & _ & _ & Hd). exact Hd. }
  apply passBody_run in Hrun. simpl in Hrun.
  destruct (e_nowPlaying env) as [np|e0] eqn:Hnp.
  2:{ destruct Hrun as (-> & _ & ->).
      split; [intros e [= <-]; auto|].
      split; [|discriminate].
      intros site z t e [Hin|[]]. discriminate Hin. }
  destruct (e_queue env) as [q|e0] eqn:Hq.
  2:{ destruct Hrun as (-> & _ & ->).
      split; [intros e [= <-]; auto|].
      split; [|discriminate].
      intros site z t e [Hin|[Hin|[]]]; discriminate Hin. }
  destruct Hrun as (added & -> & Hrec).
  split; [|split; [|exact Hdelay]].
  - intros e ->. destruct Hrec as (rd & md & dt & Hd & H).
    destruct rd as [q'|e'].
    + destruct H as (me & rt & at' & tl & _ & _ & Hp & _).
      destruct Hp as (rq & pre & Hreq & Hp).
      destruct rq as [requester|e'].
      * cbv zeta in Hp. destruct (e_broadcastQueue env) as [[]|e'].
        -- destruct Hp as (_ & Hr).
           destruct (e_broadcastPlayback env) as [[]|e'];
             [discriminate Hr|injection Hr as <-; auto 10].
        -- destruct Hp as ([= <-] & _). auto 10.
      * destruct Hp as ([= <-] & _).
        destruct Hreq as [(_ & Hr & _)|(t & _ & _ & _ & Hr)];
          [discriminate Hr|].
        destruct (e_recentItem env) as [[item|]|e'];
          [discriminate Hr|discriminate Hr|injection Hr as <-; auto 10].
    + destruct H as ([= <-] & _).
      destruct Hd as [(_ & Hr & _)|[(_ & _ & Hr & _)|(t & _ & _ & _ & Hd)]];
        [discriminate Hr|discriminate Hr|].
      destruct (e_markPlayed env) as [[|]|e'].
      * destruct (e_queueRefreshed env) as [q2|e']; destruct Hd as (Hr & _);
          [discriminate Hr|injection Hr as <-; auto 10].
      * destruct Hd as (Hr & _). discriminate Hr.
      * destruct Hd as ([= <-] & _). auto 10.
  - intros site z t e Hin Hfail.
    destruct (reconciled_set_in _ _ _ _ _ _ _ _ _ _ _ _ Hrec Hin)
      as (q' & md & me & rt & at' & dt & _ & _ & _ & Hr & Ha & Hsub & _
          & Hwhere).
    destruct Hwhere as [Hi|Hi].
    + destruct Hr as [(-> & _)|(t' & issued & _ & _ & _ & _ & _ & Hat)];
        [contradiction|].
      destruct (attempted_set_in _ _ _ _ _ _ _ _ _ _ _ _ _ Hat Hi)
        as (-> & -> & ->).
      apply Hsub. left.
      exact (proj1 (attempted_logged _ _ _ _ _ _ _ _ _ _ _ Hat Hfail)).
    + destruct Ha as [(-> & _)
                     |[(item & _ & _ & _ & _ & Hat)
                      |(t' & _ & _ & _ & _ & _ & Hat)]];
        [contradiction| |];
        destruct (attempted_set_in _ _ _ _ _ _ _ _ _ _ _ _ _ Hat Hi)
          as (-> & -> & ->);
        apply Hsub; right;
        exact (proj1 (attempted_logged _ _ _ _ _ _ _ _ _ _ _ Hat Hfail)).
Qed.

(** X11.  A pass broadcasts at most once, the queue before the playback
    state, and only as its last two effects; a successful pass ends with
    both, built from the report and the queue view it worked with, and its
    delay is derived from that same report. *)
Theorem pass_broadcasts (sessionId zone : string) (env : Env)
    (m0 : MonitorState) (r : Result Z) (s1 : PState) :
  passBody config Date_parse sessionId zone env (mkPState m0 []) = (r, s1) ->
  (List.filter isBroadcast (ps_trace s1) = []
   \/ exists np q q' requester pre,
        e_nowPlaying env = inl np /\ e_queue env = inl q
        /\ viewUsed env q q'
        /\ List.filter isBroadcast pre = []
        /\ (truthy (trackIdOf np) = false -> requester = None)
        /\ (forall item,
              truthy (trackIdOf np) = true ->
              e_recentItem env = inl (Some item) ->
              requester = Some (requesterOf item))
        /\ ((ps_trace s1 = pre ++ [EvBroadcastQueue sessionId q']
             /\ exists e, r = inr e /\ e_broadcastQueue env = inr e)
            \/ (ps_trace s1
                = pre ++ [EvBroadcastQueue sessionId q';
                          EvBroadcastPlayback sessionId
                            (buildPlaybackPayload Date_parse
                               (e_nowPayload env) np) requester]
                /\ match e_broadcastPlayback env with
                   | inr e => r = inr e
                   | inl _ =>
                       r = inl (derivePollDelay Date_parse (e_nowDelay env) np)
                   end)))
  /\ (forall d, r = inl d -> List.filter isBroadcast (ps_trace s1) <> []).
Proof.
  intros Hrun. apply passBody_run in Hrun. simpl in Hrun.
  destruct (e_nowPlaying env) as [np|e0] eqn:Hnp.
  2:{ destruct Hrun as (-> & _ & ->). split; [left; reflexivity|discriminate]. }
  destruct (e_queue env) as [q|e0] eqn:Hq.
  2:{ destruct Hrun as (-> & _ & ->). split; [left; reflexivity|discriminate]. }
  destruct Hrun as (added & -> & rd & md & dt & Hd & H).
  pose proof (detected_events _ _ _ _ _ _ _ _ Hd) as Hdt.
  assert (Hfd : List.filter isBroadcast dt = []).
  { apply (filter_none _ (fun ev => negb (isPublishEvent ev))).
    - revert Hdt. apply List.Forall_impl. intros ev (_ & ->). reflexivity.
    - intros []; simpl; congruence. }
  destruct rd as [q'|e'].
  2:{ destruct H as (-> & _ & ->). simpl. rewrite Hfd.
      split; [left; reflexivity|discriminate]. }
  destruct H as (me & rt & at' & tl & Hr & Ha & Hp & ->).
  apply retried_events in Hr as (Hrt & _).
  apply advanced_events in Ha as (Hat & _).
  assert (Hfr : List.filter isBroadcast rt = [])
    by (apply (filter_none _ _ rt Hrt); intros []; simpl; congruence).
  assert (Hfa : List.filter isBroadcast at' = [])
    by (apply (filter_none _ _ at' Hat); intros []; simpl; congruence).
  destruct Hp as (rq & pre & Hreq & Hp).
  assert (Hfp : List.filter isBroadcast pre = []).
  { destruct Hreq as [(_ & _ & ->)|(t & _ & _ & -> & _)]; reflexivity. }
  assert (Hhead : List.filter isBroadcast
                    ([EvGetNowPlaying zone; EvGetQueue sessionId]
                     ++ dt ++ rt ++ at' ++ pre) = []).
  { simpl. rewrite !List.filter_app, Hfd, Hfr, Hfa, Hfp. reflexivity. }
  destruct rq as [requester|e'].
  2:{ destruct Hp as (-> & ->). rewrite Hhead.
      split; [left; reflexivity|discriminate]. }
  cbv zeta in Hp.
  assert (Hreqs : (truthy (trackIdOf np) = false -> requester = None)
                  /\ (forall item,
                        truthy (trackIdOf np) = true ->
                        e_recentItem env = inl (Some item) ->
                        requester = Some (requesterOf item))).
  { destruct Hreq as [(Hf & [= <-] & _)|(t & Hc & Hne & _ & Hrq)].
    - split; [reflexivity|]. intros item Ht. congruence.
    - split.
      + intros Hf. rewrite Hc, truthy_nonempty in Hf by assumption.
        discriminate.
      + intros item _ Hitem. rewrite Hitem in Hrq. congruence. }
  destruct Hreqs as (Hnone & Hsome).
  set (head := [EvGetNowPlaying zone; EvGetQueue sessionId]
               ++ dt ++ rt ++ at' ++ pre) in *.
  destruct (e_broadcastQueue env) as [[]|e'] eqn:Hbq.
  - destruct Hp as (-> & Hres).
    assert (Htrace : [EvGetNowPlaying zone; EvGetQueue sessionId]
                     ++ dt ++ rt ++ at'
                     ++ pre ++ [EvBroadcastQueue sessionId q';
                                EvBroadcastPlayback sessionId
                                  (buildPlaybackPayload Date_parse
                                     (e_nowPayload env) np) requester]
                     = head ++ [EvBroadcastQueue sessionId q';
                                EvBroadcastPlayback sessionId
                                  (buildPlaybackPayload Date_parse
                                     (e_nowPayload env) np) requester]).
    { unfold head. rewrite <- !app_assoc. reflexivity. }
    simpl ps_trace. rewrite Htrace. split.
    + right. exists np, q, q', requester, head.
      do 2 (split; [reflexivity|]).
      split; [exact (detected_view _ _ _ _ _ _ _ _ Hd)|].
      split; [exact Hhead|]. split; [exact Hnone|]. split; [exact Hsome|].
      right. split; [reflexivity|].
      destruct (e_broadcastPlayback env) as [[]|e']; exact Hres.
    + intros d _. rewrite List.filter_app, Hhead. discriminate.
  - destruct Hp as (-> & ->).
    assert (Htrace : [EvGetNowPlaying zone; EvGetQueue sessionId]
                     ++ dt ++ rt ++ at'
                     ++ pre ++ [EvBroadcastQueue sessionId q']
                     = head ++ [EvBroadcastQueue sessionId q']).
    { unfold head. rewrite <- !app_assoc. reflexivity. }
    simpl ps_trace. rewrite Htrace. split; [|discriminate].
    right. exists np, q, q', requester, head.
    do 2 (split; [reflexivity|]).
    split; [exact (detected_view _ _ _ _ _ _ _ _ Hd)|].
    split; [exact Hhead|]. split; [exact Hnone|]. split; [exact Hsome|].
    left. split; [reflexivity|]. exists e'. auto.
Qed.


End WithConfig.


Lemma transition_detection_witness :
  List.filter isMarkPlayed
    (ps_trace (snd (passBody no_defaults parse_epoch "s1" "zone-A"
                      (answering (inl None) empty_view)
                      (mkPState believing_song []))))
  = [EvMarkPlayed "s1" "t1"].
Proof.
  pose proof (transition_detection no_defaults parse_epoch "s1" "zone-A"
                (answering (inl None) empty_view) believing_song
                _ _ None empty_view eq_refl eq_refl eq_refl) as H.
  cbv zeta in H.
  change (changed (currentTrackId (afterConfirm (trackIdOf None) believing_song))
            (trackIdOf None)) with true in H.
  destruct H as (t & Ht & Hmarks & _).
  injection Ht as <-. exact Hmarks.
Defined.

Lemma assignments_justified_witness :
  exists q' item,
    viewUsed queued_pass (mkQueueView [next_item] (Some next_item)) q'
    /\ nextUp q' = Some item /\ spotifyTrackId item = "t9"%string.
Proof.
  refine (proj2 (proj2 (proj2 (proj2
    (assignments_justified no_defaults parse_epoch "s1" "zone-A" queued_pass
       believing_song _ _ None (mkQueueView [next_item] (Some next_item))
       Forward "zone-A" "t9" eq_refl eq_refl eq_refl _))))).
  vm_compute. tauto.
Defined.

Lemma assignment_errors_absorbed_witness :
  In (EvError forwardLabel provider_down)
     (ps_trace (snd (passBody no_defaults parse_epoch "s1" "zone-A"
                       failing_assignment (mkPState believing_song [])))).
Proof.
  refine (proj1 (proj2
    (assignment_errors_absorbed no_defaults parse_epoch "s1" "zone-A"
       failing_assignment believing_song _ _ eq_refl))
    Forward "zone-A" "t9" provider_down _ _).
  - vm_compute. tauto.
  - left. reflexivity.
Defined.

Lemma pass_broadcasts_witness :
  List.filter isBroadcast
    (ps_trace (snd (passBody no_defaults parse_epoch "s1" "zone-A"
                      (answering (inl None) empty_view)
                      (mkPState believing_song []))))
  <> [].
Proof.
  refine (proj2 (pass_broadcasts no_defaults parse_epoch "s1" "zone-A"
                   (answering (inl None) empty_view) believing_song _ _
                   eq_refl) 5000 _).
  reflexivity.
Defined.


End ReconcileProps.

(** ** The handlers' use of their collaborators *)

Module DisciplineProps.
Import JS Controller Handlers HandlersSpec DisciplineSpec JSFacts HandlersProps.

#[local] Set Warnings "-unused-intro-pattern".
#[local] Arguments truthy : simpl never.
#[local] Arguments seq : simpl never.

Ltac unfold_handler_in H :=
  unfold add, remove, vote, addBody, removeBody, voteBody, addResolved,
    afterRemoval, castVote, chargeGuest, refundTarget, resolveClerkUserId,
    queueService_vote, beforeChange, addCatch, removeCatch, voteCatch,
    resolveSessionActor, emitQueueState, spendCredits, addCredits,
    runHandler, try_catch, call, settle, bind, emit, setSpent, getSpent,
    setActorCredits, getActorCredits, when, ret, throw, respond, h_init in H.

(** Case analysis on every decision of the handler run [H], innermost
    first; at each leaf the response and the final state are explicit. *)
Ltac split_run H :=
  repeat (simpl in H;
          match type of H with
          | context [match ?x with _ => _ end] =>
              lazymatch x with
              | context [match _ with _ => _ end] => fail
              | _ => destruct x eqn:?
              end
          end);
  simpl in H; injection H; clear H; intros; subst; simpl.

Ltac read_tests :=
  repeat match goal with
         | H : seq _ _ = true |- _ => apply seq_true in H
         | H : seq _ _ = false |- _ => apply seq_false in H
         | H : truthy _ = true |- _ =>
             let t := fresh "t" in
             let Ht := fresh "Ht" in
             let Hne := fresh "Hne" in
             apply truthy_Some in H as (t & Ht & Hne)
         | H : bool_decide _ = true |- _ => apply bool_decide_eq_true in H
         | H : bool_decide _ = false |- _ => apply bool_decide_eq_false in H
         | H : negb _ = true |- _ => apply negb_true_iff in H
         | H : negb _ = false |- _ => apply negb_false_iff in H
         | H : _ && _ = true |- _ => apply andb_true_iff in H as [? ?]
         | H : _ || _ = false |- _ => apply orb_false_iff in H as [? ?]
         | H : Some _ = Some _ |- _ => injection H; clear H; intros; subst
         end.

(** Membership in an explicit trace, case by case. *)
Ltac in_cases H :=
  simpl in H;
  repeat (destruct H as [H|H];
          [first [discriminate H|injection H; intros; subst|subst]|]);
  try contradiction.

(** Replace every option known to be [Some t] by that value. *)
Ltac known_options :=
  try match goal with
      | H : None = Some _ |- _ => discriminate H
      | H : Some _ = None |- _ => discriminate H
      end;
  repeat match goal with
         | u : unit |- _ => destruct u
         | H : ?x = Some _ |- _ =>
             lazymatch x with Some _ => fail | _ => idtac end;
             first [is_var x; subst x | progress (rewrite H in * )]
         | H : Some _ = ?x |- _ =>
             lazymatch x with Some _ => fail | _ => idtac end;
             first [is_var x; subst x | progress (rewrite <- H in * )]
         | H : Some _ = Some _ |- _ => injection H; clear H; intros; subst
         end.

Lemma voteType_checked (voteType : Z) :
  negb (bool_decide (voteType = 1)) && negb (bool_decide (voteType = -1))
  = false ->
  voteType = 1 \/ voteType = -1.
Proof.
  destruct (decide (voteType = 1)) as [H1|H1]; [auto|].
  destruct (decide (voteType = -1)) as [H2|H2]; [auto|].
  rewrite (bool_decide_eq_false_2 _ H1), (bool_decide_eq_false_2 _ H2).
  discriminate.
Qed.

Section WithCosts.
Variable GUEST_TRACK_COST : Z.
Variable VOTE_REACTION_COST : Z.
Variable defaultSoundZone : option string.

(** X13.  Whatever the request and whatever the collaborators answer, [add]
    calls the ledger and the queue store under these rules: at most one
    spend, one queue write and one credit, no removal and no vote; every
    spend is of the track cost, from the authenticated user; every credit
    is the refund of an accepted spend to the same user, and the answer is
    then not the success payload; a queue write needs an active session
    and either the host or an accepted spend; and the success payload
    carries the stored item and, for a guest only, the balance snapshot of
    the spend. *)
Theorem add_discipline (req : Request) (sessionId : string)
    (content : option Content) (env : AddEnv) :
  let run := add GUEST_TRACK_COST defaultSoundZone req sessionId content env in
  let tr := h_trace (snd run) in
  (count isSpend tr <= 1)%nat
  /\ (count isQueueWrite tr <= 1)%nat
  /\ (count isCredit tr <= 1)%nat
  /\ count isRemoval tr = 0%nat
  /\ count isVote tr = 0%nat
  /\ (forall u a ok, In (EvSpend u a ok) tr ->
        a = GUEST_TRACK_COST /\ authUserId req = Some u /\ u <> ""%string
        /\ ok = accepted (a_spend env))
  /\ (forall u a ok, In (EvCredit u a ok) tr ->
        a = GUEST_TRACK_COST
        /\ In (EvSpend u GUEST_TRACK_COST true) tr
        /\ ok = accepted (a_refund env)
        /\ forall item role view c, body (fst run) <> BAdded item role view c)
  /\ (forall ev, In ev tr -> isQueueWrite ev = true ->
        exists session,
          activeSession (a_actor env) session
          /\ (sessionUserId req = Some (hostId session)
              \/ exists u, In (EvSpend u GUEST_TRACK_COST true) tr))
  /\ (forall item role view c,
        body (fst run) = BAdded item role view c ->
        status (fst run) = 200
        /\ a_addToQueue env = inl item /\ a_emit env = inl view
        /\ count isQueueWrite tr = 1%nat /\ count isCredit tr = 0%nat
        /\ match role with
           | RoleHost => c = None /\ count isSpend tr = 0%nat
           | RoleGuest => exists snapshot, c = Some snapshot
                                           /\ a_spend env = inl snapshot
           end).
Proof.
  cbv zeta.
  destruct (add GUEST_TRACK_COST defaultSoundZone req sessionId content env)
    as [resp st] eqn:Hrun.
  unfold_handler_in Hrun. split_run Hrun.
  all: simpl; unfold count, activeSession; simpl.
  all: repeat match goal with |- _ /\ _ => split end.
  all: try lia.
  all: try (intros ? ? ? Hin; in_cases Hin; read_tests; simpl;
            repeat split; auto 10; try congruence; fail).
  all: try (intros ? Hin Hw; in_cases Hin; simpl in Hw; try discriminate Hw; read_tests;
            eexists; (split; [split; eassumption|]);
            first [left; assumption|right; eexists; simpl; auto 10]; fail).
  all: try (intros ? ? ? ? Hb; try discriminate Hb;
            injection Hb; intros; subst; simpl;
            repeat split; eauto; fail).
Qed.

(** X14.  Whatever the request and whatever the collaborators answer,
    [remove] never spends, writes or votes; it attempts at most one removal,
    for the requested item and with the actor resolved for the item's
    session, and at most one credit, of the track cost, only after the
    removal succeeded, to the guest recorded on the item or found by the
    guest look-up; the success payload carries a balance snapshot only
    when the refunded identity is the authenticated user's own. *)
Theorem remove_discipline (req : Request) (queueItemId : string)
    (env : RemoveEnv) :
  let run := remove GUEST_TRACK_COST defaultSoundZone req queueItemId env in
  let tr := h_trace (snd run) in
  count isSpend tr = 0%nat
  /\ count isQueueWrite tr = 0%nat
  /\ count isVote tr = 0%nat
  /\ (count isRemoval tr <= 1)%nat
  /\ (count isCredit tr <= 1)%nat
  /\ (forall qid actor, In (EvRemoveFromQueue qid actor) tr ->
        qid = queueItemId
        /\ exists item session,
             r_item env = inl (Some item)
             /\ activeSession (r_actor env) session
             /\ ((actor = ActorUser (hostId session)
                  /\ sessionUserId req = Some (hostId session))
                 \/ exists g,
                      e_getGuestById (r_actor env) = inl (Some g)
                      /\ actor = ActorGuest (guestRecordId g)
                      /\ guestSessionId g = qi_sessionId item))
  /\ (forall u a ok, In (EvCredit u a ok) tr ->
        a = GUEST_TRACK_COST /\ ok = accepted (r_refund env)
        /\ r_remove env = inl tt /\ u <> ""%string
        /\ exists item,
             r_item env = inl (Some item)
             /\ (qi_addedByGuestClerkUserId item = Some u
                 \/ exists g, r_guestLookup env = inl (Some g)
                              /\ guestClerkUserId g = Some u))
  /\ (forall view c,
        body (fst run) = BRemoved view c ->
        status (fst run) = 200
        /\ r_remove env = inl tt /\ r_emit env = inl view
        /\ count isRemoval tr = 1%nat
        /\ forall snapshot, c = Some snapshot ->
             r_refund env = inl snapshot
             /\ exists u, authUserId req = Some u
                          /\ In (EvCredit u GUEST_TRACK_COST true) tr).
Proof.
  cbv zeta.
  destruct (remove GUEST_TRACK_COST defaultSoundZone req queueItemId env)
    as [resp st] eqn:Hrun.
  unfold_handler_in Hrun. split_run Hrun.
  all: simpl; unfold count, activeSession; simpl.
  all: repeat match goal with |- _ /\ _ => split end.
  all: try lia.
  all: try reflexivity.
  all: try (intros ? ? Hin; in_cases Hin; read_tests;
            (split; [reflexivity|]); eexists _, _;
            (split; [reflexivity|]); (split; [split; eassumption|]);
            eauto 8; fail).
  all: try (intros ? ? ? Hin; in_cases Hin; read_tests; known_options;
            simpl; (split; [reflexivity|]); (split; [reflexivity|]);
            (split; [reflexivity|]); (split; [assumption|]);
            eexists; (split; [reflexivity|]); eauto 8; fail).
  all: try (intros ? ? Hb; try discriminate Hb;
            injection Hb; intros; subst; read_tests; known_options;
            (split; [reflexivity|]); (split; [reflexivity|]);
            (split; [reflexivity|]); (split; [reflexivity|]);
            intros ? Hs; try discriminate Hs;
            injection Hs; intros; subst; known_options;
            (split; [reflexivity|]); eexists; (split; [reflexivity|]);
            simpl; auto 10; fail).
Qed.

(** X15.  Whatever the request and whatever the collaborators answer, [vote]
    never writes or removes queue items; it calls the store at most once,
    for the requested item, a vote type of 1 or -1 and the resolved actor;
    it spends at most once, the vote cost, only for the intent [add], from
    the host's authenticated identity or the guest record's; every credit
    is of the vote cost and is either the credit for a vote reported as
    removed or the refund of an accepted spend after a failure; at most
    one credit is accepted; and a balance snapshot in the answer belongs
    to the authenticated user. *)
Theorem vote_discipline (req : Request) (queueItemId : string) (voteType : Z)
    (env : VoteEnv) :
  let run := vote VOTE_REACTION_COST defaultSoundZone req queueItemId
               voteType env in
  let tr := h_trace (snd run) in
  count isQueueWrite tr = 0%nat
  /\ count isRemoval tr = 0%nat
  /\ (count isVote tr <= 1)%nat
  /\ (count isSpend tr <= 1)%nat
  /\ (count isAcceptedCredit tr <= 1)%nat
  /\ (forall qid actor vt, In (EvVote qid actor vt) tr ->
        qid = queueItemId /\ vt = voteType /\ (voteType = 1 \/ voteType = -1)
        /\ exists item session,
             v_item env = inl (Some item)
             /\ activeSession (v_actor env) session
             /\ ((actor = ActorUser (hostId session)
                  /\ sessionUserId req = Some (hostId session))
                 \/ exists g,
                      e_getGuestById (v_actor env) = inl (Some g)
                      /\ actor = ActorGuest (guestRecordId g)
                      /\ guestSessionId g = qi_sessionId item))
  /\ (forall u a ok, In (EvSpend u a ok) tr ->
        a = VOTE_REACTION_COST /\ ok = accepted (v_spend env)
        /\ u <> ""%string
        /\ (exists commit, v_store env = StoreDecides "add" commit)
        /\ (authUserId req = Some u
            \/ exists g, v_guestLookup env = inl (Some g)
                         /\ guestClerkUserId g = Some u))
  /\ (forall u a ok, In (EvCredit u a ok) tr ->
        a = VOTE_REACTION_COST /\ u <> ""%string
        /\ ((exists intent result,
               v_store env = StoreDecides intent (inl result)
               /\ action result = "removed"%string
               /\ ok = accepted (v_creditRemoved env))
            \/ (In (EvSpend u VOTE_REACTION_COST true) tr
                /\ ok = accepted (v_refund env)
                /\ forall result view c,
                     body (fst run) <> BVoted result view c)))
  /\ (forall result view c,
        body (fst run) = BVoted result view c ->
        status (fst run) = 200
        /\ (exists intent, v_store env = StoreDecides intent (inl result))
        /\ v_emit env = inl view
        /\ count isVote tr = 1%nat
        /\ forall snapshot, c = Some snapshot ->
             exists u, authUserId req = Some u
                       /\ (In (EvSpend u VOTE_REACTION_COST true) tr
                           \/ In (EvCredit u VOTE_REACTION_COST true) tr)).
Proof.
  cbv zeta.
  destruct (vote VOTE_REACTION_COST defaultSoundZone req queueItemId voteType env)
    as [resp st] eqn:Hrun.
  unfold_handler_in Hrun. split_run Hrun.
  all: simpl; unfold count, activeSession; simpl.
  all: repeat match goal with |- _ /\ _ => split end.
  all: try lia.
  all: try reflexivity.
  all: try (intros ? ? ? Hb; discriminate Hb).
  all: try (intros ? ? ? Hin; in_cases Hin; fail).
  all: try (intros ? ? ? Hin; in_cases Hin;
            (split; [reflexivity|]); (split; [reflexivity|]);
            (split; [apply voteType_checked; assumption|]);
            read_tests; known_options; simpl; eexists _, _;
            (split; [reflexivity|]); (split; [split; eassumption|]);
            eauto 8; fail).
  all: try (intros ? ? ? Hin; in_cases Hin; read_tests; subst;
            known_options;
            simpl; (split; [reflexivity|]); (split; [reflexivity|]);
            (split; [assumption|]); (split; [eexists; reflexivity|]);
            eauto 8; fail).
  all: try (intros ? ? ? Hin; in_cases Hin; read_tests; known_options;
            simpl; (split; [reflexivity|]); (split; [assumption|]);
            first [left; eexists _, _; (split; [reflexivity|]);
                   split; [assumption|reflexivity]
                  |right; (split; [simpl; auto 10|]);
                   (split; [reflexivity|]); intros; discriminate]; fail).
  all: try (intros ? ? ? Hb; injection Hb; intros; subst;
            read_tests; known_options;
            (split; [reflexivity|]); (split; [eexists; reflexivity|]);
            (split; [reflexivity|]); (split; [reflexivity|]);
            intros ? Hs; try discriminate Hs;
            injection Hs; intros; subst;
            eexists; (split; [reflexivity|]);
            first [left; simpl; auto 10; fail|right; simpl; auto 10]; fail).
Qed.

(** X12.  [resolveSessionActor] resolves only for an active session: the
    host, recognised by the request's session user id, without a guest
    look-up, or a guest whose record, found under the request's entry for
    this session, belongs to this session; the zone is the session's own
    or else the configured default.  It answers "not found" exactly for a
    missing or inactive session, drops the request's entry exactly when
    the guest record is missing or belongs to another session, throws only
    what the session store threw, and never touches the spend receipt. *)
Theorem resolveSessionActor_sound (req : Request) (sessionId : string)
    (env : ActorEnv) (s : HState) :
  let run := resolveSessionActor defaultSoundZone req sessionId env s in
  h_spent (snd run) = h_spent s
  /\ h_actorCredits (snd run) = h_actorCredits s
  /\ exists added,
       h_trace (snd run) = h_trace s ++ added
       /\ match fst run with
          | Val (inr context) =>
              activeSession env (ctx_session context)
              /\ ctx_soundZoneId context
                 = zoneOf defaultSoundZone (ctx_session context)
              /\ match ctx_role context with
                 | RoleHost =>
                     sessionUserId req = Some (hostId (ctx_session context))
                     /\ ctx_actor context
                        = ActorUser (hostId (ctx_session context))
                     /\ added = [EvGetSession sessionId]
                 | RoleGuest =>
                     sessionUserId req <> Some (hostId (ctx_session context))
                     /\ exists entry guest,
                          guestSessionEntry req = Some entry
                          /\ e_getGuestById env = inl (Some guest)
                          /\ guestSessionId guest = sessionId
                          /\ guestRecordId guest <> ""%string
                          /\ ctx_actor context
                             = ActorGuest (guestRecordId guest)
                          /\ added = [EvGetSession sessionId; EvGetGuest entry]
                 end
          | Val (inl msg) =>
              (msg = sessionNotFound
               /\ (e_getSession env = inl None
                   \/ exists session, e_getSession env = inl (Some session)
                                      /\ isActive session = false)
               /\ added = [EvGetSession sessionId])
              \/ (msg = joinFirst
                  /\ (exists session, activeSession env session
                        /\ sessionUserId req <> Some (hostId session))
                  /\ (In (EvDropGuestSession sessionId) added
                      <-> exists entry,
                            guestSessionEntry req = Some entry
                            /\ (e_getGuestById env = inl None
                                \/ exists guest,
                                     e_getGuestById env = inl (Some guest)
                                     /\ guestSessionId guest <> sessionId)))
          | Throw e => e_getSession env = inr e \/ e_getGuestById env = inr e
          | Return _ => False
          end.
Proof.
  cbv zeta.
  destruct (resolveSessionActor defaultSoundZone req sessionId env s)
    as [o s'] eqn:Hrun.
  unfold_handler_in Hrun. split_run Hrun.
  all: unfold activeSession, zoneOf; simpl.
  all: (split; [reflexivity|]); (split; [reflexivity|]).
  all: rewrite <- ?app_assoc; simpl; eexists; (split; [reflexivity|]).
  all: repeat match goal with
              | H : truthy ?x = _ |- context [truthy ?x] => rewrite H
              end.
  all: read_tests.
  all: try (left; repeat split; eauto; fail).
  all: try (repeat split; eauto 10; congruence).
  all: try (right; split; [reflexivity|]; split; [eauto 10|]; split;
            [intros Hin; in_cases Hin
            |intros (entry & Hentry & [Hnone|(guest & Hguest & Hother)]);
             congruence]).
  all: right; (split; [reflexivity|]); (split; [eauto 10|]);
    (split; [intros _; eauto 10|intros _; simpl; auto 10]).
Qed.

End WithCosts.

Lemma guest_add_ready (zone : option string) (env : AddEnv) :
  a_actor env = stores_answer ->
  guest_ready zone guest_request "s1" sample_content env guest_context
    (mkHState [EvGetSession "s1"; EvGetGuest "g1"] None None) "user-7".
Proof.
  intros Henv. unfold guest_ready. rewrite Henv.
  split; [reflexivity|]. split; [reflexivity|].
  split; [vm_compute; reflexivity|]. split; [reflexivity|].
  split; [reflexivity|]. split; [reflexivity|discriminate].
Qed.

Lemma add_guest_protocol_witness :
  count isSpend
    (h_trace (snd (add 1 None guest_request "s1" (Some sample_content)
                     (adding (inr (OtherError "Track already in queue"))))))
  = 1%nat.
Proof.
  exact (proj1 (add_guest_protocol 1 None guest_request "s1" sample_content
                  (adding (inr (OtherError "Track already in queue")))
                  guest_context _ "user-7"
                  (guest_add_ready None
                     (adding (inr (OtherError "Track already in queue")))
                     eq_refl))).
Defined.

End DisciplineProps.

(** ** The handlers and the playback service *)

Module WiringProps.
Import JS Controller Handlers HandlersSpec DisciplineSpec Wiring WiringSpec
  JSFacts HandlersProps DisciplineProps.
Import PlaybackSpec LifecycleSpec PlaybackProps LifecycleProps.

#[local] Set Warnings "-unused-intro-pattern".
#[local] Arguments truthy : simpl never.
#[local] Arguments seq : simpl never.
#[local] Arguments Playback.ensureMonitor : simpl never.
#[local] Arguments Playback.requestImmediateSync : simpl never.
#[local] Arguments Playback.schedulePoll : simpl never.

Lemma others_kept_refl (sessionId : string) (st : Playback.Service) :
  others_kept sessionId st st.
Proof. split; intros; reflexivity. Qed.

Lemma others_kept_trans (sessionId : string) (st1 st2 st3 : Playback.Service) :
  others_kept sessionId st1 st2 -> others_kept sessionId st2 st3 ->
  others_kept sessionId st1 st3.
Proof.
  intros (Hm1 & Ht1) (Hm2 & Ht2). split.
  - intros other Ho. rewrite (Hm2 other Ho). apply Hm1. exact Ho.
  - intros h t Ho. rewrite (Ht2 h t Ho). apply Ht1. exact Ho.
Qed.

Lemma schedulePoll_others (sessionId : string) (delayMs : Z)
    (st : Playback.Service) :
  well_formed st ->
  others_kept sessionId st (Playback.schedulePoll sessionId delayMs st).
Proof.
  intros Hw. unfold Playback.schedulePoll.
  destruct (Playback.monitors st !! sessionId) as [m|] eqn:Hm;
    [|apply others_kept_refl].
  split; simpl.
  - intros other Ho. apply lookup_insert_ne. congruence.
  - intros h t Ho.
    destruct (decide (Playback.next_timer st = h)) as [<-|Hn].
    + rewrite lookup_insert_eq. split.
      * intros [= <-]. contradiction Ho. reflexivity.
      * intros Ht. pose proof (consistent_pending_lt _ _ _ (proj1 Hw) Ht). lia.
    + rewrite lookup_insert_ne by assumption.
      destruct (Playback.timeout m) as [h0|] eqn:Ht0; [|reflexivity].
      unfold Playback.clearTimeout.
      destruct (decide (h0 = h)) as [->|Hd].
      * rewrite lookup_delete_eq. split; [discriminate|].
        intros Ht. destruct (proj2 Hw _ _ _ Hm Ht0) as (d & Hd).
        rewrite Hd in Ht. injection Ht as <-. contradiction Ho. reflexivity.
      * rewrite lookup_delete_ne by assumption. reflexivity.
Qed.

Lemma requestImmediateSync_registers_nothing (sessionId other : string)
    (delayMs : Z) (st : Playback.Service) :
  Playback.monitors st !! other = None ->
  Playback.monitors (Playback.requestImmediateSync sessionId delayMs st)
    !! other = None.
Proof.
  intros Hnone. unfold Playback.requestImmediateSync.
  destruct (Playback.monitors st !! sessionId) as [m|] eqn:Hm; [|exact Hnone].
  destruct (Playback.processing m); [exact Hnone|].
  destruct (schedulePoll_lookup sessionId delayMs st m Hm) as (Hmon & _).
  rewrite Hmon, lookup_insert_ne; [exact Hnone|]. congruence.
Qed.

Lemma requestImmediateSync_unmonitored (sessionId : string) (delayMs : Z)
    (st : Playback.Service) :
  Playback.monitors st !! sessionId = None ->
  Playback.requestImmediateSync sessionId delayMs st = st.
Proof.
  intros Hnone. unfold Playback.requestImmediateSync. rewrite Hnone.
  reflexivity.
Qed.

Section WithPlayback.
Variable config : Playback.Config.

Lemma ensureMonitor_others (sessionId host : string) (zone : option string)
    (st : Playback.Service) :
  well_formed st ->
  others_kept sessionId st (Playback.ensureMonitor config sessionId host zone st).
Proof.
  intros Hw. unfold Playback.ensureMonitor.
  destruct (Playback.monitors st !! sessionId) as [m|] eqn:Hm.
  - assert (Hk : others_kept sessionId st
                   (Playback.with_monitors
                      (<[sessionId :=
                           Playback.set_soundZoneId
                             (nullish zone (Playback.soundZoneId m))
                             (Playback.set_hostId host m)]>
                         (Playback.monitors st)) st)).
    { split; simpl; [|reflexivity].
      intros other Ho. apply lookup_insert_ne. congruence. }
    match goal with
    | |- context [if ?b then _ else _] => destruct b
    end; [|exact Hk].
    eapply others_kept_trans; [exact Hk|].
    apply schedulePoll_others. apply (update_monitor_wf sessionId m); auto.
  - match goal with
    | |- others_kept _ _ (Playback.schedulePoll _ _ ?st1) =>
        assert (Hk : others_kept sessionId st st1);
        [|eapply others_kept_trans; [exact Hk|]; apply schedulePoll_others]
    end.
    + split; simpl; [|reflexivity].
      intros other Ho. apply lookup_insert_ne. congruence.
    + destruct Hw as (Hc & Hl). split.
      * apply with_monitors_fresh_consistent; auto.
      * intros sid m' h. simpl.
        destruct (decide (sessionId = sid)) as [<-|Hd].
        -- rewrite lookup_insert_eq. intros [= <-]. discriminate.
        -- rewrite lookup_insert_ne by assumption. apply Hl.
Qed.

(** After [ensureMonitor] the session is registered for the host, idle if it
    was, and has a pending timer. *)
Lemma ensureMonitor_registers (sessionId host : string) (zone : option string)
    (st : Playback.Service) :
  well_formed st -> idle sessionId st ->
  exists m h d,
    Playback.monitors (Playback.ensureMonitor config sessionId host zone st)
      !! sessionId = Some m
    /\ Playback.hostId m = host
    /\ Playback.processing m = false
    /\ Playback.soundZoneId m
       = nullish zone
           (match Playback.monitors st !! sessionId with
            | Some m0 => Playback.soundZoneId m0
            | None => Playback.defaultSoundZone config
            end)
    /\ Playback.timeout m = Some h
    /\ Playback.timers (Playback.ensureMonitor config sessionId host zone st)
         !! h = Some (Playback.mkTimer sessionId d).
Proof.
  intros Hw Hidle.
  destruct (Playback.monitors st !! sessionId) as [m|] eqn:Hm.
  - pose proof (Hidle m Hm) as Hp.
    destruct (Playback.timeout m) as [h|] eqn:Ht.
    + rewrite (ensureMonitor_present_busy config _ _ _ _ m Hm)
        by (intros (Hn & _); congruence).
      destruct (proj2 Hw _ _ _ Hm Ht) as (d & Hd).
      eexists _, h, d. simpl. rewrite lookup_insert_eq.
      split; [reflexivity|]. simpl. rewrite Hp, Ht. auto.
    + rewrite (ensureMonitor_present_idle config _ _ _ _ m Hm Ht Hp).
      eexists _, _, 0. simpl. rewrite !lookup_insert_eq.
      split; [reflexivity|]. simpl. auto.
  - rewrite (ensureMonitor_absent config _ _ _ _ Hm).
    eexists _, _, 0. simpl. rewrite !lookup_insert_eq.
    split; [reflexivity|]. simpl. auto.
Qed.

(** [ensureMonitor] followed by [requestImmediateSync] polls the session at
    once. *)
Lemma ensure_then_sync (sessionId host : string) (zone : option string)
    (st : Playback.Service) :
  well_formed st -> idle sessionId st ->
  polled_now sessionId host
    (Playback.requestImmediateSync sessionId 0
       (Playback.ensureMonitor config sessionId host zone st))
  /\ well_formed
       (Playback.requestImmediateSync sessionId 0
          (Playback.ensureMonitor config sessionId host zone st))
  /\ others_kept sessionId st
       (Playback.requestImmediateSync sessionId 0
          (Playback.ensureMonitor config sessionId host zone st)).
Proof.
  intros Hw Hidle.
  destruct (ensureMonitor_registers sessionId host zone st Hw Hidle)
    as (m & h & d & Hm & Hhost & Hp & _ & Ht & Htimer).
  set (st1 := Playback.ensureMonitor config sessionId host zone st) in *.
  assert (Hw1 : well_formed st1) by (apply ensureMonitor_wf; exact Hw).
  assert (Hsync : Playback.requestImmediateSync sessionId 0 st1
                  = Playback.schedulePoll sessionId 0 st1).
  { apply requestImmediateSync_rearm. exists m. auto. }
  rewrite Hsync.
  pose proof (schedulePoll_wf sessionId 0 st1 Hw1) as Hw2.
  destruct (schedulePoll_lookup sessionId 0 st1 m Hm) as (Hmon & Hnew & _).
  split; [|split; [exact Hw2|]].
  - exists (Playback.set_timeout (Some (Playback.next_timer st1)) m),
      (Playback.next_timer st1).
    split; [rewrite Hmon; apply lookup_insert_eq|].
    split; [exact Hhost|]. split; [exact Hp|]. split; [reflexivity|].
    split; [exact Hnew|].
    intros h' t Hl Hs.
    destruct (proj1 (proj1 Hw2) _ _ Hl) as (m2 & Hm2 & Ht2).
    rewrite Hs, Hmon, lookup_insert_eq in Hm2. injection Hm2 as <-.
    simpl in Ht2. congruence.
  - eapply others_kept_trans; [apply ensureMonitor_others; exact Hw|].
    apply schedulePoll_others. exact Hw1.
Qed.

End WithPlayback.

Section WithCosts.
Variable config : Playback.Config.
Variable GUEST_TRACK_COST : Z.
Variable VOTE_REACTION_COST : Z.
Variable defaultSoundZone : option string.

(** What the playback calls of a handler trace did, by the shape of the
    resulting service. *)
Ltac playback_facts Hw Hidle :=
  lazymatch goal with
  | |- context [Playback.requestImmediateSync ?sid 0
                  (Playback.ensureMonitor config ?sid ?host ?zone ?st)] =>
      let Hpolled := fresh "Hpolled" in
      let Hw2 := fresh "Hw2" in
      let Hothers := fresh "Hothers" in
      destruct (ensure_then_sync config sid host zone st Hw Hidle)
        as (Hpolled & Hw2 & Hothers)
  | |- context [Playback.ensureMonitor config ?sid ?host ?zone ?st] =>
      let Hreg := fresh "Hreg" in
      pose proof (ensureMonitor_wf config sid host zone st Hw);
      pose proof (ensureMonitor_others config sid host zone st Hw);
      pose proof (ensureMonitor_registers config sid host zone st Hw Hidle)
        as Hreg
  | |- _ => pose proof (others_kept_refl)
  end.


(** X19.  [vote] never registers a monitor: it makes no playback call
    unless the vote succeeded, and then only [requestImmediateSync] for the
    item's session, which does nothing when that session is not
    monitored. *)
Theorem vote_never_starts_monitoring (req : Request) (queueItemId : string)
    (voteType : Z) (env : VoteEnv) (st : Playback.Service) :
  well_formed st ->
  let run := vote VOTE_REACTION_COST defaultSoundZone req queueItemId
               voteType env in
  let st' := playbackCalls config (h_trace (snd run)) st in
  well_formed st'
  /\ (forall sessionId,
        Playback.monitors st !! sessionId = None ->
        Playback.monitors st' !! sessionId = None)
  /\ (forall item,
        v_item env = inl (Some item) ->
        Playback.monitors st !! qi_sessionId item = None -> st' = st)
  /\ (st' = st
      \/ exists item result view c,
           v_item env = inl (Some item)
           /\ body (fst run) = BVoted result view c
           /\ st' = Playback.requestImmediateSync (qi_sessionId item) 0 st).
Proof.
  intros Hw. cbv zeta.
  destruct (vote VOTE_REACTION_COST defaultSoundZone req queueItemId
              voteType env) as [resp st1] eqn:Hrun.
  unfold_handler_in Hrun. split_run Hrun.
  all: unfold playbackCalls; simpl.
  all: try (split; [exact Hw|]; split; [auto|]; split; [reflexivity|];
            left; reflexivity).
  all: split; [apply requestImmediateSync_wf; exact Hw|].
  all: split; [intros ?; apply requestImmediateSync_registers_nothing|].
  all: split;
    [intros ? Hitem Hnone; injection Hitem as <-;
     apply requestImmediateSync_unmonitored; exact Hnone|].
  all: right; eexists _, _, _, _; split; [reflexivity|]; split; reflexivity.
Qed.

End WithCosts.

Section GetHandler.
Variable config : Playback.Config.
Variable defaultSoundZone : option string.


End GetHandler.

Lemma empty_idle (sessionId : string) : idle sessionId empty_service.
Proof. intros m H. simpl in H. rewrite lookup_empty in H. discriminate. Qed.


Lemma vote_never_starts_monitoring_witness :
  playbackCalls no_defaults
    (h_trace (snd (vote 1 None guest_request "q1" 1
                     (voting (StoreDecides "add" (inl added_vote))))))
    empty_service
  = empty_service.
Proof.
  exact (proj1 (proj2 (proj2
    (vote_never_starts_monitoring no_defaults 1 None guest_request "q1" 1
       (voting (StoreDecides "add" (inl added_vote))) empty_service
       (empty_wf true))))
    guest_item eq_refl eq_refl).
Defined.


End WiringProps.

(** ** The playback payload *)

Module PayloadProps.
Import JS Soundtrack Progress Playback PayloadSpec JSFacts ProgressProps.

#[local] Arguments truthy : simpl never.
#[local] Arguments seq : simpl never.
#[local] Arguments computeProgressMs : simpl never.

Section WithClock.
Variable Date_parse : string -> option Z.

Lemma computeProgressMs_mono (now now' : Z) (np : option NowPlaying) :
  now <= now' ->
  match computeProgressMs Date_parse now np,
        computeProgressMs Date_parse now' np with
  | Some x, Some x' => x <= x'
  | None, None => True
  | _, _ => False
  end.
Proof.
  intros Hle. unfold computeProgressMs.
  destruct np as [n|]; [|exact I].
  destruct (negb (truthy (startedAt n))); [exact I|].
  destruct (startedAt n) as [s|]; [|exact I].
  destruct (Date_parse s) as [t|]; [|exact I].
  destruct (Z.ltb_spec (now - t) 0), (Z.ltb_spec (now' - t) 0); try lia.
  - destruct (durationOf (Some n)) as [d|]; [|lia].
    destruct (Z.ltb_spec 0 d); lia.
  - destruct (durationOf (Some n)) as [d|]; [|lia].
    destruct (Z.ltb_spec 0 d); lia.
Qed.

(** X21.  The playback payload sent to clients: it exists exactly for a
    non-null report; [isPlaying] holds exactly for the state PLAYING; the
    track is copied field by field; and the progress, computed from the
    start time alone, does not depend on the reported state (it keeps
    growing while paused), never decreases as the clock advances, is never
    negative and never exceeds a known positive duration. *)
Theorem payload_spec (now now' : Z) (np : NowPlaying) :
  now <= now' ->
  buildPlaybackPayload Date_parse now None = None
  /\ exists p p',
       buildPlaybackPayload Date_parse now (Some np) = Some p
       /\ buildPlaybackPayload Date_parse now' (Some np) = Some p'
       /\ (isPlaying p = true <-> state np = Some Playing)
       /\ pp_startedAt p = startedAt np
       /\ (pp_track p = None <-> track np = None)
       /\ (forall t, track np = Some t ->
             exists pt, pp_track p = Some pt
                        /\ pt_id pt = id t /\ pt_name pt = name t
                        /\ pt_durationMs pt = durationMs t
                        /\ pt_artists pt = artists t)
       /\ (forall s,
             option_map progressMs
               (buildPlaybackPayload Date_parse now (Some (with_state s np)))
             = Some (progressMs p))
       /\ match progressMs p, progressMs p' with
          | Some x, Some x' =>
              0 <= x <= x'
              /\ (forall d, durationOf (Some np) = Some d -> 0 < d -> x' <= d)
          | None, None =>
              forall s start, startedAt np = Some s -> s <> ""%string ->
                              Date_parse s <> Some start
          | _, _ => False
          end.
Proof.
  intros Hle. split; [reflexivity|].
  eexists _, _. split; [reflexivity|]. split; [reflexivity|]. simpl.
  split; [apply seq_true|]. split; [reflexivity|].
  split; [destruct (track np); split; congruence|].
  split; [intros t ->; eexists; repeat split; reflexivity|].
  split; [intros s; reflexivity|].
  pose proof (computeProgressMs_mono now now' (Some np) Hle) as Hmono.
  destruct (computeProgressMs Date_parse now (Some np)) as [x|] eqn:Hx,
           (computeProgressMs Date_parse now' (Some np)) as [x'|] eqn:Hx';
    try contradiction.
  - split.
    + pose proof (computeProgressMs_nonneg _ _ _ _ Hx). lia.
    + intros d Hd Hpos.
      exact (computeProgressMs_le_duration _ _ _ _ _ Hx' Hd Hpos).
  - intros s start Hs Hne Hp.
    rewrite (computeProgressMs_parseable Date_parse now np start) in Hx
      by (exists s; auto).
    destruct (now - start <? 0); [discriminate|].
    destruct (durationOf (Some np)) as [d|]; [|discriminate].
    destruct (0 <? d); discriminate.
Qed.

End WithClock.

Lemma payload_spec_witness :
  exists p,
    buildPlaybackPayload parse_epoch 200 (Some paused_report) = Some p
    /\ isPlaying p = false /\ progressMs p = Some 200.
Proof.
  destruct (payload_spec parse_epoch 200 300 paused_report)
    as (_ & p & p' & Hp & _).
  - lia.
  - exists p. split; [exact Hp|].
    injection Hp as <-. split; reflexivity.
Defined.

End PayloadProps.

(** ** Configuration *)

Module SettingsProps.
Import Stdlib.Strings.Ascii JS Settings SettingsSpec JSFacts.

#[local] Arguments truthy : simpl never.

Lemma append_cons (c : ascii) (s t : string) :
  String.append (String c s) t = String c (String.append s t).
Proof. reflexivity. Qed.

Lemma append_not_empty (p : string) (c : ascii) :
  String.append p (String c EmptyString) <> EmptyString.
Proof. destruct p; discriminate. Qed.

Lemma normalizeUrl_empty_iff (url : string) :
  normalizeUrl url = EmptyString <-> exists k, url = slashes k.
Proof.
  induction url as [|c rest IH]; simpl.
  - split; [intros _; exists 0%nat; reflexivity|reflexivity].
  - destruct (Ascii.eqb_spec c "/"%char) as [->|Hc]; simpl.
    + destruct (String.eqb_spec (normalizeUrl rest) EmptyString) as [He|He].
      * split; [|reflexivity]. intros _.
        destruct (proj1 IH He) as (k & ->). exists (S k). reflexivity.
      * split; [discriminate|].
        intros ([|k] & Hk); [discriminate|]. injection Hk as ->.
        exfalso. apply He. apply IH. eauto.
    + split; [discriminate|].
      intros ([|k] & Hk); [discriminate|]. injection Hk as -> _.
      contradiction Hc. reflexivity.
Qed.

Lemma normalizeUrl_decompose (url : string) :
  exists k, url = String.append (normalizeUrl url) (slashes k).
Proof.
  induction url as [|c rest IH]; simpl.
  - exists 0%nat. reflexivity.
  - destruct (Ascii.eqb_spec c "/"%char) as [->|Hc]; simpl.
    + destruct (String.eqb_spec (normalizeUrl rest) EmptyString) as [He|He].
      * destruct (proj1 (normalizeUrl_empty_iff rest) He) as (k & ->).
        exists (S k). reflexivity.
      * destruct IH as (k & Hk). exists k. exact (f_equal (String _) Hk).
    + destruct IH as (k & Hk). exists k. exact (f_equal (String _) Hk).
Qed.

Lemma normalizeUrl_idempotent (url : string) :
  normalizeUrl (normalizeUrl url) = normalizeUrl url.
Proof.
  induction url as [|c rest IH]; simpl; [reflexivity|].
  destruct (Ascii.eqb c "/"%char && String.eqb (normalizeUrl rest) EmptyString)
    eqn:Hb; [reflexivity|].
  simpl. rewrite IH, Hb. reflexivity.
Qed.

Lemma normalizeUrl_no_trailing_slash (url : string) :
  ~ ends_with_char "/"%char (normalizeUrl url).
Proof.
  induction url as [|c rest IH]; simpl; intros (p & Hp).
  - exact (append_not_empty p _ (eq_sym Hp)).
  - destruct (Ascii.eqb c "/"%char && String.eqb (normalizeUrl rest) EmptyString)
      eqn:Hb.
    + exact (append_not_empty p _ (eq_sym Hp)).
    + destruct p as [|c' p'].
      * injection Hp as -> He. rewrite He in Hb. discriminate.
      * rewrite append_cons in Hp. injection Hp as -> He.
        apply IH. exists p'. exact He.
Qed.

Lemma normalizeUrl_fixes (url : string) :
  ~ ends_with_char "/"%char url -> normalizeUrl url = url.
Proof.
  intros Hno. destruct (normalizeUrl_decompose url) as ([|k] & Hk).
  - rewrite Hk at 2. clear. induction (normalizeUrl url) as [|c s IH].
    + reflexivity.
    + rewrite append_cons. f_equal. exact IH.
  - contradiction Hno. clear Hno. rewrite Hk. clear Hk.
    generalize (normalizeUrl url). intros s.
    assert (Hs : forall k, slashes (S k)
                 = String.append (slashes k) (String "/"%char EmptyString)).
    { clear. induction k as [|k IH]; [reflexivity|].
      exact (f_equal (String "/"%char) IH). }
    rewrite Hs. exists (String.append s (slashes k)).
    clear. induction s as [|c s IH]; [reflexivity|].
    rewrite !append_cons. f_equal. exact IH.
Qed.

Lemma dropTrailingSlash_append (s : string) :
  dropTrailingSlash (String.append s (String "/"%char EmptyString)) = s.
Proof.
  induction s as [|c s IH]; [reflexivity|].
  rewrite append_cons. simpl.
  destruct (String.append s (String "/"%char EmptyString)) eqn:He.
  - exfalso. exact (append_not_empty _ _ He).
  - f_equal. exact IH.
Qed.

Lemma dropTrailingSlash_fixes (s : string) :
  ~ ends_with_char "/"%char s -> dropTrailingSlash s = s.
Proof.
  induction s as [|c s IH]; [reflexivity|]. intros Hno. simpl.
  destruct s as [|c' s'].
  - destruct (Ascii.eqb_spec c "/"%char) as [->|Hc]; [|reflexivity].
    contradiction Hno. exists EmptyString. reflexivity.
  - f_equal. apply IH. intros (p & Hp). apply Hno.
    exists (String c p). rewrite append_cons, Hp. reflexivity.
Qed.

(** X22.  The two slash-stripping helpers of the configuration.
    [normalizeUrl] removes trailing slashes and nothing else: the input is
    the result followed by slashes only, the result never ends with a
    slash, a URL without trailing slash is returned unchanged, the function
    is idempotent, and the result is empty exactly for an input made of
    slashes.  [normalizeOrigin] strips at most one: an origin followed by
    one slash gives the lower-cased origin, also when the origin itself
    ends with a slash. *)
Theorem slash_stripping (toLowerCase : string -> string) (url : string) :
  (exists k, url = String.append (normalizeUrl url) (slashes k))
  /\ ~ ends_with_char "/"%char (normalizeUrl url)
  /\ (~ ends_with_char "/"%char url -> normalizeUrl url = url)
  /\ normalizeUrl (normalizeUrl url) = normalizeUrl url
  /\ (normalizeUrl url = EmptyString <-> exists k, url = slashes k)
  /\ normalizeOrigin toLowerCase
       (String.append url (String "/"%char EmptyString)) = toLowerCase url
  /\ (~ ends_with_char "/"%char url ->
      normalizeOrigin toLowerCase url = toLowerCase url).
Proof.
  split; [apply normalizeUrl_decompose|].
  split; [apply normalizeUrl_no_trailing_slash|].
  split; [apply normalizeUrl_fixes|].
  split; [apply normalizeUrl_idempotent|].
  split; [apply normalizeUrl_empty_iff|].
  unfold normalizeOrigin. split.
  - rewrite dropTrailingSlash_append. reflexivity.
  - intros Hno. rewrite dropTrailingSlash_fixes by exact Hno. reflexivity.
Qed.

Lemma substring_full (s : string) :
  String.substring 0 (String.length s) s = s.
Proof. induction s as [|c s IH]; simpl; [reflexivity|]. f_equal. exact IH. Qed.

Lemma substring_split (s : string) (n : nat) :
  (n <= String.length s)%nat ->
  String.append (String.substring 0 n s)
                (String.substring n (String.length s - n) s) = s.
Proof.
  revert n. induction s as [|c s IH]; intros [|n] Hn; simpl in *;
    try reflexivity; try lia.
  - rewrite substring_full. reflexivity.
  - rewrite append_cons. f_equal. apply IH. lia.
Qed.

Lemma endsWith_slice (p s : string) :
  endsWith p s = true ->
  String.append (sliceEnd (String.length p) s) p = s.
Proof.
  unfold endsWith, sliceEnd. intros H.
  apply andb_true_iff in H. destruct H as [Hlen Heq].
  apply Nat.leb_le in Hlen. apply String.eqb_eq in Heq.
  assert (Hle : (String.length s - String.length p <= String.length s)%nat)
    by lia.
  pose proof (substring_split s _ Hle) as H.
  replace (String.length s - (String.length s - String.length p))%nat
    with (String.length p) in H by lia.
  rewrite Heq in H. exact H.
Qed.

Lemma apiBaseUrl_cases (env : Env) :
  (truthy (env !! "FRONTEND_API_BASE_URL"%string) = false
   /\ apiBaseUrl env = "/api"%string)
  \/ (exists url, env !! "FRONTEND_API_BASE_URL"%string = Some url
                  /\ url <> EmptyString
                  /\ apiBaseUrl env = normalizeUrl url).
Proof.
  unfold apiBaseUrl, apiBaseUrlCandidate.
  destruct (truthy (env !! "FRONTEND_API_BASE_URL"%string)) eqn:Ht.
  - right. destruct (truthy_Some _ Ht) as (url & Hurl & Hne).
    exists url. rewrite Hurl. auto.
  - left. auto.
Qed.

(** X23.  The URLs handed to the front end.  [apiBaseUrl] is '/api' when
    FRONTEND_API_BASE_URL is unset or empty and the variable without its
    trailing slashes otherwise, so it never ends with a slash, and a
    variable made of slashes only gives the empty base URL rather than the
    default.  [deriveSocketUrl] returns FRONTEND_SOCKET_URL without
    trailing slashes when that is non-empty; otherwise, for a base URL that
    starts with 'http' and ends with '/api', the base URL without that
    suffix (appending '/api' gives the base URL back); for a base URL
    starting with a slash, '/', whatever follows; and the base URL itself in
    the remaining cases.  Without any variable the pair is '/api' and
    '/'. *)
Theorem frontend_urls (env : Env) :
  let api := apiBaseUrl env in
  let sock := deriveSocketUrl env in
  ~ ends_with_char "/"%char api
  /\ (truthy (env !! "FRONTEND_API_BASE_URL"%string) = false ->
      api = "/api"%string)
  /\ (forall url, env !! "FRONTEND_API_BASE_URL"%string = Some url ->
        url <> EmptyString ->
        (exists k, url = String.append api (slashes k))
        /\ (api = EmptyString <-> exists k, url = slashes (S k)))
  /\ (forall url, env !! "FRONTEND_SOCKET_URL"%string = Some url ->
        normalizeUrl url <> EmptyString -> sock = normalizeUrl url)
  /\ (truthy (socketUrlCandidate env) = false ->
      (startsWith "http" api = true -> endsWith "/api" api = true ->
       String.append sock "/api" = api)
      /\ (startsWith "/" api = true -> sock = "/"%string)
      /\ (startsWith "http" api && endsWith "/api" api = false ->
          startsWith "/" api = false -> sock = api))
  /\ (env !! "FRONTEND_API_BASE_URL"%string = None ->
      env !! "FRONTEND_SOCKET_URL"%string = None ->
      api = "/api"%string /\ sock = "/"%string).
Proof.
  intros api sock. subst api sock.
  split.
  { destruct (apiBaseUrl_cases env) as [[_ ->]|(url & _ & _ & ->)].
    - intros (p & Hp). destruct p as [|c1 [|c2 [|c3 [|c4 p]]]]; try discriminate.
      injection Hp as _ _ _ Hp. destruct p; discriminate.
    - apply normalizeUrl_no_trailing_slash. }
  split.
  { intros Ht. destruct (apiBaseUrl_cases env) as [[_ H]|(url & Hu & Hne & _)];
      [exact H|].
    rewrite Hu in Ht. apply truthy_nonempty in Hne. congruence. }
  split.
  { intros url Hu Hne.
    destruct (apiBaseUrl_cases env) as [[Ht _]|(url' & Hu' & _ & ->)].
    - rewrite Hu in Ht. apply truthy_nonempty in Hne. congruence.
    - rewrite Hu in Hu'. injection Hu' as <-.
      split; [apply normalizeUrl_decompose|].
      rewrite normalizeUrl_empty_iff. split.
      + intros ([|k] & Hk); [contradiction|]. eauto.
      + intros (k & Hk). eauto. }
  split.
  { intros url Hu Hne. unfold deriveSocketUrl, socketUrlCandidate.
    rewrite Hu.
    assert (Ht : truthy (Some url) = true).
    { apply truthy_nonempty. intros ->. apply Hne. reflexivity. }
    rewrite Ht. simpl.
    rewrite (truthy_nonempty _ Hne). reflexivity. }
  split.
  { intros Hs. unfold deriveSocketUrl. rewrite Hs.
    split; [|split].
    - intros H1 H2. rewrite H1, H2. simpl.
      exact (endsWith_slice "/api" _ H2).
    - intros H1.
      destruct (startsWith "http" (apiBaseUrl env)) eqn:Hh.
      + exfalso. unfold startsWith in *.
        apply String.prefix_correct in H1, Hh.
        destruct (apiBaseUrl env) as [|c s]; [discriminate|].
        simpl in H1, Hh. injection H1 as -> _. discriminate.
      + simpl. rewrite H1. reflexivity.
    - intros H1 H2. rewrite H1, H2. reflexivity. }
  intros Ha Hs. unfold deriveSocketUrl, socketUrlCandidate, apiBaseUrl,
    apiBaseUrlCandidate. rewrite Ha, Hs. split; reflexivity.
Qed.

Lemma dedupe_elem (xs seen : list string) (x : string) :
  x ∈ dedupe seen xs <-> x ∈ xs /\ x ∉ seen.
Proof.
  revert seen. induction xs as [|a xs IH]; intros seen; simpl.
  - split; [intros H; inversion H|intros [H _]; inversion H].
  - case_bool_decide as Ha.
    + rewrite IH, elem_of_cons. split; [tauto|].
      intros [[->|Hx] Hn]; [contradiction|tauto].
    + rewrite !elem_of_cons, IH, not_elem_of_cons. split.
      * intros [->|(Hx & Hne & Hn)]; tauto.
      * intros [[->|Hx] Hn]; [tauto|].
        destruct (decide (x = a)) as [->|Hne]; tauto.
Qed.

Lemma dedupe_NoDup (xs seen : list string) : NoDup (dedupe seen xs).
Proof.
  revert seen. induction xs as [|a xs IH]; intros seen; simpl.
  - apply NoDup_nil_2.
  - case_bool_decide as Ha; [apply IH|].
    apply NoDup_cons. split; [|apply IH].
    rewrite dedupe_elem, not_elem_of_cons. tauto.
Qed.

Lemma find_split {A} (f : A -> bool) (l : list A) (x : A) :
  List.find f l = Some x ->
  exists pre post, l = pre ++ x :: post /\ f x = true
                   /\ Forall (fun y => f y = false) pre.
Proof.
  induction l as [|a l IH]; simpl; [discriminate|].
  destruct (f a) eqn:Hfa.
  - intros [= <-]. exists [], l. auto.
  - intros H. destruct (IH H) as (pre & post & -> & Hx & Hpre).
    exists (a :: pre), post. auto.
Qed.

Lemma find_none_iff {A} (f : A -> bool) (l : list A) :
  List.find f l = None <-> Forall (fun y => f y = false) l.
Proof.
  induction l as [|a l IH]; simpl; [split; auto|].
  rewrite Forall_cons. destruct (f a); [split; [discriminate|]|tauto].
  intros [H _]. discriminate.
Qed.

Lemma or_else_truthy (a b : option string) :
  truthy (or_else a b) = truthy a || truthy b.
Proof. unfold or_else. destruct (truthy a) eqn:Ha; auto. Qed.

Lemma stripEnd_idempotent (s : string) : stripEnd (stripEnd s) = stripEnd s.
Proof.
  induction s as [|c rest IH]; simpl; [reflexivity|].
  destruct (Ascii.eqb c " "%char && String.eqb (stripEnd rest) EmptyString)
    eqn:Hb; [reflexivity|].
  simpl. rewrite IH, Hb. reflexivity.
Qed.

Lemma stripStart_stripEnd (s : string) :
  stripStart s = s -> stripStart (stripEnd s) = stripEnd s.
Proof.
  destruct s as [|c rest]; [reflexivity|]. simpl.
  destruct (Ascii.eqb_spec c " "%char) as [->|Hc].
  - intros H. exfalso.
    assert (Hlen : forall t, (String.length (stripStart t)
                              <= String.length t)%nat).
    { clear. induction t as [|c t IH]; simpl; [lia|].
      destruct (Ascii.eqb c " "%char); simpl; lia. }
    pose proof (Hlen rest) as Hl. rewrite H in Hl. simpl in Hl. lia.
  - intros _. simpl. destruct (Ascii.eqb_spec c " "%char); [contradiction|].
    reflexivity.
Qed.

Lemma stripStart_idempotent (s : string) :
  stripStart (stripStart s) = stripStart s.
Proof.
  induction s as [|c rest IH]; simpl; [reflexivity|].
  destruct (Ascii.eqb c " "%char) eqn:Hc; [exact IH|].
  simpl. rewrite Hc. reflexivity.
Qed.

Lemma trimSpaces_idempotent (s : string) :
  trimSpaces (trimSpaces s) = trimSpaces s.
Proof.
  unfold trimSpaces.
  rewrite (stripStart_stripEnd (stripStart s)) by apply stripStart_idempotent.
  apply stripEnd_idempotent.
Qed.

Section Origins.
Variable trim : string -> string.
Variable toLowerCase : string -> string.
Hypothesis trim_idempotent : forall s, trim (trim s) = trim s.

Lemma frontendOrigins_elem (env : Env) (y : string) :
  y ∈ frontendOrigins trim env
  <-> exists c, Some c ∈ originCandidates trim env
                /\ trim c <> EmptyString /\ y = trim c.
Proof.
  unfold frontendOrigins.
  rewrite list_elem_of_In, List.filter_In, <- list_elem_of_In,
    list_elem_of_fmap.
  split.
  - intros [([c|] & -> & Hin) Hlen]; simpl in Hlen; [|discriminate].
    exists c. split; [exact Hin|]. split; [|reflexivity].
    intros He. simpl in Hlen. rewrite He in Hlen. discriminate.
  - intros (c & Hin & Hne & ->). split.
    + exists (Some c). split; [reflexivity|exact Hin].
    + destruct (trim c); [contradiction|reflexivity].
Qed.

(** X24.  The allowed front-end origins.  The list has no duplicates; its
    members are exactly the normalised forms of the candidates whose
    trimmed text is non-empty (the trimmed FRONTEND_URL, the comma-separated
    parts of a non-empty FRONTEND_ORIGINS, and the development origin only
    when both are unset or empty), so it is empty exactly when every
    candidate trims to nothing; and [primaryFrontendUrl] is always the
    first member of the list, whichever branch computes it. *)
Theorem frontend_origins (env : Env) :
  let unique := uniqueFrontendOrigins trim toLowerCase env in
  NoDup unique
  /\ (forall o, o ∈ unique
                <-> exists c, Some c ∈ originCandidates trim env
                              /\ trim c <> EmptyString
                              /\ o = normalizeOrigin toLowerCase (trim c))
  /\ (unique = []
      <-> forall c, Some c ∈ originCandidates trim env ->
                    trim c = EmptyString)
  /\ (forall c, Some c ∈ originCandidates trim env ->
        (exists url, env !! "FRONTEND_URL"%string = Some url /\ c = trim url)
        \/ (exists origins, env !! "FRONTEND_ORIGINS"%string = Some origins
                            /\ origins <> EmptyString
                            /\ c ∈ splitComma origins)
        \/ (c = "http://localhost:5173"%string
            /\ truthy (rawFrontendUrl trim env) = false
            /\ truthy (env !! "FRONTEND_ORIGINS"%string) = false))
  /\ primaryFrontendUrl trim toLowerCase env = head unique.
Proof.
  intros unique. subst unique.
  assert (Hmem : forall o,
    o ∈ uniqueFrontendOrigins trim toLowerCase env
    <-> exists c, Some c ∈ originCandidates trim env
                  /\ trim c <> EmptyString
                  /\ o = normalizeOrigin toLowerCase (trim c)).
  { intros o. unfold uniqueFrontendOrigins.
    rewrite dedupe_elem, list_elem_of_fmap. split.
    - intros [(y & -> & Hy) _].
      apply frontendOrigins_elem in Hy. destruct Hy as (c & Hin & Hne & ->).
      eauto.
    - intros (c & Hin & Hne & ->). split; [|apply not_elem_of_nil].
      exists (trim c). split; [reflexivity|].
      apply frontendOrigins_elem. eauto. }
  split; [apply dedupe_NoDup|].
  split; [exact Hmem|].
  split.
  { split.
    - intros He c Hin. destruct (decide (trim c = EmptyString)) as [|Hne];
        [assumption|].
      exfalso.
      assert (Ho : normalizeOrigin toLowerCase (trim c)
                   ∈ uniqueFrontendOrigins trim toLowerCase env)
        by (apply Hmem; eauto).
      rewrite He in Ho. inversion Ho.
    - intros Hall.
      destruct (uniqueFrontendOrigins trim toLowerCase env) as [|o rest]
        eqn:He; [reflexivity|].
      assert (Ho : o ∈ o :: rest) by apply list_elem_of_here.
      apply Hmem in Ho. destruct Ho as (c & Hin & Hne & _).
      contradiction Hne. auto. }
  split.
  { intros c. unfold originCandidates, rawFrontendUrl, rawFrontendOrigins.
    rewrite !elem_of_app, list_elem_of_singleton.
    intros [H|[H|H]].
    - left. destruct (env !! "FRONTEND_URL"%string) as [url|];
        [|discriminate]. injection H as ->. eauto.
    - right. left.
      destruct (truthy (env !! "FRONTEND_ORIGINS"%string)) eqn:Ht;
        [|inversion H].
      destruct (truthy_Some _ Ht) as (origins & Ho & Hne).
      exists origins. rewrite Ho in H. simpl in H.
      apply list_elem_of_fmap in H. destruct H as (y & [= ->] & Hy). auto.
    - right. right. apply list_elem_of_singleton in H.
      destruct (truthy (trim <$> env !! "FRONTEND_URL"%string));
        [discriminate|].
      destruct (truthy (env !! "FRONTEND_ORIGINS"%string));
        [discriminate|].
      injection H as ->. auto. }
  unfold primaryFrontendUrl.
  destruct (truthy (rawFrontendUrl trim env)) eqn:Ht; [|reflexivity].
  destruct (truthy_Some _ Ht) as (r & Hr & Hne).
  assert (Hfix : trim r = r).
  { unfold rawFrontendUrl in Hr.
    destruct (env !! "FRONTEND_URL"%string) as [url|]; [|discriminate].
    injection Hr as <-. apply trim_idempotent. }
  assert (Hlen : (0 <? String.length r)%nat = true)
    by (destruct r; [contradiction|reflexivity]).
  unfold uniqueFrontendOrigins, frontendOrigins, originCandidates.
  rewrite Hr. simpl. rewrite Hfix, Hlen. reflexivity.
Qed.

End Origins.

#[local] Arguments List.find : simpl never.

Section Load.
Variable trim : string -> string.
Variable toLowerCase : string -> string.

Lemma complete_find (env : Env) :
  List.find (fun envVar => negb (truthy (env !! envVar))) requiredEnvVars
  = None <-> complete env.
Proof.
  rewrite find_none_iff. unfold complete.
  split; intros Hall; (eapply Forall_impl; [exact Hall|]); intros v H; simpl in *.
  - apply negb_false_iff in H. exact H.
  - rewrite H. reflexivity.
Qed.

Lemma complete_lookup (env : Env) (envVar : string) :
  complete env -> envVar ∈ requiredEnvVars ->
  exists v, env !! envVar = Some v /\ v <> EmptyString.
Proof.
  intros Hc Hin. unfold complete in Hc. rewrite Forall_forall in Hc.
  apply truthy_Some. apply Hc. exact Hin.
Qed.

Lemma load_inv (env : Env) :
  match load trim toLowerCase env with
  | inl cfg =>
      uniqueFrontendOrigins trim toLowerCase env <> []
      /\ complete env
      /\ session_secret cfg
         = default "your-secret-key-change-this"%string
             (or_else (env !! "SESSION_SECRET"%string)
                      (Some "your-secret-key-change-this"%string))
      /\ soundtrack_apiToken cfg = env !! "SOUNDTRACK_API_TOKEN"%string
      /\ clerk_publishableKey cfg = env !! "CLERK_PUBLISHABLE_KEY"%string
      /\ clerk_secretKey cfg = env !! "CLERK_SECRET_KEY"%string
      /\ frontend_clerkPublishableKey cfg = frontendClerkPublishableKey env
      /\ server_frontendOrigins cfg
         = uniqueFrontendOrigins trim toLowerCase env
      /\ soundtrack_defaultSoundZone cfg
         = or_else (trim <$> env !! "SOUNDTRACK_DEFAULT_SOUND_ZONE"%string)
                   None
  | inr e =>
      (e = noOrigins /\ uniqueFrontendOrigins trim toLowerCase env = [])
      \/ (e = noClerkKey
          /\ uniqueFrontendOrigins trim toLowerCase env <> []
          /\ truthy (frontendClerkPublishableKey env) = false)
      \/ (exists envVar,
            e = missingVar envVar
            /\ uniqueFrontendOrigins trim toLowerCase env <> []
            /\ truthy (frontendClerkPublishableKey env) = true
            /\ List.find (fun envVar => negb (truthy (env !! envVar)))
                         requiredEnvVars = Some envVar)
  end.
Proof.
  unfold load.
  destruct (uniqueFrontendOrigins trim toLowerCase env) as [|o rest] eqn:Hu.
  - left. auto.
  - destruct (truthy (frontendClerkPublishableKey env)) eqn:Hk; simpl.
    + destruct (List.find _ requiredEnvVars) as [envVar|] eqn:Hf.
      * right. right. exists envVar. auto.
      * apply complete_find in Hf. repeat (split; [done|]). done.
    + right. left. auto.
Qed.

(** X25.  Loading the configuration.  The module loads exactly when at
    least one front-end origin is left and each of the seven required
    variables is set and non-empty; the separate check of the front-end
    Clerk key adds no condition, and the fall-back session secret is never
    used: a loaded configuration carries the SESSION_SECRET, the Clerk keys
    and the Soundtrack token of the environment, all non-empty, a non-empty
    front-end Clerk key (FRONTEND_CLERK_PUBLISHABLE_KEY when non-empty, else
    CLERK_PUBLISHABLE_KEY), a non-empty origin list and a default sound zone
    that is null or non-empty.  The errors come in a fixed order: no origin
    first; then the front-end Clerk key, thrown exactly when both Clerk
    publishable keys are unset or empty; then the first required variable,
    in the order of the list, that is unset or empty. *)
Theorem load_spec (env : Env) :
  ((exists cfg, load trim toLowerCase env = inl cfg)
   <-> uniqueFrontendOrigins trim toLowerCase env <> [] /\ complete env)
  /\ (forall cfg, load trim toLowerCase env = inl cfg ->
        env !! "SESSION_SECRET"%string = Some (session_secret cfg)
        /\ session_secret cfg <> EmptyString
        /\ truthy (soundtrack_apiToken cfg) = true
        /\ truthy (clerk_publishableKey cfg) = true
        /\ truthy (clerk_secretKey cfg) = true
        /\ truthy (frontend_clerkPublishableKey cfg) = true
        /\ (frontend_clerkPublishableKey cfg
            = env !! "FRONTEND_CLERK_PUBLISHABLE_KEY"%string
            \/ truthy (env !! "FRONTEND_CLERK_PUBLISHABLE_KEY"%string) = false
               /\ frontend_clerkPublishableKey cfg = clerk_publishableKey cfg)
        /\ server_frontendOrigins cfg <> []
        /\ soundtrack_defaultSoundZone cfg <> Some EmptyString)
  /\ (forall e, load trim toLowerCase env = inr e ->
        (e = noOrigins /\ uniqueFrontendOrigins trim toLowerCase env = [])
        \/ (e = noClerkKey
            /\ uniqueFrontendOrigins trim toLowerCase env <> []
            /\ truthy (env !! "FRONTEND_CLERK_PUBLISHABLE_KEY"%string) = false
            /\ truthy (env !! "CLERK_PUBLISHABLE_KEY"%string) = false)
        \/ (exists before envVar after,
              e = missingVar envVar
              /\ requiredEnvVars = before ++ envVar :: after
              /\ truthy (env !! envVar) = false
              /\ Forall (fun v => truthy (env !! v) = true) before
              /\ uniqueFrontendOrigins trim toLowerCase env <> []
              /\ (truthy (env !! "FRONTEND_CLERK_PUBLISHABLE_KEY"%string)
                   = true
                  \/ truthy (env !! "CLERK_PUBLISHABLE_KEY"%string)
                      = true))).
Proof.
  pose proof (load_inv env) as Hinv.
  split; [split|split].
  - intros (cfg & Hl). rewrite Hl in Hinv. tauto.
  - intros (Hu & Hc). unfold load.
    destruct (uniqueFrontendOrigins trim toLowerCase env) as [|o rest];
      [contradiction|].
    destruct (complete_lookup env "CLERK_PUBLISHABLE_KEY" Hc)
      as (k & Hk & Hne); [set_solver|].
    unfold frontendClerkPublishableKey.
    rewrite or_else_truthy, Hk, (truthy_nonempty k Hne), orb_true_r. simpl.
    rewrite (proj2 (complete_find env) Hc). eauto.
  - intros cfg Hl. rewrite Hl in Hinv.
    destruct Hinv as (Hu & Hc & -> & -> & -> & -> & -> & -> & ->).
    destruct (complete_lookup env "SESSION_SECRET" Hc) as (s & Hs & Hsne);
      [set_solver|].
    destruct (complete_lookup env "SOUNDTRACK_API_TOKEN" Hc)
      as (t & Ht & Htne); [set_solver|].
    destruct (complete_lookup env "CLERK_PUBLISHABLE_KEY" Hc)
      as (k & Hk & Hkne); [set_solver|].
    destruct (complete_lookup env "CLERK_SECRET_KEY" Hc)
      as (k' & Hk' & Hkne'); [set_solver|].
    rewrite Hs, Ht, Hk, Hk'. unfold or_else.
    rewrite !truthy_nonempty by assumption. simpl.
    split; [reflexivity|]. split; [exact Hsne|].
    do 3 (split; [reflexivity|]).
    unfold frontendClerkPublishableKey, or_else. rewrite Hk.
    destruct (truthy (env !! "FRONTEND_CLERK_PUBLISHABLE_KEY"%string))
      eqn:Hf.
    + split; [exact Hf|]. split; [left; reflexivity|].
      split; [exact Hu|].
      destruct (truthy (trim <$> env !! "SOUNDTRACK_DEFAULT_SOUND_ZONE"%string))
        eqn:Hz; [|discriminate].
      intros Hz'. rewrite Hz' in Hz. discriminate.
    + split; [apply truthy_nonempty; exact Hkne|].
      split; [right; auto|]. split; [exact Hu|].
      destruct (truthy (trim <$> env !! "SOUNDTRACK_DEFAULT_SOUND_ZONE"%string))
        eqn:Hz; [|discriminate].
      intros Hz'. rewrite Hz' in Hz. discriminate.
  - intros e Hl. rewrite Hl in Hinv.
    destruct Hinv as [H|[(-> & Hu & Hk)|(envVar & -> & Hu & Hk & Hf)]].
    + left. exact H.
    + right. left. unfold frontendClerkPublishableKey in Hk.
      rewrite or_else_truthy in Hk. apply orb_false_iff in Hk. tauto.
    + right. right.
      destruct (find_split _ _ _ Hf) as (before & after & Hreq & Hv & Hpre).
      assert (Hmiss : truthy (env !! envVar) = false)
        by (apply negb_true_iff in Hv; exact Hv).
      assert (Hbefore : Forall (fun v => truthy (env !! v) = true) before).
      { eapply Forall_impl; [exact Hpre|]. intros v H. simpl in H.
        apply negb_false_iff in H. exact H. }
      unfold frontendClerkPublishableKey in Hk.
      rewrite or_else_truthy in Hk. apply orb_true_iff in Hk.
      exists before, envVar, after. repeat (split; [assumption || reflexivity|]).
      exact Hk.
Qed.

End Load.

Lemma frontend_origins_witness :
  primaryFrontendUrl trimSpaces lowerLetters hosted_env
  = head (uniqueFrontendOrigins trimSpaces lowerLetters hosted_env)
  /\ uniqueFrontendOrigins trimSpaces lowerLetters hosted_env
     = ["https://dj.example.com"; "https://admin.example.com"]%string.
Proof.
  split; [|vm_compute; reflexivity].
  exact (proj2 (proj2 (proj2 (proj2
    (frontend_origins trimSpaces lowerLetters trimSpaces_idempotent
       hosted_env))))).
Defined.

End SettingsProps.

(** ** The Soundtrack GraphQL client *)

Module ClientProps.
Import JS Soundtrack Progress Playback Pass PlaybackSpec PassSpec Client
  ClientSpec JSFacts PassProps.

Section WithNumbers.
Variable show : Z -> string.

Lemma execute_clean {T} (exchange : Exchange T) (d : T) :
  execute show exchange = inl d <-> clean exchange d.
Proof.
  unfold clean. split.
  - destruct exchange as [|[response|e]]; simpl; try discriminate.
    destruct (ok response) eqn:Hok; simpl.
    + destruct (json response) as [body|e] eqn:Hj; [|discriminate].
      destruct (errors body) as [[|m ms]|] eqn:He;
        destruct (data body) as [d'|] eqn:Hd; try discriminate;
        intros [= <-]; exists response, body; rewrite He; auto.
    + destruct (text response); discriminate.
  - intros (response & body & -> & Hok & Hj & He & Hd). simpl.
    rewrite Hok, Hj, Hd. simpl.
    destruct (errors body) as [[|m ms]|]; simpl in He; try discriminate;
      reflexivity.
Qed.

(** X26.  The GraphQL client.  [execute] returns data exactly for a clean
    exchange: a fetch that resolves with an OK response whose body parses,
    carries no error message and has a data object.  GraphQL errors win
    over data: a body with at least one error is rejected with the messages
    joined by '; ' (a single message is passed on as it is) whatever data
    comes with it.  A response that is not OK is rejected without its JSON
    body being used, and an OK response without its text being used.
    [getNowPlaying] fails exactly when [execute] does, with the same error,
    and answers null exactly for a clean exchange whose data has no
    now-playing report; the commands succeed exactly when [execute] does. *)
Theorem execute_spec {T} (exchange : Exchange T)
    (report : Exchange NowPlayingData) :
  (forall d, execute show exchange = inl d <-> clean exchange d)
  /\ (forall response body message messages,
        exchange = Fetched (inl response) -> ok response = true ->
        json response = inl body ->
        errors body = Some (message :: messages) ->
        execute show exchange
        = inr (OtherError (join "; " (message :: messages)))
        /\ (messages = [] -> execute show exchange = inr (OtherError message)))
  /\ (forall response other,
        exchange = Fetched (inl response) ->
        (ok response = false ->
         execute show exchange
         = execute show
             (Fetched (inl (mkHttp false (status response)
                              (statusText response) (text response) other))))
        /\ (ok response = true ->
            forall otherText,
              execute show exchange
              = execute show
                  (Fetched (inl (mkHttp true (status response)
                                   (statusText response) otherText
                                   (json response))))))
  /\ (forall e, getNowPlaying show report = inr e
                <-> execute show report = inr e)
  /\ (getNowPlaying show report = inl None
      <-> clean report (mkNowPlayingData None))
  /\ (forall np, getNowPlaying show report = inl (Some np)
                 <-> clean report (mkNowPlayingData (Some np)))
  /\ (forall e, command show exchange = inr e
                <-> execute show exchange = inr e)
  /\ (command show exchange = inl tt <-> exists d, clean exchange d).
Proof.
  split; [intros d; apply execute_clean|].
  split.
  { intros response body message messages -> Hok Hj He. simpl.
    rewrite Hok, Hj, He. simpl. split; [reflexivity|]. intros ->. reflexivity. }
  split.
  { intros response other ->. split.
    - intros Hok. simpl. rewrite Hok. reflexivity.
    - intros Hok otherText. simpl. rewrite Hok. reflexivity. }
  split.
  { intros e. unfold getNowPlaying.
    destruct (execute show report); split; congruence. }
  split.
  { rewrite <- execute_clean. unfold getNowPlaying.
    destruct (execute show report) as [[[np|]]|e]; simpl; split; congruence. }
  split.
  { intros np. rewrite <- execute_clean. unfold getNowPlaying.
    destruct (execute show report) as [[[np'|]]|e]; simpl; split; congruence. }
  split.
  { intros e. unfold command.
    destruct (execute show exchange); split; congruence. }
  unfold command. split.
  - destruct (execute show exchange) as [d|e] eqn:He; [|discriminate].
    intros _. exists d. apply execute_clean. exact He.
  - intros (d & Hd). apply execute_clean in Hd. rewrite Hd. reflexivity.
Qed.

End WithNumbers.

Section WithPlayback.
Variable config : Config.
Variable Date_parse : string -> option Z.
Variable show : Z -> string.

(** X27.  A tick whose now-playing exchange is not clean.  When [execute]
    rejects the exchange with [e] (no fetch, a rejected fetch, a response
    that is not OK, an unreadable body, GraphQL errors or missing data),
    the pass of a monitored session with a zone stops at its first call:
    the queue is not read, nothing is marked played, assigned or
    broadcast; the only effects are the provider call and one 'Playback
    sync error' log entry carrying [e]; the monitor keeps its hostId, zone,
    believed track and pending assignment; and the next tick is armed with
    the default interval. *)
Theorem failed_exchange_tick (sessionId zone : string) (env : Pass.Env)
    (report : Exchange NowPlayingData) (e : Error) (st : Service)
    (m : MonitorState) :
  monitors st !! sessionId = Some m ->
  processing m = false ->
  io st = true ->
  soundZoneId m = Some zone ->
  zone <> ""%string ->
  execute show report = inr e ->
  let st' := pollSession config Date_parse sessionId
               (through show report env) st in
  monitors st'
  = <[sessionId := set_timeout (Some (next_timer st)) m]> (monitors st)
  /\ timers st' !! next_timer st
     = Some (mkTimer sessionId DEFAULT_POLL_INTERVAL_MS)
  /\ trace st'
     = trace st ++ [EvGetNowPlaying zone;
                    EvError (playbackSyncError sessionId) e]
  /\ io st' = true.
Proof.
  intros Hm Hp Hio Hz Hne He.
  destruct (pollSession_pass config Date_parse sessionId zone
              (through show report env) st m Hm Hp Hio Hz Hne)
    as (Hio' & Hmon & Htimer & Htrace).
  assert (Hrun : passBody config Date_parse sessionId zone
                   (through show report env)
                   (mkPState (set_processing true m) [])
                 = (inr e, mkPState (set_processing true m)
                             [EvGetNowPlaying zone])).
  { unfold passBody, bind, call, through, getNowPlaying. simpl.
    rewrite He. reflexivity. }
  simpl in *. rewrite Hrun in Hmon, Htimer, Htrace. simpl in *.
  split.
  { rewrite Hmon. f_equal. destruct m. simpl in *. subst. reflexivity. }
  split; [exact Htimer|]. split; [exact Htrace|exact Hio'].
Qed.

End WithPlayback.

Lemma failed_exchange_tick_witness :
  trace (pollSession no_defaults parse_epoch "s1"
           (through show_502 bad_gateway
              (answering (inl None) empty_view))
           zoned_service)
  = [EvGetNowPlaying "zone-A";
     EvError (playbackSyncError "s1")
       (OtherError
          "Soundtrack API request failed: 502 Bad Gateway - upstream")].
Proof.
  refine (proj1 (proj2 (proj2
    (failed_exchange_tick no_defaults parse_epoch show_502 "s1" "zone-A"
       (answering (inl None) empty_view) bad_gateway _ zoned_service
       (mkMonitor "host" (Some "zone-A"%string) None false None None None)
       _ _ _ _ _ _)))).
  - vm_compute. reflexivity.
  - reflexivity.
  - reflexivity.
  - reflexivity.
  - discriminate.
  - reflexivity.
Defined.

End ClientProps.
